(** * EPiC-infrastructure: the scheduled handlers, embedded and verified

    The four Lambda handlers of the repository
    ([compliance_checker.py], [cost_optimizer.py], [db_backup.py],
    [slack_notifier.py]) are translated function by function.

    - Python [dict]s read with [.get(k, d)] are [gmap string _];
      a missing key read with [d[k]] is a [KeyError].
    - Python exceptions are the [Raise] case of [result]; [try/except
      Exception] is [try_except].
    - Python [int] is [Z].  Python [float] is a carrier [F] with the
      operations of [Num].  IEEE-754 binary64 ([PrimFloat]) is the instance
      the interpreter runs; the exact rationals [Q] are the instance the
      properties that need the laws of arithmetic are proved for.  What
      depends on the shape of the computation or on the comparison alone
      is proved for every instance, and the definitions are evaluated in
      binary64 on concrete inputs.
    - Calls to the cloud SDK are inputs: the outcome of each call (a value,
      or the exception it raises) is a field of an environment record, and
      the requests a handler issues are returned next to its result. *)

From Stdlib Require Import ZArith QArith Lqa Lia List Bool.
From Stdlib Require Import Strings.String Strings.Ascii.
From Stdlib Require Import Floats Numbers.Cyclic.Int63.Uint63.
From stdpp Require Import base option gmap strings.

Local Open Scope string_scope.
Local Open Scope Z_scope.

(** ** Python values and control flow *)

Module Py.

(** The outcome of a call that may raise: the exception is kept as the
    text [str(e)] the handlers log. *)
Inductive result (A : Type) : Type :=
| Ok (a : A)
| Raise (msg : string).
Arguments Ok {A} a.
Arguments Raise {A} msg.

Definition bind {A B} (r : result A) (k : A -> result B) : result B :=
  match r with
  | Ok a => k a
  | Raise e => Raise e
  end.

(** [try: body  except Exception as e: handler(e)] *)
Definition try_except {A} (body : result A) (handler : string -> A) : A :=
  match body with
  | Ok a => a
  | Raise e => handler e
  end.

(** Truth value of an [int] and of a [str]. *)
Definition truthy_int (z : Z) : bool := negb (z =? 0).

Definition truthy_str (s : string) : bool :=
  match s with
  | EmptyString => false
  | String _ _ => true
  end.

(** Truth value of an optional string ([None] and [''] are false). *)
Definition truthy_opt_str (o : option string) : bool :=
  match o with
  | Some s => truthy_str s
  | None => false
  end.

(** [a or b] on integers: [a] when it is non-zero, else [b]. *)
Definition or_int (a b : Z) : Z := if truthy_int a then a else b.

(** [a or b] on optional strings. *)
Definition or_opt_str (a b : option string) : option string :=
  if truthy_opt_str a then a else b.

(** [d.get(k, 0)] *)
Definition get0 (d : gmap string Z) (k : string) : Z := default 0 (d !! k).

(** [d[k]]: a missing key raises [KeyError(k)], whose text is the quoted key. *)
Definition getitem {A} (d : gmap string A) (k : string) : result A :=
  match d !! k with
  | Some v => Ok v
  | None => Raise ("'" ++ k ++ "'")
  end.

(** A dictionary display [{k1: v1, k2: v2, ...}]: the items are stored
    from left to right. *)
Definition dict {A} (items : list (string * A)) : gmap string A :=
  fold_left (fun d kv => <[ fst kv := snd kv ]> d) items ∅.

(** [for x in l: s = f(s, x)] where a turn may raise: the exception leaves
    the loop. *)
Fixpoint for_each {A S} (f : S -> A -> result S) (l : list A) (s : S) : result S :=
  match l with
  | [] => Ok s
  | x :: rest =>
      match f s x with
      | Ok s' => for_each f rest s'
      | Raise e => Raise e
      end
  end.

(** [x in l] on a list of strings. *)
Definition in_strings (x : string) (l : list string) : bool :=
  existsb (String.eqb x) l.

(** [s.lower()], on the letters A to Z. *)
Definition lower_char (c : ascii) : ascii :=
  let n := nat_of_ascii c in
  if (65 <=? n)%nat && (n <=? 90)%nat then ascii_of_nat (n + 32) else c.

Fixpoint lower (s : string) : string :=
  match s with
  | EmptyString => EmptyString
  | String c rest => String (lower_char c) (lower rest)
  end.

(** [needle in hay] on strings: some suffix of [hay] starts with [needle]. *)
Fixpoint contains (needle hay : string) : bool :=
  String.prefix needle hay ||
  match hay with
  | EmptyString => false
  | String _ rest => contains needle rest
  end.

End Py.
Import Py.

(** [result] is an error monad: [x ← r; k] is sequencing, an exception in
    [r] skips [k]. *)
#[export] Instance result_ret : MRet result := fun _ a => Ok a.
#[export] Instance result_bind : MBind result := fun _ _ k r => Py.bind r k.

(** ** Python floats *)

(** The float operations the handlers use.  [of_Z] is the conversion of an
    [int] operand in mixed arithmetic. *)
Class Num (F : Type) := {
  of_Z : Z -> F;
  add : F -> F -> F;
  mul : F -> F -> F;
  div : F -> F -> F;
  ltb : F -> F -> bool
}.

(** A decimal literal [n/d] such as [0.15]: the float nearest to the
    quotient of two integers it is written with. *)
Definition lit {F} `{Num F} (n d : Z) : F := div (of_Z n) (of_Z d).

(** [a / b] on two [int]s (true division). *)
Definition int_div {F} `{Num F} (a b : Z) : F := div (of_Z a) (of_Z b).

Definition Qltb (x y : Q) : bool := negb (Qle_bool y x).

(** Exact arithmetic. *)
#[export] Instance Q_Num : Num Q := {|
  of_Z := inject_Z;
  add := Qplus;
  mul := Qmult;
  div := Qdiv;
  ltb := Qltb
|}.

(** binary64, as CPython computes: every operation rounds to nearest.
    The conversion is exact for integers below [2^53] in magnitude. *)
Definition float_of_Z (z : Z) : float :=
  if z <? 0 then PrimFloat.opp (PrimFloat.of_uint63 (Uint63.of_Z (- z)))
  else PrimFloat.of_uint63 (Uint63.of_Z z).

#[export] Instance float_Num : Num float := {|
  of_Z := float_of_Z;
  add := PrimFloat.add;
  mul := PrimFloat.mul;
  div := PrimFloat.div;
  ltb := PrimFloat.ltb
|}.

(** The law of the comparison the threshold tests rely on: no number is
    below itself. *)
Class NumOrder (F : Type) `{Num F} := {
  ltb_irrefl : forall x : F, ltb x x = false
}.

(** ** compliance_checker.py *)

Module ComplianceChecker.

(** One element of [ComplianceByConfigRules] in the answer of
    [config.describe_compliance_by_config_rule()]. *)
Record rule_compliance := {
  ConfigRuleName : string;
  ComplianceType : string;
  ComplianceContributorCount : option (Z * bool)
}.

Record rule_detail := {
  status : string;
  last_evaluated : option (Z * bool)
}.

(** The dictionary [get_config_rules_compliance] returns: its three
    integer entries, and [rules_detail]. *)
Record config_status := {
  rule_counts : gmap string Z;
  rules_detail : gmap string rule_detail
}.

(** *** The inventory the checks read *)

Record tag := {
  Key : string;
  Value : string
}.

(** [{tag['Key']: tag['Value'] for tag in tags}] *)
Definition tags_dict (tags : list tag) : gmap string string :=
  fold_left (fun d t => <[ Key t := Value t ]> d) tags ∅.

(** An instance of [ec2.describe_instances()]: the keys the checks read
    ([State_Name] is [instance['State']['Name']]). *)
Record ec2_instance := {
  InstanceId : string;
  State_Name : string;
  Tags : option (list tag);
  PublicIpAddress : option string
}.

Record reservation := {
  Instances : list ec2_instance
}.

Record ip_range := {
  CidrIp : option string
}.

Record ip_permission := {
  FromPort : option Z;
  IpProtocol : option string;
  IpRanges : option (list ip_range)
}.

Record security_group := {
  GroupName : string;
  GroupId : string;
  IpPermissions : list ip_permission;
  IpPermissionsEgress : option (list ip_permission)
}.

Record public_access_block := {
  BlockPublicAcls : option bool;
  IgnorePublicAcls : option bool;
  BlockPublicPolicy : option bool;
  RestrictPublicBuckets : option bool
}.

Record db_instance := {
  DBInstanceIdentifier : string;
  StorageEncrypted : option bool;
  PubliclyAccessible : option bool
}.

Record volume := {
  VolumeId : string;
  Encrypted : option bool
}.

(** The outcome of [s3.get_bucket_tagging]: the tag set, the exception the
    check handles, or another exception. *)
Inductive bucket_tagging :=
| TagSet (tags : option (list tag))
| NoSuchTagSet
| TaggingRaises (msg : string).

(** The outcome of [s3.get_public_access_block]. *)
Inductive access_block_outcome :=
| PublicAccessBlockConfiguration (config : public_access_block)
| NoSuchPublicAccessBlockConfiguration
| AccessBlockRaises (msg : string).

(** The outcome of [s3.get_bucket_encryption]. *)
Inductive bucket_encryption :=
| EncryptionConfigured
| ServerSideEncryptionConfigurationNotFoundError
| EncryptionRaises (msg : string).

(** The outcome of every inventory call of one run, call site by call
    site; the calls about one bucket are answered by its name. *)
Record cloud := {
  tagging_describe_instances : result (list reservation);
  tagging_list_buckets : result (list string);
  get_bucket_tagging : string -> bucket_tagging;
  describe_security_groups : result (list security_group);
  policies_list_buckets : result (list string);
  get_public_access_block : string -> access_block_outcome;
  get_bucket_encryption : string -> bucket_encryption;
  encryption_describe_db_instances : result (list db_instance);
  describe_volumes : result (list volume);
  public_describe_db_instances : result (list db_instance);
  public_describe_instances : result (list reservation)
}.

(** *** Violations and reports *)

Inductive group_finding :=
| overly_permissive_inbound (port : option Z) (protocol : string)
| unused_security_group (group_id : string).

Inductive bucket_finding :=
| public_access_not_blocked (current_config : public_access_block)
| no_public_access_block
| encryption_not_enabled.

(** An element of the [violations] list of a check. *)
Inductive violation :=
| missing_tags_of (resource_type resource_id : string) (missing_tags : list string)
| group_findings (group_id group_name : string) (found : list group_finding)
| bucket_findings (bucket_name : string) (found : list bucket_finding)
| resource_issue (resource_type resource_id issue : string).

(** The dictionary a custom check returns: its two integer entries (the
    key names differ from check to check), and [violations]. *)
Record check_report := {
  counts : gmap string Z;
  violations : list violation
}.

Definition empty_report : check_report :=
  {| counts := ∅; violations := [] |}.

(** [d[k] += 1] *)
Definition incr (k : string) (d : gmap string Z) : gmap string Z :=
  alter (fun n => n + 1) k d.

(** [report[k] += 1] and [report['violations'].append(v)] *)
Definition count (k : string) (report : check_report) : check_report :=
  {| counts := incr k (counts report); violations := violations report |}.

Definition record_violation (v : violation) (report : check_report) : check_report :=
  {| counts := counts report; violations := (violations report ++ [v])%list |}.

Definition zero_config_counts : gmap string Z :=
  {[ "total_rules" := 0; "compliant_rules" := 0; "non_compliant_rules" := 0 ]}.

(** One turn of the loop over the rules. *)
Definition count_rule (st : config_status) (rc : rule_compliance) : config_status :=
  let counts1 := incr "total_rules" (rule_counts st) in
  let detail :=
    <[ ConfigRuleName rc :=
         {| status := ComplianceType rc;
            last_evaluated := ComplianceContributorCount rc |} ]> (rules_detail st) in
  let counts2 :=
    if String.eqb (ComplianceType rc) "COMPLIANT"
    then incr "compliant_rules" counts1
    else incr "non_compliant_rules" counts1 in
  {| rule_counts := counts2; rules_detail := detail |}.

(** [get_config_rules_compliance]; [response] is the outcome of the call
    to the configuration service. *)
Definition get_config_rules_compliance
    (response : result (list rule_compliance)) : config_status :=
  try_except
    (rules ← response;
     mret (fold_left count_rule rules
             {| rule_counts := zero_config_counts; rules_detail := ∅ |}))
    (fun _ => {| rule_counts := zero_config_counts; rules_detail := ∅ |}).

(** The report a check starts from, and returns when it fails. *)
Definition zeros (total_key compliant_key : string) : check_report :=
  {| counts := {[ total_key := 0; compliant_key := 0 ]}; violations := [] |}.

(** *** check_resource_tagging *)

Definition required_tags : list string := ["Project"; "Environment"; "ManagedBy"].

(** [[tag for tag in required_tags if tag not in tags]] *)
Definition missing_tags_in (tags : gmap string string) : list string :=
  List.filter (fun t => match tags !! t with Some _ => false | None => true end)
    required_tags.

Definition is_nil {A} (l : list A) : bool :=
  match l with [] => true | _ :: _ => false end.

Definition tag_instance (report : check_report) (i : ec2_instance) : check_report :=
  if in_strings (State_Name i) ["running"; "stopped"] then
    let report := count "total_resources" report in
    let tags := tags_dict (default [] (Tags i)) in
    let missing_tags := missing_tags_in tags in
    if is_nil missing_tags then count "compliant_resources" report
    else record_violation
           (missing_tags_of "EC2 Instance" (InstanceId i) missing_tags) report
  else report.

Definition tag_bucket (PROJECT_NAME : string) (c : cloud)
    (report : check_report) (bucket_name : string) : result check_report :=
  if contains PROJECT_NAME bucket_name then
    let report := count "total_resources" report in
    match get_bucket_tagging c bucket_name with
    | TagSet tag_set =>
        let tags := tags_dict (default [] tag_set) in
        let missing_tags := missing_tags_in tags in
        if is_nil missing_tags then Ok (count "compliant_resources" report)
        else Ok (record_violation
                   (missing_tags_of "S3 Bucket" bucket_name missing_tags) report)
    | NoSuchTagSet =>
        Ok (record_violation
              (missing_tags_of "S3 Bucket" bucket_name required_tags) report)
    | TaggingRaises e => Raise e
    end
  else Ok report.

(** The body of the [try] of [check_resource_tagging]. *)
Definition resource_tagging_scan (PROJECT_NAME : string) (c : cloud)
    : result check_report :=
  let tagging_report := zeros "total_resources" "compliant_resources" in
  reservations ← tagging_describe_instances c;
  let tagging_report :=
    fold_left (fun report r => fold_left tag_instance (Instances r) report)
      reservations tagging_report in
  buckets ← tagging_list_buckets c;
  for_each (tag_bucket PROJECT_NAME c) buckets tagging_report.

Definition check_resource_tagging (PROJECT_NAME : string) (c : cloud) : check_report :=
  try_except (resource_tagging_scan PROJECT_NAME c)
    (fun _ => zeros "total_resources" "compliant_resources").

(** *** check_security_groups *)

Definition opt_string_eqb (o : option string) (s : string) : bool :=
  match o with
  | Some x => String.eqb x s
  | None => false
  end.

(** [rule.get('FromPort') not in [80, 443]] *)
Definition port_not_web (port : option Z) : bool :=
  match port with
  | Some p => negb ((p =? 80) || (p =? 443))
  | None => true
  end.

Definition rule_findings (rule : ip_permission) : list group_finding :=
  flat_map
    (fun r : ip_range =>
       if opt_string_eqb (CidrIp r) "0.0.0.0/0" then
         if port_not_web (FromPort rule)
         then [overly_permissive_inbound (FromPort rule)
                 (default "all" (IpProtocol rule))]
         else []
       else [])
    (default [] (IpRanges rule)).

Definition inspect_group (report : check_report) (sg : security_group) : check_report :=
  if String.eqb (GroupName sg) "default" then report
  else
    let report := count "total_security_groups" report in
    let found := flat_map rule_findings (IpPermissions sg) in
    let found :=
      if is_nil (IpPermissions sg) && is_nil (default [] (IpPermissionsEgress sg))
      then (found ++ [unused_security_group (GroupId sg)])%list
      else found in
    if is_nil found then count "compliant_security_groups" report
    else record_violation (group_findings (GroupId sg) (GroupName sg) found) report.

(** The body of the [try] of [check_security_groups]. *)
Definition security_groups_scan (c : cloud) : result check_report :=
  let sg_report := zeros "total_security_groups" "compliant_security_groups" in
  groups ← describe_security_groups c;
  mret (fold_left inspect_group groups sg_report).

Definition check_security_groups (c : cloud) : check_report :=
  try_except (security_groups_scan c)
    (fun _ => zeros "total_security_groups" "compliant_security_groups").

(** *** check_s3_bucket_policies *)

(** [all([config.get(k, False) for the four keys])] *)
Definition blocks_all (config : public_access_block) : bool :=
  default false (BlockPublicAcls config) && default false (IgnorePublicAcls config) &&
  default false (BlockPublicPolicy config) &&
  default false (RestrictPublicBuckets config).

Definition inspect_bucket (PROJECT_NAME : string) (c : cloud)
    (report : check_report) (bucket_name : string) : result check_report :=
  if negb (contains PROJECT_NAME bucket_name) then Ok report
  else
    let report := count "total_buckets" report in
    found1 ←
      match get_public_access_block c bucket_name with
      | PublicAccessBlockConfiguration pab_config =>
          if negb (blocks_all pab_config)
          then Ok [public_access_not_blocked pab_config] else Ok []
      | NoSuchPublicAccessBlockConfiguration => Ok [no_public_access_block]
      | AccessBlockRaises e => Raise e
      end;
    found2 ←
      match get_bucket_encryption c bucket_name with
      | EncryptionConfigured => Ok found1
      | ServerSideEncryptionConfigurationNotFoundError =>
          Ok (found1 ++ [encryption_not_enabled])%list
      | EncryptionRaises e => Raise e
      end;
    if is_nil found2 then Ok (count "compliant_buckets" report)
    else Ok (record_violation (bucket_findings bucket_name found2) report).

(** The body of the [try] of [check_s3_bucket_policies]. *)
Definition s3_bucket_policies_scan (PROJECT_NAME : string) (c : cloud)
    : result check_report :=
  let s3_report := zeros "total_buckets" "compliant_buckets" in
  buckets ← policies_list_buckets c;
  for_each (inspect_bucket PROJECT_NAME c) buckets s3_report.

Definition check_s3_bucket_policies (PROJECT_NAME : string) (c : cloud) : check_report :=
  try_except (s3_bucket_policies_scan PROJECT_NAME c)
    (fun _ => zeros "total_buckets" "compliant_buckets").

(** *** check_encryption_compliance *)

Definition inspect_db_encryption (report : check_report) (db : db_instance)
    : check_report :=
  let report := count "total_resources" report in
  if default false (StorageEncrypted db) then count "encrypted_resources" report
  else record_violation
         (resource_issue "RDS Instance" (DBInstanceIdentifier db)
            "Storage not encrypted") report.

Definition inspect_volume (report : check_report) (v : volume) : check_report :=
  let report := count "total_resources" report in
  if default false (Encrypted v) then count "encrypted_resources" report
  else record_violation
         (resource_issue "EBS Volume" (VolumeId v) "Volume not encrypted") report.

(** The body of the [try] of [check_encryption_compliance]. *)
Definition encryption_scan (c : cloud) : result check_report :=
  let encryption_report := zeros "total_resources" "encrypted_resources" in
  db_instances ← encryption_describe_db_instances c;
  let encryption_report :=
    fold_left inspect_db_encryption db_instances encryption_report in
  volumes ← describe_volumes c;
  mret (fold_left inspect_volume volumes encryption_report).

Definition check_encryption_compliance (c : cloud) : check_report :=
  try_except (encryption_scan c)
    (fun _ => zeros "total_resources" "encrypted_resources").

(** *** check_public_access_compliance *)

Definition inspect_db_access (report : check_report) (db : db_instance)
    : check_report :=
  let report := count "total_resources" report in
  if negb (default false (PubliclyAccessible db)) then count "private_resources" report
  else record_violation
         (resource_issue "RDS Instance" (DBInstanceIdentifier db)
            "Database is publicly accessible") report.

Definition inspect_instance_access (report : check_report) (i : ec2_instance)
    : check_report :=
  if in_strings (State_Name i) ["running"] then
    let report := count "total_resources" report in
    let tags := tags_dict (default [] (Tags i)) in
    let subnet_type := lower (default "" (tags !! "SubnetType")) in
    if truthy_opt_str (PublicIpAddress i) &&
       in_strings subnet_type ["private"; "database"]
    then record_violation
           (resource_issue "EC2 Instance" (InstanceId i)
              ("Public IP in " ++ subnet_type ++ " subnet")) report
    else count "private_resources" report
  else report.

(** The body of the [try] of [check_public_access_compliance]. *)
Definition public_access_scan (c : cloud) : result check_report :=
  let public_access_report := zeros "total_resources" "private_resources" in
  db_instances ← public_describe_db_instances c;
  let public_access_report :=
    fold_left inspect_db_access db_instances public_access_report in
  reservations ← public_describe_instances c;
  mret (fold_left
          (fun report r => fold_left inspect_instance_access (Instances r) report)
          reservations public_access_report).

Definition check_public_access_compliance (c : cloud) : check_report :=
  try_except (public_access_scan c)
    (fun _ => zeros "total_resources" "private_resources").

Definition perform_custom_checks (PROJECT_NAME : string) (c : cloud)
    : gmap string check_report :=
  {[ "tagging_compliance" := check_resource_tagging PROJECT_NAME c;
     "security_groups" := check_security_groups c;
     "s3_bucket_policies" := check_s3_bucket_policies PROJECT_NAME c;
     "encryption_status" := check_encryption_compliance c;
     "public_access" := check_public_access_compliance c ]}.

Section Score.
Context {F : Type} `{Num F}.

Definition check_weights : list (string * F) :=
  [ ("tagging_compliance", lit 15 100);
    ("security_groups", lit 15 100);
    ("s3_bucket_policies", lit 15 100);
    ("encryption_status", lit 10 100);
    ("public_access", lit 5 100) ].

(** One turn of the loop over [check_weights]; the accumulator is
    [(total_score, total_weight)]. *)
Definition score_check (custom_checks : gmap string (gmap string Z))
    (acc : F * F) (cw : string * F) : F * F :=
  let '(total_score, total_weight) := acc in
  let '(check_name, weight) := cw in
  let check_data := default ∅ (custom_checks !! check_name) in
  let total_resources :=
    or_int (or_int (get0 check_data "total_resources")
                   (get0 check_data "total_buckets"))
           (get0 check_data "total_security_groups") in
  let compliant_resources :=
    or_int (or_int (or_int (or_int (get0 check_data "compliant_resources")
                                   (get0 check_data "compliant_buckets"))
                           (get0 check_data "compliant_security_groups"))
                   (get0 check_data "encrypted_resources"))
           (get0 check_data "private_resources") in
  if 0 <? total_resources then
    let check_score := mul (int_div compliant_resources total_resources) (of_Z 100) in
    (add total_score (mul check_score weight), add total_weight weight)
  else (total_score, total_weight).

(** The body of the [try] of [calculate_compliance_score]. *)
Definition score_body (config_status : gmap string Z)
    (custom_checks : gmap string (gmap string Z)) : result F :=
  let total_score := of_Z 0 in
  let total_weight := of_Z 0 in
  acc ← (if 0 <? get0 config_status "total_rules" then
           compliant_rules ← getitem config_status "compliant_rules";
           total_rules ← getitem config_status "total_rules";
           let config_score := mul (int_div compliant_rules total_rules) (of_Z 100) in
           mret (add total_score (mul config_score (lit 4 10)),
                 add total_weight (lit 4 10))
         else mret (total_score, total_weight));
  let '(total_score, total_weight) :=
    fold_left (score_check custom_checks) check_weights acc in
  if ltb (of_Z 0) total_weight
  then mret (div total_score total_weight)
  else mret (of_Z 0).

Definition calculate_compliance_score (config_status : gmap string Z)
    (custom_checks : gmap string (gmap string Z)) : F :=
  try_except (score_body config_status custom_checks) (fun _ => of_Z 0).

End Score.

(** *** The handler *)

Section Handler.
Context {F : Type} `{Num F}.

Record compliance_report := {
  timestamp : string;
  project : string;
  environment : string;
  config_rules_status : config_status;
  custom_checks : gmap string check_report;
  compliance_score : F;
  report_violations : list violation;
  recommendations : list string
}.

(** What one run reads from outside: the module-level environment
    variables, the clock, the outcome of the configuration-service call
    and of the inventory calls, and the exception [json.dumps] raises on
    the report, if it raises. *)
Record env := {
  SNS_TOPIC_ARN : option string;
  PROJECT_NAME : string;
  ENVIRONMENT : string;
  now_isoformat : string;
  describe_compliance_by_config_rule : result (list rule_compliance);
  inventory : cloud;
  json_dumps_raises : option string
}.

(** A request [sns.publish(TopicArn=..., Subject=..., Message=...)].
    Subject and message are text renderings of the values kept here:
    the severity band and the report, or the error text. *)
Inductive severity := Critical | Warning | Good.

Inductive notice :=
| ComplianceNotice (band : severity) (report : compliance_report)
| ErrorNotice (error_message : string).

Record publish := {
  TopicArn : string;
  Notice : notice
}.

Definition is_compliance_notice (p : publish) : bool :=
  match Notice p with
  | ComplianceNotice _ _ => true
  | ErrorNotice _ => false
  end.

(** The JSON object a response carries in [body]. *)
Inductive body :=
| ReportBody (report : compliance_report)
| ErrorBody (error : string).

Record response := {
  statusCode : Z;
  response_body : body
}.

Definition violations_of (checks : gmap string check_report) (name : string)
    : list violation :=
  violations (default empty_report (checks !! name)).

Definition truthy_list {A} (l : list A) : bool :=
  match l with [] => false | _ :: _ => true end.

(** [l.append(x)] *)
Definition append {A} (l : list A) (x : A) : list A := (l ++ [x])%list.

Definition generate_recommendations (report : compliance_report) : list string :=
  let r0 : list string := [] in
  let r1 :=
    if 0 <? get0 (rule_counts (config_rules_status report)) "non_compliant_rules"
    then append r0 "Review and remediate non-compliant AWS Config rules" else r0 in
  let checks := custom_checks report in
  let r2 :=
    if truthy_list (violations_of checks "tagging_compliance")
    then append r1 "Apply required tags (Project, Environment, ManagedBy) to all resources"
    else r1 in
  let r3 :=
    if truthy_list (violations_of checks "security_groups")
    then append r2 "Review security group rules and remove overly permissive access"
    else r2 in
  let r4 :=
    if truthy_list (violations_of checks "s3_bucket_policies")
    then append r3 "Enable S3 public access block and server-side encryption"
    else r3 in
  let r5 :=
    if truthy_list (violations_of checks "encryption_status")
    then append r4 "Enable encryption for RDS instances and EBS volumes"
    else r4 in
  if truthy_list (violations_of checks "public_access")
  then append r5 "Remove public access from resources in private subnets"
  else r5.

(** [send_compliance_notification]: the requests it issues.  An
    exception of [sns.publish] is caught and logged inside; it changes
    neither the request issued nor what the handler returns. *)
Definition send_compliance_notification (e : env) (report : compliance_report)
    : list publish :=
  if negb (truthy_opt_str (SNS_TOPIC_ARN e)) then []
  else
    let score := compliance_score report in
    let band :=
      if ltb score (of_Z 70) then Critical
      else if ltb score (of_Z 90) then Warning
      else Good in
    [ {| TopicArn := default "" (SNS_TOPIC_ARN e);
         Notice := ComplianceNotice band report |} ].

Definition send_error_notification (e : env) (error_message : string)
    : list publish :=
  if negb (truthy_opt_str (SNS_TOPIC_ARN e)) then []
  else [ {| TopicArn := default "" (SNS_TOPIC_ARN e);
            Notice := ErrorNotice error_message |} ].

(** The report as it stands when [json.dumps] is reached. *)
Definition build_report (e : env) : compliance_report :=
  let report0 :=
    {| timestamp := now_isoformat e;
       project := PROJECT_NAME e;
       environment := ENVIRONMENT e;
       config_rules_status :=
         get_config_rules_compliance (describe_compliance_by_config_rule e);
       custom_checks := perform_custom_checks (PROJECT_NAME e) (inventory e);
       compliance_score := of_Z 0;
       report_violations := [];
       recommendations := [] |} in
  let report1 :=
    {| timestamp := timestamp report0;
       project := project report0;
       environment := environment report0;
       config_rules_status := config_rules_status report0;
       custom_checks := custom_checks report0;
       compliance_score :=
         calculate_compliance_score
           (rule_counts (config_rules_status report0))
           (counts <$> custom_checks report0);
       report_violations := report_violations report0;
       recommendations := recommendations report0 |} in
  {| timestamp := timestamp report1;
     project := project report1;
     environment := environment report1;
     config_rules_status := config_rules_status report1;
     custom_checks := custom_checks report1;
     compliance_score := compliance_score report1;
     report_violations := report_violations report1;
     recommendations := generate_recommendations report1 |}.

(** [handler]: the response, and the publish requests issued in order.
    Every step of the [try] before [json.dumps] absorbs its own exceptions;
    when [json.dumps] raises, the notification step has already run. *)
Definition handler (e : env) : response * list publish :=
  let report := build_report e in
  let sent :=
    if ltb (compliance_score report) (of_Z 90)
    then send_compliance_notification e report
    else [] in
  match json_dumps_raises e with
  | None => ({| statusCode := 200; response_body := ReportBody report |}, sent)
  | Some exn =>
      let error_msg := "Compliance check failed: " ++ exn in
      let sent' :=
        if truthy_opt_str (SNS_TOPIC_ARN e)
        then (sent ++ send_error_notification e error_msg)%list
        else sent in
      ({| statusCode := 500; response_body := ErrorBody error_msg |}, sent')
  end.

End Handler.

End ComplianceChecker.

(** ** cost_optimizer.py *)

Module CostOptimizer.

(** An element of [Reservations[..]['Instances']] in the answer of
    [ec2.describe_instances], which is asked for running instances
    tagged with the project. *)
Record instance := {
  InstanceId : string;
  InstanceType : string
}.

Record reservation := {
  Instances : list instance
}.

Definition downsize_map : gmap string string :=
  dict [ ("t3.large", "t3.medium");
         ("t3.medium", "t3.small");
         ("t3.xlarge", "t3.large");
         ("m5.large", "m5.medium");
         ("m5.xlarge", "m5.large");
         ("m5.2xlarge", "m5.xlarge");
         ("r5.large", "r5.medium");
         ("r5.xlarge", "r5.large");
         ("c5.large", "c5.medium");
         ("c5.xlarge", "c5.large") ].

Definition suggest_smaller_instance_type (current_type : string) : option string :=
  downsize_map !! current_type.

Definition cost_map : gmap string Z :=
  dict [ ("t3.nano", 5); ("t3.micro", 8); ("t3.small", 17); ("t3.medium", 34);
         ("t3.large", 67);
         ("m5.medium", 44); ("m5.large", 87); ("m5.xlarge", 174);
         ("r5.medium", 61); ("r5.large", 122); ("r5.xlarge", 244);
         ("c5.medium", 39); ("c5.large", 77); ("c5.xlarge", 154) ].

(** [max(0, x)] on integers. *)
Definition max0 (x : Z) : Z := if 0 <? x then x else 0.

Definition estimate_instance_cost_savings (current_type suggested_type : string) : Z :=
  let current_cost := default 0 (cost_map !! current_type) in
  let suggested_cost := default 0 (cost_map !! suggested_type) in
  max0 (current_cost - suggested_cost).

Section Analysis.
Context {F : Type} `{Num F}.

(** The value of the module constant [UTILIZATION_THRESHOLD =
    float(os.environ.get('UTILIZATION_THRESHOLD', '20.0'))]; [configured] is
    the number the variable holds when it is set. *)
Definition load_UTILIZATION_THRESHOLD (configured : option F) : F :=
  default (lit 200 10) configured.

(** A downsizing recommendation.  The entry ['reason'], a rendering of
    the utilisation to one decimal, is not kept. *)
Record recommendation := {
  instance_id : string;
  current_type : string;
  suggested_type : string;
  current_cpu_utilization : F;
  monthly_savings : Z;
  recommendation_text : string
}.

(** [get_average_cpu_utilization]; [response] is the outcome of
    [cloudwatch.get_metric_statistics] for the instance: the ['Average']
    of each datapoint of the last seven days. *)
Definition get_average_cpu_utilization (response : result (list F)) : F :=
  try_except
    (datapoints ← response;
     match datapoints with
     | _ :: _ =>
         let avg_cpu :=
           div (fold_left add datapoints (of_Z 0))
               (of_Z (Z.of_nat (List.length datapoints))) in
         mret avg_cpu
     | [] => mret (of_Z 0)
     end)
    (fun _ => of_Z 0).

(** One turn of the inner loop of [analyze_ec2_instances]. *)
Definition analyze_instance (UTILIZATION_THRESHOLD : F)
    (get_metric_statistics : string -> result (list F))
    (recommendations : list recommendation) (i : instance)
    : list recommendation :=
  let instance_id := InstanceId i in
  let instance_type := InstanceType i in
  let cpu_utilization :=
    get_average_cpu_utilization (get_metric_statistics instance_id) in
  if ltb cpu_utilization UTILIZATION_THRESHOLD then
    let suggested_type := suggest_smaller_instance_type instance_type in
    if truthy_opt_str suggested_type then
      let suggested := default "" suggested_type in
      let monthly_savings :=
        estimate_instance_cost_savings instance_type suggested in
      (recommendations ++
       [ {| instance_id := instance_id;
            current_type := instance_type;
            suggested_type := suggested;
            current_cpu_utilization := cpu_utilization;
            monthly_savings := monthly_savings;
            recommendation_text :=
              "Downsize from " ++ instance_type ++ " to " ++ suggested |} ])%list
    else recommendations
  else recommendations.

(** [analyze_ec2_instances]; [describe_instances] is the outcome of the
    inventory call. *)
Definition analyze_ec2_instances (UTILIZATION_THRESHOLD : F)
    (describe_instances : result (list reservation))
    (get_metric_statistics : string -> result (list F))
    : list recommendation :=
  try_except
    (reservations ← describe_instances;
     mret (fold_left
             (fun recs r =>
                fold_left
                  (analyze_instance UTILIZATION_THRESHOLD get_metric_statistics)
                  (Instances r) recs)
             reservations []))
    (fun _ => []).

End Analysis.

End CostOptimizer.

(** ** db_backup.py *)

Module DbBackup.

Record tag := {
  Key : string;
  Value : string
}.

(** *** Snapshot identifiers *)

(** A [datetime] value, field by field as Python keeps it. *)
Record datetime := {
  year : Z;
  month : Z;
  day : Z;
  hour : Z;
  minute : Z;
  second : Z;
  microsecond : Z
}.

Definition digit (d : Z) : ascii := ascii_of_nat (48 + Z.to_nat d).

(** [%m], [%d], [%H], [%M], [%S]: two digits, zero padded. *)
Definition two_digits (n : Z) : string :=
  String (digit (n / 10)) (String (digit (n mod 10)) "").

(** [%Y]: the year in four digits (years 1000 to 9999). *)
Definition four_digits (n : Z) : string :=
  String (digit (n / 1000))
    (String (digit (n / 100 mod 10))
       (String (digit (n / 10 mod 10)) (String (digit (n mod 10)) ""))).

(** [dt.strftime('%Y-%m-%d-%H-%M-%S')] *)
Definition strftime_seconds (dt : datetime) : string :=
  four_digits (year dt) ++ "-" ++ two_digits (month dt) ++ "-" ++
  two_digits (day dt) ++ "-" ++ two_digits (hour dt) ++ "-" ++
  two_digits (minute dt) ++ "-" ++ two_digits (second dt).

(** [dt.strftime('%Y-%m-%d')] *)
Definition strftime_date (dt : datetime) : string :=
  four_digits (year dt) ++ "-" ++ two_digits (month dt) ++ "-" ++
  two_digits (day dt).

(** [f"{source_id}-backup-{timestamp}"] *)
Definition snapshot_name (source_id timestamp : string) : string :=
  source_id ++ "-backup-" ++ timestamp.

(** The request [rds.create_db_snapshot] / [rds.create_db_cluster_snapshot]
    receives. *)
Record create_request := {
  SnapshotIdentifier : string;
  SourceIdentifier : string;
  RequestTags : list tag
}.

Record backup_result := {
  source_id : string;
  snapshot_id : string;
  snapshot_arn : string;
  backup_status : string;
  backup_timestamp : string
}.

(** [backup_rds_instance].  [utcnow] is the clock reading the identifier
    is made from; [expiry] is the outcome of
    [datetime.utcnow() + timedelta(days=RETENTION_DAYS)] in the tag list,
    which raises [OverflowError] when the date leaves the calendar; and
    [create_db_snapshot] is the outcome of the request: the ARN of the
    snapshot, or an exception.  Every exception is logged and raised
    again.  The result is the request issued, if one is, and the dictionary
    returned. *)
Definition backup_rds_instance (instance_id : string) (utcnow : datetime)
    (expiry : result datetime) (create_db_snapshot : create_request -> result string)
    : option create_request * result backup_result :=
  let timestamp := strftime_seconds utcnow in
  let snapshot_id := snapshot_name instance_id timestamp in
  match expiry with
  | Raise e => (None, Raise e)
  | Ok retention_date =>
      let request :=
        {| SnapshotIdentifier := snapshot_id;
           SourceIdentifier := instance_id;
           RequestTags :=
             [ {| Key := "BackupType"; Value := "Automated" |};
               {| Key := "BackupDate"; Value := timestamp |};
               {| Key := "SourceInstance"; Value := instance_id |};
               {| Key := "RetentionDate"; Value := strftime_date retention_date |} ] |} in
      (Some request,
       snapshot_arn ← create_db_snapshot request;
       mret {| source_id := instance_id;
               snapshot_id := snapshot_id;
               snapshot_arn := snapshot_arn;
               backup_status := "success";
               backup_timestamp := timestamp |})
  end.

(** [backup_rds_cluster] *)
Definition backup_rds_cluster (cluster_id : string) (utcnow : datetime)
    (expiry : result datetime)
    (create_db_cluster_snapshot : create_request -> result string)
    : option create_request * result backup_result :=
  let timestamp := strftime_seconds utcnow in
  let snapshot_id := snapshot_name cluster_id timestamp in
  match expiry with
  | Raise e => (None, Raise e)
  | Ok retention_date =>
      let request :=
        {| SnapshotIdentifier := snapshot_id;
           SourceIdentifier := cluster_id;
           RequestTags :=
             [ {| Key := "BackupType"; Value := "Automated" |};
               {| Key := "BackupDate"; Value := timestamp |};
               {| Key := "SourceCluster"; Value := cluster_id |};
               {| Key := "RetentionDate"; Value := strftime_date retention_date |} ] |} in
      (Some request,
       snapshot_arn ← create_db_cluster_snapshot request;
       mret {| source_id := cluster_id;
               snapshot_id := snapshot_id;
               snapshot_arn := snapshot_arn;
               backup_status := "success";
               backup_timestamp := timestamp |})
  end.

(** *** Retention *)

(** An element of the answer of [rds.describe_db_snapshots] or
    [rds.describe_db_cluster_snapshots]: the keys the cleanup reads.
    [SnapshotCreateTime] is a point of the UTC time line, counted in
    microseconds, the resolution of [datetime]. *)
Record snapshot := {
  TagList : option (list tag);
  Tags : option (list tag);
  DBSnapshotIdentifier : option string;
  DBClusterSnapshotIdentifier : option string;
  SnapshotCreateTime : Z
}.

(** [timedelta(days=n)] in microseconds. *)
Definition timedelta_days (n : Z) : Z := n * 86400 * 1000000.

Definition timedelta_seconds (n : Z) : Z := n * 1000000.

(** The first and the last instant a [datetime] can hold:
    0001-01-01 00:00:00 and 9999-12-31 23:59:59.999999, counted from
    1970-01-01 00:00:00. *)
Definition datetime_min : Z := -62135596800000000.
Definition datetime_max : Z := 253402300799999999.

(** [now - timedelta(days=n)]: [timedelta] refuses more than 999999999
    days, and the subtraction a date outside the calendar. *)
Definition minus_days (now n : Z) : result Z :=
  if 999999999 <? Z.abs n then Raise "OverflowError: days out of range"
  else
    let d := now - timedelta_days n in
    if (d <? datetime_min) || (datetime_max <? d)
    then Raise "OverflowError: date value out of range"
    else Ok d.

Definition is_automated_tag (t : tag) : bool :=
  String.eqb (Key t) "BackupType" && String.eqb (Value t) "Automated".

(** [is_automated_backup_snapshot], as the truth value of what it
    returns. *)
Definition is_automated_backup_snapshot (s : snapshot) : bool :=
  let tags :=
    match TagList s with
    | Some l => Some l
    | None => Tags s
    end in
  if existsb is_automated_tag (default [] tags) then true
  else
    let snapshot_id :=
      or_opt_str (DBSnapshotIdentifier s) (DBClusterSnapshotIdentifier s) in
    truthy_opt_str snapshot_id && contains "-backup-" (default "" snapshot_id).

(** The condition both cleanup loops test. *)
Definition selected_for_deletion (cutoff_date : Z) (s : snapshot) : bool :=
  is_automated_backup_snapshot s && (SnapshotCreateTime s <? cutoff_date).

Inductive snapshot_kind := instance_snapshot | cluster_snapshot.

(** The key a loop reads the identifier from. *)
Definition identifier (kind : snapshot_kind) (s : snapshot) : result string :=
  match kind with
  | instance_snapshot =>
      match DBSnapshotIdentifier s with
      | Some i => Ok i
      | None => Raise "'DBSnapshotIdentifier'"
      end
  | cluster_snapshot =>
      match DBClusterSnapshotIdentifier s with
      | Some i => Ok i
      | None => Raise "'DBClusterSnapshotIdentifier'"
      end
  end.

(** A delete request, [rds.delete_db_snapshot] or
    [rds.delete_db_cluster_snapshot] by its kind. *)
Record delete_request := {
  delete_kind : snapshot_kind;
  delete_id : string
}.

Record cleanup_result := {
  type : snapshot_kind;
  cleaned_id : string;
  status : string;
  create_time : option Z;
  error : option string
}.

(** What one loop has done so far: the requests issued, and the results
    appended to [cleanup_results] unless an exception left the loop. *)
Definition progress : Type := list delete_request * result (list cleanup_result).

(** One of the two [for snapshot in response[...]] loops;
    [delete] is the outcome of a delete request. *)
Fixpoint cleanup_loop (kind : snapshot_kind) (cutoff_date : Z)
    (delete : delete_request -> result unit) (snapshots : list snapshot)
    (requests : list delete_request) (cleanup_results : list cleanup_result)
    : progress :=
  match snapshots with
  | [] => (requests, Ok cleanup_results)
  | s :: rest =>
      if selected_for_deletion cutoff_date s then
        match identifier kind s with
        | Raise e => (requests, Raise e)
        | Ok i =>
            let request := {| delete_kind := kind; delete_id := i |} in
            let outcome :=
              match delete request with
              | Ok _ =>
                  {| type := kind; cleaned_id := i; status := "deleted";
                     create_time := Some (SnapshotCreateTime s); error := None |}
              | Raise e =>
                  {| type := kind; cleaned_id := i; status := "failed";
                     create_time := None; error := Some e |}
              end in
            cleanup_loop kind cutoff_date delete rest
              (requests ++ [request])%list (cleanup_results ++ [outcome])%list
        end
      else cleanup_loop kind cutoff_date delete rest requests cleanup_results
  end.

(** What the cleanup reads from outside. *)
Record rds := {
  utcnow : Z;
  RETENTION_DAYS : Z;
  describe_db_snapshots : result (list snapshot);
  describe_db_cluster_snapshots : result (list snapshot);
  delete_snapshot : delete_request -> result unit
}.

(** [cleanup_old_snapshots]: the delete requests issued, and the list
    returned or the exception raised. *)
Definition cleanup_old_snapshots (r : rds) : progress :=
  match minus_days (utcnow r) (RETENTION_DAYS r) with
  | Raise e => ([], Raise e)
  | Ok cutoff_date =>
      match describe_db_snapshots r with
      | Raise e => ([], Raise e)
      | Ok instance_snapshots =>
          match cleanup_loop instance_snapshot cutoff_date (delete_snapshot r)
                  instance_snapshots [] [] with
          | (requests, Raise e) => (requests, Raise e)
          | (requests, Ok cleanup_results) =>
              match describe_db_cluster_snapshots r with
              | Raise e => (requests, Raise e)
              | Ok cluster_snapshots =>
                  cleanup_loop cluster_snapshot cutoff_date (delete_snapshot r)
                    cluster_snapshots requests cleanup_results
              end
          end
      end
  end.

End DbBackup.

(** ** slack_notifier.py *)

Module SlackNotifier.

(** A value that is a text or [None], and its rendering in an f-string. *)
Inductive nullable :=
| null
| str (s : string).

Definition format (v : nullable) : string :=
  match v with
  | null => "None"
  | str s => s
  end.

(** The ['Sns'] object of a record: the keys the relay reads.  The
    notification service writes a text under each of them, but for a
    message published without subject, whose ['Subject'] is [None]. *)
Record sns_message := {
  Subject : option nullable;
  Message : option string;
  TopicArn : option string;
  Timestamp : option string
}.

Record record := {
  Sns : option sns_message
}.

(** The event: its ['Records'], when the key is there. *)
Record event := {
  Records : option (list record)
}.

Record field := {
  field_title : string;
  field_value : string;
  short : bool
}.

(** The single attachment of the chat payload. *)
Record slack_message := {
  color : string;
  title : string;
  text : string;
  fields : list field;
  footer : string;
  footer_icon : string
}.

(** The text a response carries in [body]. *)
Inductive body_text :=
| Text (s : string)
| FailedStatus (status : Z)   (* f'Failed to send Slack notification: {status}' *)
| Exception (e : string).     (* f'Error processing notification: {e}' *)

Record response := {
  statusCode : Z;
  body : body_text
}.

(** [s.split(':')[-1]]: what follows the last colon. *)
Fixpoint last_segment_from (s current : string) : string :=
  match s with
  | EmptyString => current
  | String c rest =>
      if Ascii.eqb c ":"%char then last_segment_from rest ""
      else last_segment_from rest (current ++ String c "")
  end.

Definition last_segment (s : string) : string := last_segment_from s "".

(** The type and the colour chosen from the topic ARN. *)
Definition classify (topic_arn : string) : string * string :=
  if contains "app-notifications" topic_arn
  then ("Application", "#36a64f")
  else ("Infrastructure", "#ff9900").

(** The payload built for one SNS message. *)
Definition build_slack_message (m : sns_message) : slack_message :=
  let subject := default (str "EPiC Infrastructure Notification") (Subject m) in
  let message := default "" (Message m) in
  let topic_arn := default "" (TopicArn m) in
  let timestamp := default "" (Timestamp m) in
  let '(notification_type, color) := classify topic_arn in
  {| color := color;
     title := "🚨 " ++ notification_type ++ " Alert: " ++ format subject;
     text := message;
     fields :=
       [ {| field_title := "Topic"; field_value := last_segment topic_arn;
            short := true |};
         {| field_title := "Timestamp"; field_value := timestamp; short := true |};
         {| field_title := "Type"; field_value := notification_type;
            short := true |} ];
     footer := "EPiC Infrastructure Monitoring";
     footer_icon :=
       "https://platform.slack-edge.com/img/default_application_icon.png" |}.

(** The loop over the records: the payloads posted so far, and the
    response once the handler returns.  [post] is the outcome of the HTTP
    request: the status of the answer, or an exception. *)
Fixpoint relay (post : slack_message -> result Z) (records : list record)
    (posted : list slack_message) : list slack_message * response :=
  match records with
  | [] =>
      (posted,
       {| statusCode := 200; body := Text "Notifications sent successfully" |})
  | r :: rest =>
      match Sns r with
      | None =>
          (posted, {| statusCode := 500; body := Exception "'Sns'" |})
      | Some sns_message =>
          let slack_message := build_slack_message sns_message in
          let posted' := (posted ++ [slack_message])%list in
          match post slack_message with
          | Raise e =>
              (posted', {| statusCode := 500; body := Exception e |})
          | Ok status =>
              if negb (status =? 200) then
                (posted', {| statusCode := 500; body := FailedStatus status |})
              else relay post rest posted'
          end
      end
  end.

(** [handler]; [SLACK_WEBHOOK_URL] is the environment variable. *)
Definition handler (SLACK_WEBHOOK_URL : option string) (e : event)
    (post : slack_message -> result Z) : list slack_message * response :=
  if negb (truthy_opt_str SLACK_WEBHOOK_URL) then
    ([], {| statusCode := 500; body := Text "Webhook URL not configured" |})
  else
    match Records e with
    | None =>
        ([], {| statusCode := 500; body := Exception "'Records'" |})
    | Some records => relay post records []
    end.

End SlackNotifier.

(** ** db_backup.py: the run *)

Module DbBackupHandler.
Import DbBackup.

(** An element of the answer of [rds.describe_db_instances]: the keys the
    run reads.  [ReadReplicaSourceDBInstanceIdentifier] is there for a read
    replica only. *)
Record db_instance := {
  DBInstanceIdentifier : string;
  DBInstanceStatus : string;
  ReadReplicaSourceDBInstanceIdentifier : option string
}.

(** An element of the answer of [rds.describe_db_clusters]. *)
Record db_cluster := {
  DBClusterIdentifier : string;
  Status : string
}.

Definition is_none {A} (o : option A) : bool :=
  match o with
  | None => true
  | Some _ => false
  end.

(** [get_rds_instances]; an exception of the call is logged and raised
    again. *)
Definition get_rds_instances (describe_db_instances : result (list db_instance))
    : result (list db_instance) :=
  response ← describe_db_instances;
  mret (fold_left
          (fun instances instance =>
             if String.eqb (DBInstanceStatus instance) "available" &&
                is_none (ReadReplicaSourceDBInstanceIdentifier instance)
             then (instances ++ [instance])%list
             else instances)
          response []).

(** [get_rds_clusters] *)
Definition get_rds_clusters (describe_db_clusters : result (list db_cluster))
    : result (list db_cluster) :=
  response ← describe_db_clusters;
  mret (fold_left
          (fun clusters cluster =>
             if String.eqb (Status cluster) "available"
             then (clusters ++ [cluster])%list
             else clusters)
          response []).

(** What a backup reads from the clock: [datetime.utcnow()] for the
    identifier, and the outcome of
    [datetime.utcnow() + timedelta(days=RETENTION_DAYS)] for the expiry
    tag. *)
Record reading := {
  now : datetime;
  expiry : result datetime
}.

(** What one run reads from outside.  [clock k] is what the backup of the
    [k]-th resource of the run reads, instances first. *)
Record env := {
  SNS_TOPIC_ARN : string;
  describe_db_instances : result (list db_instance);
  describe_db_clusters : result (list db_cluster);
  clock : nat -> reading;
  create_db_snapshot : create_request -> result string;
  create_db_cluster_snapshot : create_request -> result string;
  retention : rds
}.

(** The dictionary [backup_results]. *)
Record backup_results := {
  db_instances : list backup_result;
  db_clusters : list backup_result;
  cleanup_results : list cleanup_result;
  errors : list string
}.

(** What a notification says.  Subject and message are renderings of the
    values kept here: whether the subject ends with "Success" or with the
    number of errors, and the results; or the error text. *)
Inductive notice :=
| Report (success : bool) (results : backup_results)
| Failure (error_message : string).

(** The requests a run issues. *)
Inductive call :=
| create_snapshot (kind : snapshot_kind) (request : create_request)
| delete (request : delete_request)
| publish (TopicArn : string) (said : notice).

(** The JSON object a response carries in [body]. *)
Inductive body :=
| ResultsBody (results : backup_results)
| ErrorBody (error : string).

Record response := {
  statusCode : Z;
  response_body : body
}.

(** What the two backup loops have done so far: the calls issued, the
    results and the errors appended, and the number of resources seen. *)
Record backups := {
  calls : list call;
  done : list backup_result;
  failed : list string;
  seen : nat
}.

(** One turn of [for instance in db_instances]. *)
Definition backup_instance (e : env) (st : backups) (instance : db_instance)
    : backups :=
  let instance_id := DBInstanceIdentifier instance in
  let '(request, outcome) :=
    backup_rds_instance instance_id (now (clock e (seen st)))
      (expiry (clock e (seen st))) (create_db_snapshot e) in
  let calls' :=
    match request with
    | Some r => (calls st ++ [create_snapshot instance_snapshot r])%list
    | None => calls st
    end in
  match outcome with
  | Ok result =>
      {| calls := calls'; done := (done st ++ [result])%list;
         failed := failed st; seen := S (seen st) |}
  | Raise x =>
      let error_msg := "Failed to backup instance " ++ instance_id ++ ": " ++ x in
      {| calls := calls'; done := done st;
         failed := (failed st ++ [error_msg])%list; seen := S (seen st) |}
  end.

(** One turn of [for cluster in db_clusters]. *)
Definition backup_cluster (e : env) (st : backups) (cluster : db_cluster)
    : backups :=
  let cluster_id := DBClusterIdentifier cluster in
  let '(request, outcome) :=
    backup_rds_cluster cluster_id (now (clock e (seen st)))
      (expiry (clock e (seen st))) (create_db_cluster_snapshot e) in
  let calls' :=
    match request with
    | Some r => (calls st ++ [create_snapshot cluster_snapshot r])%list
    | None => calls st
    end in
  match outcome with
  | Ok result =>
      {| calls := calls'; done := (done st ++ [result])%list;
         failed := failed st; seen := S (seen st) |}
  | Raise x =>
      let error_msg := "Failed to backup cluster " ++ cluster_id ++ ": " ++ x in
      {| calls := calls'; done := done st;
         failed := (failed st ++ [error_msg])%list; seen := S (seen st) |}
  end.

(** [send_notification]: the notice published.  An exception of
    [sns.publish] is caught and logged. *)
Definition send_notification (e : env) (results : backup_results) : call :=
  let total_errors := List.length (errors results) in
  publish (SNS_TOPIC_ARN e)
    (Report (negb (0 <? Z.of_nat total_errors)) results).

Definition send_error_notification (e : env) (error_message : string) : call :=
  publish (SNS_TOPIC_ARN e) (Failure error_message).

(** The [except] of the handler. *)
Definition fatal (e : env) (issued : list call) (x : string)
    : list call * response :=
  let error_msg := "Database backup process failed: " ++ x in
  ((issued ++ [send_error_notification e error_msg])%list,
   {| statusCode := 500; response_body := ErrorBody error_msg |}).

(** [handler]: the calls issued, in order, and the response. *)
Definition handler (e : env) : list call * response :=
  match get_rds_instances (describe_db_instances e) with
  | Raise x => fatal e [] x
  | Ok instances =>
      let after_instances :=
        fold_left (backup_instance e) instances
          {| calls := []; done := []; failed := []; seen := O |} in
      match get_rds_clusters (describe_db_clusters e) with
      | Raise x => fatal e (calls after_instances) x
      | Ok clusters =>
          let after_clusters :=
            fold_left (backup_cluster e) clusters
              {| calls := calls after_instances; done := [];
                 failed := failed after_instances;
                 seen := seen after_instances |} in
          let '(deletes, cleaned) := cleanup_old_snapshots (retention e) in
          let results :=
            match cleaned with
            | Ok cleanup_results =>
                {| db_instances := done after_instances;
                   db_clusters := done after_clusters;
                   cleanup_results := cleanup_results;
                   errors := failed after_clusters |}
            | Raise x =>
                let error_msg := "Failed to cleanup old snapshots: " ++ x in
                {| db_instances := done after_instances;
                   db_clusters := done after_clusters;
                   cleanup_results := [];
                   errors := (failed after_clusters ++ [error_msg])%list |}
            end in
          ((calls after_clusters ++ List.map delete deletes ++
            [send_notification e results])%list,
           {| statusCode := 200; response_body := ResultsBody results |})
      end
  end.

End DbBackupHandler.

(** ** cost_optimizer.py: the other analyses and the run *)

(** Subtraction of floats, which the storage estimate uses. *)
Class NumSub (F : Type) := {
  sub : F -> F -> F
}.

#[export] Instance Q_NumSub : NumSub Q := {| sub := Qminus |}.
#[export] Instance float_NumSub : NumSub float := {| sub := PrimFloat.sub |}.

Module CostReport.

(** *** Databases *)

(** [downsize_map] of [suggest_smaller_rds_class] *)
Definition rds_downsize_map : gmap string string :=
  dict [ ("db.t3.large", "db.t3.medium");
         ("db.t3.medium", "db.t3.small");
         ("db.m5.large", "db.m5.medium");
         ("db.m5.xlarge", "db.m5.large");
         ("db.r5.large", "db.r5.medium");
         ("db.r5.xlarge", "db.r5.large") ].

Definition suggest_smaller_rds_class (current_class : string) : option string :=
  rds_downsize_map !! current_class.

(** [cost_map] of [estimate_rds_cost_savings] *)
Definition rds_cost_map : gmap string Z :=
  dict [ ("db.t3.micro", 15); ("db.t3.small", 30); ("db.t3.medium", 61);
         ("db.t3.large", 122);
         ("db.m5.medium", 70); ("db.m5.large", 140); ("db.m5.xlarge", 280);
         ("db.r5.medium", 85); ("db.r5.large", 170); ("db.r5.xlarge", 340) ].

Definition estimate_rds_cost_savings (current_class suggested_class : string) : Z :=
  let current_cost := default 0 (rds_cost_map !! current_class) in
  let suggested_cost := default 0 (rds_cost_map !! suggested_class) in
  CostOptimizer.max0 (current_cost - suggested_cost).

(** An element of [DBInstances] in the answer of
    [rds.describe_db_instances]: the keys the analysis reads. *)
Record db_instance := {
  DBInstanceStatus : string;
  DBInstanceIdentifier : string;
  DBInstanceClass : string;
  AllocatedStorage : option Z
}.

(** *** Storage *)

(** An element of [Rules] in a lifecycle configuration. *)
Record lifecycle_rule := {
  ID : option string
}.

(** The outcome of [s3.get_bucket_lifecycle_configuration]. *)
Inductive lifecycle_outcome :=
| LifecycleConfiguration (Rules : option (list lifecycle_rule))
| NoSuchLifecycleConfiguration
| LifecycleRaises (msg : string).

(** [get_bucket_lifecycle_policy] *)
Definition get_bucket_lifecycle_policy (outcome : lifecycle_outcome)
    : option (list lifecycle_rule) :=
  match outcome with
  | LifecycleConfiguration rules => Some (default [] rules)
  | NoSuchLifecycleConfiguration => None
  | LifecycleRaises _ => None
  end.

(** Truth value of what [get_bucket_lifecycle_policy] returns: [None] and
    the empty list are false. *)
Definition truthy_policy (policy : option (list lifecycle_rule)) : bool :=
  match policy with
  | Some (_ :: _) => true
  | _ => false
  end.

(** An element of [Contents] in the answer of [s3.list_objects_v2];
    [LastModified] is the time it shows once its zone is removed, in
    microseconds. *)
Record s3_object := {
  Size : Z;
  LastModified : Z
}.

(** *** Reserved instances *)

(** [RecommendationDetails] of an element of [Recommendations].  The two
    amounts are what [float(...)] makes of the text under the key: a
    number, or [ValueError]. *)
Record ri_details (F : Type) := {
  InstanceType : option string;
  RecommendedNumberOfInstancesToPurchase : option string;
  EstimatedMonthlySavingsAmount : option (result F);
  UpfrontCost : option (result F)
}.
Arguments InstanceType {F} _.
Arguments RecommendedNumberOfInstancesToPurchase {F} _.
Arguments EstimatedMonthlySavingsAmount {F} _.
Arguments UpfrontCost {F} _.

Record ri_item (F : Type) := {
  RecommendationDetails : option (ri_details F)
}.
Arguments RecommendationDetails {F} _.

(** *** Costs *)

(** An element of [Groups]: [Keys[0]], and what [float(...)] makes of
    [Metrics.BlendedCost.Amount]. *)
Record cost_group (F : Type) := {
  service : string;
  Amount : result F
}.
Arguments service {F} _.
Arguments Amount {F} _.

(** An element of [ResultsByTime]. *)
Record period (F : Type) := {
  Groups : list (cost_group F)
}.
Arguments Groups {F} _.

Section Analyses.
Context {F : Type} `{Num F} `{NumSub F}.

(** [sum(xs) / len(xs)] on floats; [sum] starts from the integer 0. *)
Definition average (xs : list F) : F :=
  div (fold_left add xs (of_Z 0)) (of_Z (Z.of_nat (List.length xs))).

(** [get_rds_cpu_utilization]; [response] is the outcome of
    [cloudwatch.get_metric_statistics]: the ['Average'] of each
    datapoint. *)
Definition get_rds_cpu_utilization (response : result (list F)) : F :=
  try_except
    (datapoints ← response;
     match datapoints with
     | _ :: _ => mret (average datapoints)
     | [] => mret (of_Z 0)
     end)
    (fun _ => of_Z 0).

(** [get_rds_connection_utilization] *)
Definition get_rds_connection_utilization (response : result (list F))
    (max_connections : Z) : F :=
  try_except
    (datapoints ← response;
     if ComplianceChecker.truthy_list datapoints && (0 <? max_connections) then
       let avg_connections := average datapoints in
       mret (mul (div avg_connections (of_Z max_connections)) (of_Z 100))
     else mret (of_Z 0))
    (fun _ => of_Z 0).

(** A database recommendation; the entry ['reason'] is a rendering of the
    two utilisations. *)
Record rds_recommendation := {
  rds_instance_id : string;
  current_class : string;
  suggested_class : string;
  rds_cpu_utilization : F;
  connection_utilization : F;
  rds_monthly_savings : Z;
  rds_recommendation_text : string
}.

(** One turn of the loop of [analyze_rds_instances]. *)
Definition analyze_db_instance (UTILIZATION_THRESHOLD : F)
    (cpu_statistics connection_statistics : string -> result (list F))
    (recommendations : list rds_recommendation) (db_instance : db_instance)
    : list rds_recommendation :=
  if negb (String.eqb (DBInstanceStatus db_instance) "available") then recommendations
  else
    let instance_id := DBInstanceIdentifier db_instance in
    let instance_class := DBInstanceClass db_instance in
    let cpu_utilization := get_rds_cpu_utilization (cpu_statistics instance_id) in
    let connection_utilization :=
      get_rds_connection_utilization (connection_statistics instance_id)
        (default 0 (AllocatedStorage db_instance)) in
    if ltb cpu_utilization UTILIZATION_THRESHOLD &&
       ltb connection_utilization (of_Z 50) then
      let suggested_class := suggest_smaller_rds_class instance_class in
      if truthy_opt_str suggested_class then
        let suggested := default "" suggested_class in
        let monthly_savings := estimate_rds_cost_savings instance_class suggested in
        (recommendations ++
         [ {| rds_instance_id := instance_id;
              current_class := instance_class;
              suggested_class := suggested;
              rds_cpu_utilization := cpu_utilization;
              connection_utilization := connection_utilization;
              rds_monthly_savings := monthly_savings;
              rds_recommendation_text :=
                "Downsize from " ++ instance_class ++ " to " ++ suggested |} ])%list
      else recommendations
    else recommendations.

(** [analyze_rds_instances] *)
Definition analyze_rds_instances (UTILIZATION_THRESHOLD : F)
    (describe_db_instances : result (list db_instance))
    (cpu_statistics connection_statistics : string -> result (list F))
    : list rds_recommendation :=
  try_except
    (db_instances ← describe_db_instances;
     mret (fold_left
             (analyze_db_instance UTILIZATION_THRESHOLD cpu_statistics
                connection_statistics)
             db_instances []))
    (fun _ => []).

(** The dictionary [analyze_bucket_storage] returns. *)
Record storage_analysis := {
  total_size_gb : F;
  old_objects_count : Z
}.

(** [analyze_bucket_storage]; [now] is [datetime.now()] and [response] the
    outcome of [s3.list_objects_v2(Bucket=bucket_name, MaxKeys=1000)]: its
    ['Contents'], when the key is there. *)
Definition analyze_bucket_storage (now : Z)
    (response : result (option (list s3_object))) : storage_analysis :=
  try_except
    (contents ← response;
     let cutoff_date := now - DbBackup.timedelta_days 30 in
     let '(total_size, old_objects_count) :=
       fold_left
         (fun '(total_size, old_objects_count) obj =>
            (total_size + Size obj,
             if LastModified obj <? cutoff_date
             then old_objects_count + 1 else old_objects_count))
         (default [] contents) (0, 0) in
     mret {| total_size_gb := int_div total_size (1024 ^ 3);
             old_objects_count := old_objects_count |})
    (fun _ => {| total_size_gb := of_Z 0; old_objects_count := 0 |}).

(** [estimate_s3_lifecycle_savings] *)
Definition estimate_s3_lifecycle_savings (storage_analysis : storage_analysis) : F :=
  let standard_cost_per_gb := lit 23 1000 in
  let ia_cost_per_gb := lit 125 10000 in
  let glacier_cost_per_gb := lit 4 1000 in
  let old_data_gb := mul (total_size_gb storage_analysis) (lit 7 10) in
  let ia_savings :=
    mul (mul old_data_gb (lit 4 10)) (sub standard_cost_per_gb ia_cost_per_gb) in
  let glacier_savings :=
    mul (mul old_data_gb (lit 3 10)) (sub standard_cost_per_gb glacier_cost_per_gb) in
  add ia_savings glacier_savings.

(** What the storage analysis reads from outside, bucket by bucket. *)
Record s3 := {
  list_buckets : result (list string);
  get_bucket_lifecycle_configuration : string -> lifecycle_outcome;
  clock : string -> Z;
  list_objects_v2 : string -> result (option (list s3_object))
}.

Record s3_recommendation := {
  bucket_name : string;
  current_storage_gb : F;
  s3_old_objects_count : Z;
  s3_monthly_savings : F;
  s3_recommendation_text : string
}.

(** One turn of the loop of [analyze_s3_storage]. *)
Definition analyze_bucket (PROJECT_NAME : string) (c : s3)
    (recommendations : list s3_recommendation) (bucket_name : string)
    : list s3_recommendation :=
  if negb (contains PROJECT_NAME bucket_name) then recommendations
  else
    let lifecycle_policy :=
      get_bucket_lifecycle_policy (get_bucket_lifecycle_configuration c bucket_name) in
    let storage_analysis :=
      analyze_bucket_storage (clock c bucket_name) (list_objects_v2 c bucket_name) in
    if negb (truthy_policy lifecycle_policy) &&
       ltb (of_Z 1) (total_size_gb storage_analysis) then
      let monthly_savings := estimate_s3_lifecycle_savings storage_analysis in
      (recommendations ++
       [ {| bucket_name := bucket_name;
            current_storage_gb := total_size_gb storage_analysis;
            s3_old_objects_count := old_objects_count storage_analysis;
            s3_monthly_savings := monthly_savings;
            s3_recommendation_text := "Implement lifecycle policy" |} ])%list
    else recommendations.

(** [analyze_s3_storage] *)
Definition analyze_s3_storage (PROJECT_NAME : string) (c : s3)
    : list s3_recommendation :=
  try_except
    (buckets ← list_buckets c;
     mret (fold_left (analyze_bucket PROJECT_NAME c) buckets []))
    (fun _ => []).

Record ri_recommendation := {
  ri_instance_type : option string;
  recommended_instances : option string;
  ri_monthly_savings : F;
  upfront_cost : F;
  ri_recommendation_text : string
}.

(** [float(details.get(key, 0))] *)
Definition float_or_0 (amount : option (result F)) : result F :=
  match amount with
  | Some parsed => parsed
  | None => Ok (of_Z 0)
  end.

(** One turn of the loop of [get_reserved_instance_recommendations]. *)
Definition read_ri_item (recommendations : list ri_recommendation)
    (recommendation : ri_item F) : result (list ri_recommendation) :=
  let details :=
    default {| InstanceType := None;
               RecommendedNumberOfInstancesToPurchase := None;
               EstimatedMonthlySavingsAmount := None;
               UpfrontCost := None |}
      (RecommendationDetails recommendation) in
  monthly_savings ← float_or_0 (EstimatedMonthlySavingsAmount details);
  upfront_cost ← float_or_0 (UpfrontCost details);
  mret (recommendations ++
        [ {| ri_instance_type := InstanceType details;
             recommended_instances := RecommendedNumberOfInstancesToPurchase details;
             ri_monthly_savings := monthly_savings;
             upfront_cost := upfront_cost;
             ri_recommendation_text := "Purchase Reserved Instances" |} ])%list.

(** [get_reserved_instance_recommendations]; [response] is the outcome of
    [ce.get_reservation_purchase_recommendation]: its ['Recommendations'],
    when the key is there. *)
Definition get_reserved_instance_recommendations
    (response : result (option (list (ri_item F)))) : list ri_recommendation :=
  try_except
    (recommendations ← response;
     for_each read_ri_item (default [] recommendations) [])
    (fun _ => []).

(** The dictionary [get_cost_summary] returns. *)
Record cost_summary := {
  current_month_total : F;
  by_service : gmap string F
}.

Definition no_costs : cost_summary :=
  {| current_month_total := of_Z 0; by_service := ∅ |}.

(** One turn of the loop of [get_cost_summary]. *)
Definition add_group (summary : cost_summary) (group : cost_group F)
    : result cost_summary :=
  amount ← Amount group;
  mret {| current_month_total := add (current_month_total summary) amount;
          by_service := <[ service group := amount ]> (by_service summary) |}.

(** [get_cost_summary]; [response] is the outcome of
    [ce.get_cost_and_usage]: its ['ResultsByTime']. *)
Definition get_cost_summary (response : result (list (period F))) : cost_summary :=
  try_except
    (results_by_time ← response;
     match results_by_time with
     | first :: _ => for_each add_group (Groups first) no_costs
     | [] => mret no_costs
     end)
    (fun _ => no_costs).

(** *** The handler *)

(** The dictionary [recommendations] of the handler. *)
Record report := {
  timestamp : string;
  project : string;
  environment : string;
  ec2_recommendations : list (CostOptimizer.recommendation (F:=F));
  rds_recommendations : list rds_recommendation;
  s3_recommendations : list s3_recommendation;
  reserved_instance_recommendations : list ri_recommendation;
  report_cost_summary : cost_summary;
  total_potential_savings : F
}.

(** What one run reads from outside: the module-level environment
    variables, the clock, the outcome of every call, and the exception
    [json.dumps] raises on the report, if it raises. *)
Record env := {
  SNS_TOPIC_ARN : option string;
  PROJECT_NAME : string;
  ENVIRONMENT : string;
  COST_THRESHOLD : F;
  UTILIZATION_THRESHOLD : F;
  now_isoformat : string;
  get_cost_and_usage : result (list (period F));
  describe_instances : result (list CostOptimizer.reservation);
  ec2_cpu_statistics : string -> result (list F);
  describe_db_instances : result (list db_instance);
  rds_cpu_statistics : string -> result (list F);
  rds_connection_statistics : string -> result (list F);
  storage : s3;
  get_reservation_purchase_recommendation : result (option (list (ri_item F)));
  json_dumps_raises : option string
}.

Inductive notice :=
| SavingsNotice (recommendations : report)
| ErrorNotice (error_message : string).

Record publish := {
  TopicArn : string;
  Notice : notice
}.

Inductive body :=
| ReportBody (recommendations : report)
| ErrorBody (error : string).

Record response := {
  statusCode : Z;
  response_body : body
}.

(** [sum(rec.get('monthly_savings', 0) for rec in recs)] on a list of
    integer savings, and on a list of float savings. *)
Definition sum_Z (l : list Z) : Z := fold_left Z.add l 0.

Definition sum_F (l : list F) : F := fold_left add l (of_Z 0).

(** [sum([a, b, c, d])] of the four sums.  The first two are sums of
    integers, added as integers; the integer is converted when the first
    float is added to it. *)
Definition total_savings_of (ec2 rds : Z) (s3 ri : F) : F :=
  add (add (of_Z (0 + ec2 + rds)) s3) ri.

(** [send_recommendations_notification]: the requests it issues.  An
    exception of [sns.publish] is caught and logged inside. *)
Definition send_recommendations_notification (e : env) (recommendations : report)
    : list publish :=
  if negb (truthy_opt_str (SNS_TOPIC_ARN e)) then []
  else [ {| TopicArn := default "" (SNS_TOPIC_ARN e);
            Notice := SavingsNotice recommendations |} ].

Definition send_error_notification (e : env) (error_message : string)
    : list publish :=
  if negb (truthy_opt_str (SNS_TOPIC_ARN e)) then []
  else [ {| TopicArn := default "" (SNS_TOPIC_ARN e);
            Notice := ErrorNotice error_message |} ].

(** The report as it stands when the threshold is tested. *)
Definition build_report (e : env) : report :=
  let cost_summary := get_cost_summary (get_cost_and_usage e) in
  let ec2_recommendations :=
    CostOptimizer.analyze_ec2_instances (UTILIZATION_THRESHOLD e)
      (describe_instances e) (ec2_cpu_statistics e) in
  let rds_recommendations :=
    analyze_rds_instances (UTILIZATION_THRESHOLD e) (describe_db_instances e)
      (rds_cpu_statistics e) (rds_connection_statistics e) in
  let s3_recommendations := analyze_s3_storage (PROJECT_NAME e) (storage e) in
  let ri_recommendations :=
    get_reserved_instance_recommendations
      (get_reservation_purchase_recommendation e) in
  let total_savings :=
    total_savings_of
      (sum_Z (List.map CostOptimizer.monthly_savings ec2_recommendations))
      (sum_Z (List.map rds_monthly_savings rds_recommendations))
      (sum_F (List.map s3_monthly_savings s3_recommendations))
      (sum_F (List.map ri_monthly_savings ri_recommendations)) in
  {| timestamp := now_isoformat e;
     project := PROJECT_NAME e;
     environment := ENVIRONMENT e;
     ec2_recommendations := ec2_recommendations;
     rds_recommendations := rds_recommendations;
     s3_recommendations := s3_recommendations;
     reserved_instance_recommendations := ri_recommendations;
     report_cost_summary := cost_summary;
     total_potential_savings := total_savings |}.

(** [handler]: the response, and the publish requests issued in order.
    Every step of the [try] before [json.dumps] absorbs its own
    exceptions; when [json.dumps] raises, the notification step has
    already run. *)
Definition handler (e : env) : response * list publish :=
  let recommendations := build_report e in
  let total_savings := total_potential_savings recommendations in
  let sent :=
    if ltb (COST_THRESHOLD e) total_savings
    then send_recommendations_notification e recommendations
    else [] in
  match json_dumps_raises e with
  | None =>
      ({| statusCode := 200; response_body := ReportBody recommendations |}, sent)
  | Some exn =>
      let error_msg := "Cost optimization analysis failed: " ++ exn in
      let sent' :=
        if truthy_opt_str (SNS_TOPIC_ARN e)
        then (sent ++ send_error_notification e error_msg)%list
        else sent in
      ({| statusCode := 500; response_body := ErrorBody error_msg |}, sent')
  end.

End Analyses.

End CostReport.

(** * Vocabulary of the specification

    What the specification speaks of, said over the definitions above. *)

Module Spec.

(** [hay] is some text, then [needle], then some text. *)
Definition has_substring (needle hay : string) : Prop :=
  exists pre post, hay = pre ++ needle ++ post.

(** *** Compliance scorer *)

(** A scored category: how many resources were evaluated, and how many of
    them were found compliant (or encrypted, or private). *)
Record category := {
  total : Z;
  compliant : Z
}.

(** The integer entries of the rule-compliance dictionary for a category
    of rules. *)
Definition rule_counts_of (c : category) : gmap string Z :=
  {[ "total_rules" := total c;
     "compliant_rules" := compliant c;
     "non_compliant_rules" := total c - compliant c ]}.

Definition counts_of (total_key compliant_key : string) (c : category)
    : gmap string Z :=
  {[ total_key := total c; compliant_key := compliant c ]}.

(** The integer entries of the five custom-check results, each under the
    keys its check function writes. *)
Definition custom_counts_of (tagging security_groups s3 encryption public_access : category)
    : gmap string (gmap string Z) :=
  {[ "tagging_compliance" :=
       counts_of "total_resources" "compliant_resources" tagging;
     "security_groups" :=
       counts_of "total_security_groups" "compliant_security_groups" security_groups;
     "s3_bucket_policies" := counts_of "total_buckets" "compliant_buckets" s3;
     "encryption_status" := counts_of "total_resources" "encrypted_resources" encryption;
     "public_access" := counts_of "total_resources" "private_resources" public_access ]}.

(** The six categories with their weights: 0.40, 0.15, 0.15, 0.15, 0.10,
    0.05. *)
Definition weighted_categories
    (rules tagging security_groups s3 encryption public_access : category)
    : list (category * Q) :=
  [ (rules, 4 # 10); (tagging, 15 # 100); (security_groups, 15 # 100);
    (s3, 15 # 100); (encryption, 10 # 100); (public_access, 5 # 100) ].

(** The percentage of compliant resources of a category. *)
Definition category_score (c : category) : Q :=
  (inject_Z (compliant c) / inject_Z (total c)) * 100.

(** What a category adds to the numerator, and to the denominator: nothing
    when no resource was evaluated. *)
Definition score_part (cw : category * Q) : Q :=
  if total (fst cw) =? 0 then 0 else category_score (fst cw) * snd cw.

Definition weight_part (cw : category * Q) : Q :=
  if total (fst cw) =? 0 then 0 else snd cw.

Definition Qsum (l : list Q) : Q := fold_right Qplus 0%Q l.

(** The sum of score times weight over the sum of the weights applied;
    0.0 when no weight is applied. *)
Definition weighted_average (cats : list (category * Q)) : Q :=
  let numerator := Qsum (List.map score_part cats) in
  let denominator := Qsum (List.map weight_part cats) in
  if Qeq_bool denominator 0 then 0%Q else (numerator / denominator)%Q.

(** The count of a category is a count: some of the resources evaluated. *)
Definition well_counted (c : category) : Prop :=
  0 <= compliant c <= total c.

(** A run published a compliance notification. *)
Definition published_compliance {F}
    (sent : list (@ComplianceChecker.publish F)) : Prop :=
  exists p, In p sent /\ ComplianceChecker.is_compliance_notice p = true.

(** What a check function returns for the outcome of its scan when only
    its own failure is absorbed: the report of the scan, or the all-zero
    report under the keys of the check. *)
Definition absorbed (total_key compliant_key : string)
    (scan : result ComplianceChecker.check_report) : ComplianceChecker.check_report :=
  match scan with
  | Ok report => report
  | Raise _ => ComplianceChecker.zeros total_key compliant_key
  end.

(** The custom checks of a run when each check absorbs the failure of its
    own scan and nothing else. *)
Definition absorbed_checks (PROJECT_NAME : string) (c : ComplianceChecker.cloud)
    : gmap string ComplianceChecker.check_report :=
  {[ "tagging_compliance" :=
       absorbed "total_resources" "compliant_resources"
         (ComplianceChecker.resource_tagging_scan PROJECT_NAME c);
     "security_groups" :=
       absorbed "total_security_groups" "compliant_security_groups"
         (ComplianceChecker.security_groups_scan c);
     "s3_bucket_policies" :=
       absorbed "total_buckets" "compliant_buckets"
         (ComplianceChecker.s3_bucket_policies_scan PROJECT_NAME c);
     "encryption_status" :=
       absorbed "total_resources" "encrypted_resources"
         (ComplianceChecker.encryption_scan c);
     "public_access" :=
       absorbed "total_resources" "private_resources"
         (ComplianceChecker.public_access_scan c) ]}.

(** An account in which every inventory call is refused. *)
Definition refused (why : string) : ComplianceChecker.cloud :=
  {| ComplianceChecker.tagging_describe_instances := Raise why;
     ComplianceChecker.tagging_list_buckets := Raise why;
     ComplianceChecker.get_bucket_tagging := fun _ => ComplianceChecker.TaggingRaises why;
     ComplianceChecker.describe_security_groups := Raise why;
     ComplianceChecker.policies_list_buckets := Raise why;
     ComplianceChecker.get_public_access_block :=
       fun _ => ComplianceChecker.AccessBlockRaises why;
     ComplianceChecker.get_bucket_encryption :=
       fun _ => ComplianceChecker.EncryptionRaises why;
     ComplianceChecker.encryption_describe_db_instances := Raise why;
     ComplianceChecker.describe_volumes := Raise why;
     ComplianceChecker.public_describe_db_instances := Raise why;
     ComplianceChecker.public_describe_instances := Raise why |}.

(** A check report counts a category under the keys of its check. *)
Definition counts_as (total_key compliant_key : string)
    (report : ComplianceChecker.check_report) (c : category) : Prop :=
  ComplianceChecker.counts report = counts_of total_key compliant_key c /\
  well_counted c.

Definition counted (total_key compliant_key : string)
    (report : ComplianceChecker.check_report) : Prop :=
  exists c, counts_as total_key compliant_key report c.

(** One category taken into the running pair (score, weight). *)
Definition accumulate {F} `{Num F} (c : category) (w : F) (acc : F * F) : F * F :=
  if 0 <? total c
  then (add (fst acc) (mul (mul (int_div (compliant c) (total c)) (of_Z 100)) w),
        add (snd acc) w)
  else acc.

(** *** Notification relay *)

(** The value of the field titled [Type] of a payload. *)
Definition type_field (m : SlackNotifier.slack_message) : option string :=
  SlackNotifier.field_value <$>
    List.find (fun f => String.eqb (SlackNotifier.field_title f) "Type")
              (SlackNotifier.fields m).

(** The topic identifier the relay reads from an envelope. *)
Definition topic_of (m : SlackNotifier.sns_message) : string :=
  default "" (SlackNotifier.TopicArn m).

(** *** Cost optimizer *)

(** The monthly price of an instance type in the static table; a type the
    table does not list counts for nothing. *)
Definition price (instance_type : string) : Z :=
  default 0 (CostOptimizer.cost_map !! instance_type).

(** The instances an inventory answer lists; none when the call raised. *)
Definition instances_of (describe_instances : result (list CostOptimizer.reservation))
    : list CostOptimizer.instance :=
  match describe_instances with
  | Ok reservations => List.concat (List.map CostOptimizer.Instances reservations)
  | Raise _ => []
  end.

(** The seven-day average the analysis computes for an instance. *)
Definition cpu_of {F} `{Num F} (get_metric_statistics : string -> result (list F))
    (i : CostOptimizer.instance) : F :=
  CostOptimizer.get_average_cpu_utilization
    (get_metric_statistics (CostOptimizer.InstanceId i)).

(** The recommendation to move instance [i], at utilisation [cpu], to the
    type [suggested]. *)
Definition downsizing {F} (cpu : F) (i : CostOptimizer.instance) (suggested : string)
    : CostOptimizer.recommendation :=
  {| CostOptimizer.instance_id := CostOptimizer.InstanceId i;
     CostOptimizer.current_type := CostOptimizer.InstanceType i;
     CostOptimizer.suggested_type := suggested;
     CostOptimizer.current_cpu_utilization := cpu;
     CostOptimizer.monthly_savings :=
       CostOptimizer.estimate_instance_cost_savings
         (CostOptimizer.InstanceType i) suggested;
     CostOptimizer.recommendation_text :=
       "Downsize from " ++ CostOptimizer.InstanceType i ++ " to " ++ suggested |}.

(** A list of recommendations flags an instance when one of them names it. *)
Definition flags {F} (recs : list (@CostOptimizer.recommendation F))
    (i : CostOptimizer.instance) : Prop :=
  exists r, In r recs /\
            CostOptimizer.instance_id r = CostOptimizer.InstanceId i /\
            CostOptimizer.current_type r = CostOptimizer.InstanceType i.

(** *** Backup rotator *)

(** The fields of a [datetime] are those of a calendar date and a time of
    day, the year written in four digits. *)
Definition valid_datetime (dt : DbBackup.datetime) : Prop :=
  1000 <= DbBackup.year dt <= 9999 /\
  1 <= DbBackup.month dt <= 12 /\
  1 <= DbBackup.day dt <= 31 /\
  0 <= DbBackup.hour dt <= 23 /\
  0 <= DbBackup.minute dt <= 59 /\
  0 <= DbBackup.second dt <= 59.

(** The second a [datetime] falls in: all of it but the microseconds. *)
Definition to_second (dt : DbBackup.datetime) : Z * Z * Z * Z * Z * Z :=
  (DbBackup.year dt, DbBackup.month dt, DbBackup.day dt,
   DbBackup.hour dt, DbBackup.minute dt, DbBackup.second dt).

(** A manual snapshot as the service lists it. *)
Record entry := {
  entry_id : string;
  entry_tags : list DbBackup.tag;
  entry_created : Z
}.

(** The dictionary the service answers for an entry: the identifier under
    the key of its kind, the tags under [TagList]. *)
Definition listed (kind : DbBackup.snapshot_kind) (e : entry) : DbBackup.snapshot :=
  {| DbBackup.TagList := Some (entry_tags e);
     DbBackup.Tags := None;
     DbBackup.DBSnapshotIdentifier :=
       match kind with
       | DbBackup.instance_snapshot => Some (entry_id e)
       | DbBackup.cluster_snapshot => None
       end;
     DbBackup.DBClusterSnapshotIdentifier :=
       match kind with
       | DbBackup.instance_snapshot => None
       | DbBackup.cluster_snapshot => Some (entry_id e)
       end;
     DbBackup.SnapshotCreateTime := entry_created e |}.

(** The automated-backup marker: a tag [BackupType=Automated], or else an
    identifier containing [-backup-]. *)
Definition carries_marker (e : entry) : Prop :=
  (exists t, In t (entry_tags e) /\
             DbBackup.Key t = "BackupType" /\ DbBackup.Value t = "Automated") \/
  has_substring "-backup-" (entry_id e).

(** [now - retention_days] on the time line. *)
Definition cutoff (r : DbBackup.rds) : Z :=
  DbBackup.utcnow r - DbBackup.timedelta_days (DbBackup.RETENTION_DAYS r).

(** The retention window of a run leaves the cutoff on the calendar. *)
Definition on_calendar (r : DbBackup.rds) : Prop :=
  Z.abs (DbBackup.RETENTION_DAYS r) <= 999999999 /\
  DbBackup.datetime_min <= cutoff r <= DbBackup.datetime_max.

(** The delete request for an entry. *)
Definition delete_of (kind : DbBackup.snapshot_kind) (e : entry) : DbBackup.delete_request :=
  {| DbBackup.delete_kind := kind; DbBackup.delete_id := entry_id e |}.

End Spec.

(** ** Sample inputs *)

Module Sample.
Import ComplianceChecker.

(** An account with one bucket of the project, tagged, blocked from public
    access and encrypted, one security group open on port 443 only, no
    instance, no database, no volume and no Config rule. *)
Definition small_account : env :=
  {| SNS_TOPIC_ARN := Some "arn:aws:sns:eu-west-1:1:compliance";
     PROJECT_NAME := "epic"; ENVIRONMENT := "prod";
     now_isoformat := "2025-03-09T06:00:00";
     describe_compliance_by_config_rule := Ok [];
     inventory :=
       {| tagging_describe_instances := Ok [];
          tagging_list_buckets := Ok ["epic-assets"];
          get_bucket_tagging := fun _ =>
            TagSet (Some [ {| Key := "Project"; Value := "epic" |};
                           {| Key := "Environment"; Value := "prod" |};
                           {| Key := "ManagedBy"; Value := "terraform" |} ]);
          describe_security_groups :=
            Ok [ {| GroupName := "web"; GroupId := "sg-1";
                    IpPermissions :=
                      [ {| FromPort := Some 443; IpProtocol := Some "tcp";
                           IpRanges := Some [ {| CidrIp := Some "0.0.0.0/0" |} ] |} ];
                    IpPermissionsEgress := None |} ];
          policies_list_buckets := Ok ["epic-assets"];
          get_public_access_block := fun _ =>
            PublicAccessBlockConfiguration
              {| BlockPublicAcls := Some true; IgnorePublicAcls := Some true;
                 BlockPublicPolicy := Some true; RestrictPublicBuckets := Some true |};
          get_bucket_encryption := fun _ => EncryptionConfigured;
          encryption_describe_db_instances := Ok [];
          describe_volumes := Ok [];
          public_describe_db_instances := Ok [];
          public_describe_instances := Ok [] |};
     json_dumps_raises := None |}.

End Sample.

(** ** Vocabulary of the further properties *)

Module Terms.

(** *** Backup rotator *)

(** The instances and the clusters a run backs up. *)
Definition eligible_instance (i : DbBackupHandler.db_instance) : bool :=
  String.eqb (DbBackupHandler.DBInstanceStatus i) "available" &&
  DbBackupHandler.is_none (DbBackupHandler.ReadReplicaSourceDBInstanceIdentifier i).

Definition eligible_cluster (c : DbBackupHandler.db_cluster) : bool :=
  String.eqb (DbBackupHandler.Status c) "available".

(** What a listing call answered; nothing when it raised. *)
Definition answer {A} (r : result (list A)) : list A :=
  match r with
  | Ok l => l
  | Raise _ => []
  end.

(** The snapshots of a kind the cleanup is shown. *)
Definition listing (r : DbBackup.rds) (kind : DbBackup.snapshot_kind)
    : list DbBackup.snapshot :=
  match kind with
  | DbBackup.instance_snapshot => answer (DbBackup.describe_db_snapshots r)
  | DbBackup.cluster_snapshot => answer (DbBackup.describe_db_cluster_snapshots r)
  end.

(** A delete request and the result recorded for it agree: same kind, same
    identifier, and the status says how the call went. *)
Definition recorded (r : DbBackup.rds) (d : DbBackup.delete_request)
    (c : DbBackup.cleanup_result) : Prop :=
  DbBackup.type c = DbBackup.delete_kind d /\
  DbBackup.cleaned_id c = DbBackup.delete_id d /\
  DbBackup.status c
  = match DbBackup.delete_snapshot r d with
    | Ok _ => "deleted"
    | Raise _ => "failed"
    end.

Definition is_publish (c : DbBackupHandler.call) : bool :=
  match c with
  | DbBackupHandler.publish _ _ => true
  | _ => false
  end.

Definition is_delete (c : DbBackupHandler.call) : bool :=
  match c with
  | DbBackupHandler.delete _ => true
  | _ => false
  end.

Definition is_create (kind : DbBackup.snapshot_kind) (c : DbBackupHandler.call) : bool :=
  match c, kind with
  | DbBackupHandler.create_snapshot DbBackup.instance_snapshot _,
    DbBackup.instance_snapshot => true
  | DbBackupHandler.create_snapshot DbBackup.cluster_snapshot _,
    DbBackup.cluster_snapshot => true
  | _, _ => false
  end.

(** The cleanup of a run raised. *)
Definition cleanup_raised (r : DbBackup.rds) : bool :=
  match snd (DbBackup.cleanup_old_snapshots r) with
  | Ok _ => false
  | Raise _ => true
  end.

(** The same cleanup, with other outcomes of the delete requests. *)
Definition with_delete (r : DbBackup.rds)
    (outcome : DbBackup.delete_request -> result unit) : DbBackup.rds :=
  {| DbBackup.utcnow := DbBackup.utcnow r;
     DbBackup.RETENTION_DAYS := DbBackup.RETENTION_DAYS r;
     DbBackup.describe_db_snapshots := DbBackup.describe_db_snapshots r;
     DbBackup.describe_db_cluster_snapshots := DbBackup.describe_db_cluster_snapshots r;
     DbBackup.delete_snapshot := outcome |}.

(** A call that asks for a snapshot of the given kind, of one of the sources
    named, tagged as an automated backup. *)
Definition creates (kind : DbBackup.snapshot_kind) (sources : list string)
    (c : DbBackupHandler.call) : Prop :=
  match c with
  | DbBackupHandler.create_snapshot k request =>
      k = kind /\ In (DbBackup.SourceIdentifier request) sources /\
      existsb DbBackup.is_automated_tag (DbBackup.RequestTags request) = true
  | _ => False
  end.

(** The identifiers of the instances and of the clusters a run may back
    up: those listed as available, read replicas left out. *)
Definition eligible_instances (e : DbBackupHandler.env) : list string :=
  List.map DbBackupHandler.DBInstanceIdentifier
    (List.filter eligible_instance (answer (DbBackupHandler.describe_db_instances e))).

Definition eligible_clusters (e : DbBackupHandler.env) : list string :=
  List.map DbBackupHandler.DBClusterIdentifier
    (List.filter eligible_cluster (answer (DbBackupHandler.describe_db_clusters e))).

Definition raised {A} (r : result A) : bool :=
  match r with
  | Ok _ => false
  | Raise _ => true
  end.

(** What one turn of a backup loop does to the state of the run: one more
    resource seen, at most one create request, for that resource, and
    either one result or one error. *)
Definition one_turn (kind : DbBackup.snapshot_kind) (id : string)
    (st st' : DbBackupHandler.backups) : Prop :=
  DbBackupHandler.seen st' = S (DbBackupHandler.seen st) /\
  (exists cs, DbBackupHandler.calls st' = (DbBackupHandler.calls st ++ cs)%list /\
              Forall (creates kind [id]) cs) /\
  ((exists d, DbBackupHandler.done st' = (DbBackupHandler.done st ++ [d])%list /\
              DbBackupHandler.failed st' = DbBackupHandler.failed st) \/
   (exists f, DbBackupHandler.done st' = DbBackupHandler.done st /\
              DbBackupHandler.failed st' = (DbBackupHandler.failed st ++ [f])%list)).

(** The error a failed cleanup adds to the errors of the run. *)
Definition cleanup_errors (r : DbBackup.rds) : list string :=
  match snd (DbBackup.cleanup_old_snapshots r) with
  | Ok _ => []
  | Raise x => ["Failed to cleanup old snapshots: " ++ x]
  end.

(** What the cleanup returned; nothing when it raised. *)
Definition cleaned (r : DbBackup.rds) : list DbBackup.cleanup_result :=
  answer (snd (DbBackup.cleanup_old_snapshots r)).

(** What a notification says is what the response says: the same results
    under status 200, the subject reading "Success" exactly when the
    results hold no error; or the same error text under status 500. *)
Definition says (said : DbBackupHandler.notice) (r : DbBackupHandler.response)
    : Prop :=
  match said, DbBackupHandler.response_body r with
  | DbBackupHandler.Report success results, DbBackupHandler.ResultsBody results' =>
      results = results' /\ DbBackupHandler.statusCode r = 200 /\
      (success = true <-> DbBackupHandler.errors results = [])
  | DbBackupHandler.Failure x, DbBackupHandler.ErrorBody x' =>
      x = x' /\ DbBackupHandler.statusCode r = 500
  | _, _ => False
  end.

(** The calls a run may issue: create requests for the resources it may
    back up, tagged as automated backups; the delete requests of its
    cleanup; notifications to its topic. *)
Definition allowed (e : DbBackupHandler.env) (c : DbBackupHandler.call) : Prop :=
  match c with
  | DbBackupHandler.create_snapshot DbBackup.instance_snapshot _ =>
      creates DbBackup.instance_snapshot (eligible_instances e) c
  | DbBackupHandler.create_snapshot DbBackup.cluster_snapshot _ =>
      creates DbBackup.cluster_snapshot (eligible_clusters e) c
  | DbBackupHandler.delete d =>
      In d (fst (DbBackup.cleanup_old_snapshots (DbBackupHandler.retention e)))
  | DbBackupHandler.publish topic _ => topic = DbBackupHandler.SNS_TOPIC_ARN e
  end.

(** *** Chat relay *)

(** The payload of a record, when the record has its ['Sns'] object. *)
Definition payload (r : SlackNotifier.record) : option SlackNotifier.slack_message :=
  SlackNotifier.build_slack_message <$> SlackNotifier.Sns r.

(** A record whose payload the webhook answers with status 200. *)
Definition delivered (post : SlackNotifier.slack_message -> result Z)
    (r : SlackNotifier.record) : Prop :=
  match payload r with
  | Some p => post p = Ok 200
  | None => False
  end.

(** The records of an event; none without the key. *)
Definition records_of (e : SlackNotifier.event) : list SlackNotifier.record :=
  default [] (SlackNotifier.Records e).

(** The value of the field of a payload titled "Topic". *)
Definition topic_field (p : SlackNotifier.slack_message) : option string :=
  SlackNotifier.field_value <$>
    List.find (fun f => String.eqb (SlackNotifier.field_title f) "Topic")
      (SlackNotifier.fields p).

(** *** Compliance checks *)

(** Every resource a check counted is counted compliant or listed among
    the violations, under the keys of the check. *)
Definition balanced (total_key compliant_key : string)
    (report : ComplianceChecker.check_report) : Prop :=
  exists c : Spec.category,
    ComplianceChecker.counts report = Spec.counts_of total_key compliant_key c /\
    0 <= Spec.compliant c /\
    Spec.total c
    = Spec.compliant c + Z.of_nat (length (ComplianceChecker.violations report)).

(** How many rules of an answer are COMPLIANT. *)
Definition compliant_rules_in (rules : list ComplianceChecker.rule_compliance) : nat :=
  length (List.filter
            (fun rc => String.eqb (ComplianceChecker.ComplianceType rc) "COMPLIANT")
            rules).

(** What a notice of the compliance handler has to say: a compliance
    notice carries the report of the run under the band of its score,
    Critical below 70 and Warning otherwise; an error notice carries the
    error text of the 500 response. *)
Definition fitting {F} `{Num F} (e : ComplianceChecker.env)
    (p : @ComplianceChecker.publish F) : Prop :=
  ComplianceChecker.TopicArn p = default "" (ComplianceChecker.SNS_TOPIC_ARN e) /\
  match ComplianceChecker.Notice p with
  | ComplianceChecker.ComplianceNotice band report =>
      report = ComplianceChecker.build_report e /\
      band = (if ltb (ComplianceChecker.compliance_score report) (of_Z 70)
              then ComplianceChecker.Critical else ComplianceChecker.Warning)
  | ComplianceChecker.ErrorNotice msg =>
      ComplianceChecker.response_body (fst (ComplianceChecker.handler e))
      = ComplianceChecker.ErrorBody msg
  end.

(** *** Cost report *)

(** The two utilisations the database analysis computes for an instance. *)
Definition rds_cpu_of {F} `{Num F} (cpu_statistics : string -> result (list F))
    (i : CostReport.db_instance) : F :=
  CostReport.get_rds_cpu_utilization
    (cpu_statistics (CostReport.DBInstanceIdentifier i)).

Definition rds_connections_of {F} `{Num F}
    (connection_statistics : string -> result (list F))
    (i : CostReport.db_instance) : F :=
  CostReport.get_rds_connection_utilization
    (connection_statistics (CostReport.DBInstanceIdentifier i))
    (default 0 (CostReport.AllocatedStorage i)).

(** The recommendation to move a database instance to the class [s]. *)
Definition rds_downsizing {F} `{Num F} (cpu connections : F)
    (i : CostReport.db_instance) (s : string) : CostReport.rds_recommendation :=
  {| CostReport.rds_instance_id := CostReport.DBInstanceIdentifier i;
     CostReport.current_class := CostReport.DBInstanceClass i;
     CostReport.suggested_class := s;
     CostReport.rds_cpu_utilization := cpu;
     CostReport.connection_utilization := connections;
     CostReport.rds_monthly_savings :=
       CostReport.estimate_rds_cost_savings (CostReport.DBInstanceClass i) s;
     CostReport.rds_recommendation_text :=
       "Downsize from " ++ CostReport.DBInstanceClass i ++ " to " ++ s |}.

(** What the storage analysis finds in a bucket. *)
Definition storage_of {F} `{Num F} (c : CostReport.s3) (name : string)
    : CostReport.storage_analysis (F:=F) :=
  CostReport.analyze_bucket_storage (CostReport.clock c name)
    (CostReport.list_objects_v2 c name).

(** A bucket shows no lifecycle rule: it has no lifecycle configuration,
    one without rules, or the lookup failed. *)
Definition no_lifecycle_rule (c : CostReport.s3) (name : string) : Prop :=
  match CostReport.get_bucket_lifecycle_configuration c name with
  | CostReport.LifecycleConfiguration (Some (_ :: _)) => False
  | _ => True
  end.

(** The recommendation to give a bucket a lifecycle policy. *)
Definition lifecycle_advice {F} `{Num F} `{NumSub F} (c : CostReport.s3)
    (name : string) : CostReport.s3_recommendation (F:=F) :=
  {| CostReport.bucket_name := name;
     CostReport.current_storage_gb := CostReport.total_size_gb (storage_of c name);
     CostReport.s3_old_objects_count :=
       CostReport.old_objects_count (storage_of (F:=F) c name);
     CostReport.s3_monthly_savings :=
       CostReport.estimate_s3_lifecycle_savings (storage_of c name);
     CostReport.s3_recommendation_text := "Implement lifecycle policy" |}.

(** The recommendation read from one item of the answer about reserved
    instances, when its two amounts are numbers. *)
Definition ri_read {F} `{Num F} (item : CostReport.ri_item F)
    (r : CostReport.ri_recommendation (F:=F)) : Prop :=
  match CostReport.RecommendationDetails item with
  | Some details =>
      CostReport.ri_instance_type r = CostReport.InstanceType details /\
      CostReport.recommended_instances r
      = CostReport.RecommendedNumberOfInstancesToPurchase details /\
      CostReport.float_or_0 (CostReport.EstimatedMonthlySavingsAmount details)
      = Ok (CostReport.ri_monthly_savings r) /\
      CostReport.float_or_0 (CostReport.UpfrontCost details)
      = Ok (CostReport.upfront_cost r)
  | None =>
      CostReport.ri_instance_type r = None /\
      CostReport.recommended_instances r = None /\
      CostReport.ri_monthly_savings r = of_Z 0 /\
      CostReport.upfront_cost r = of_Z 0
  end.

(** The amounts of the groups of a period, when all of them are numbers. *)
Fixpoint amounts_of {F} (groups : list (CostReport.cost_group F)) : option (list F) :=
  match groups with
  | [] => Some []
  | g :: rest =>
      match CostReport.Amount g, amounts_of rest with
      | Ok a, Some l => Some (a :: l)
      | _, _ => None
      end
  end.

(** The groups a cost summary is made of: those of the first period of the
    answer. *)
Definition summarised {F} (response : result (list (CostReport.period F)))
    : list (CostReport.cost_group F) :=
  match response with
  | Ok (first :: _) => CostReport.Groups first
  | _ => []
  end.

(** The savings notice of a run is among the requests. *)
Definition published_savings {F} `{Num F} `{NumSub F}
    (sent : list (CostReport.publish (F:=F))) : Prop :=
  exists p, In p sent /\
            match CostReport.Notice p with
            | CostReport.SavingsNotice _ => True
            | CostReport.ErrorNotice _ => False
            end.

(** What the database analysis adds for one instance. *)
Definition rds_found {F} `{Num F} (thr : F)
    (cpu connections : string -> result (list F)) (i : CostReport.db_instance)
    : list CostReport.rds_recommendation :=
  match CostReport.suggest_smaller_rds_class (CostReport.DBInstanceClass i) with
  | Some s =>
      if String.eqb (CostReport.DBInstanceStatus i) "available" &&
         (ltb (rds_cpu_of cpu i) thr &&
          ltb (rds_connections_of connections i) (of_Z 50))
      then [rds_downsizing (rds_cpu_of cpu i) (rds_connections_of connections i) i s]
      else []
  | None => []
  end.

(** What the storage analysis adds for one bucket. *)
Definition s3_found {F} `{Num F} `{NumSub F} (PN : string) (c : CostReport.s3)
    (name : string) : list (CostReport.s3_recommendation (F:=F)) :=
  if contains PN name &&
     (negb (CostReport.truthy_policy
              (CostReport.get_bucket_lifecycle_policy
                 (CostReport.get_bucket_lifecycle_configuration c name))) &&
      ltb (of_Z 1) (CostReport.total_size_gb (storage_of c name)))
  then [lifecycle_advice c name] else [].

(** *** Security groups *)

(** An inbound rule open to the whole Internet (an IPv4 range 0.0.0.0/0)
    on a port other than 80 and 443. *)
Definition world_open (rule : ComplianceChecker.ip_permission) : Prop :=
  (exists r, In r (default [] (ComplianceChecker.IpRanges rule)) /\
             ComplianceChecker.CidrIp r = Some "0.0.0.0/0") /\
  ComplianceChecker.FromPort rule <> Some 80 /\
  ComplianceChecker.FromPort rule <> Some 443.

(** A group with no inbound and no outbound rule. *)
Definition unused (sg : ComplianceChecker.security_group) : Prop :=
  ComplianceChecker.IpPermissions sg = [] /\
  default [] (ComplianceChecker.IpPermissionsEgress sg) = [].

(** A group the check has something to say about. *)
Definition flagged (sg : ComplianceChecker.security_group) : Prop :=
  (exists rule, In rule (ComplianceChecker.IpPermissions sg) /\ world_open rule) \/
  unused sg.

(** The findings the check collects for a group. *)
Definition group_found (sg : ComplianceChecker.security_group)
    : list ComplianceChecker.group_finding :=
  let found :=
    flat_map ComplianceChecker.rule_findings (ComplianceChecker.IpPermissions sg) in
  if ComplianceChecker.is_nil (ComplianceChecker.IpPermissions sg) &&
     ComplianceChecker.is_nil (default [] (ComplianceChecker.IpPermissionsEgress sg))
  then (found ++ [ComplianceChecker.unused_security_group
                    (ComplianceChecker.GroupId sg)])%list
  else found.

(** The violation the check lists for a group, if it lists one. *)
Definition group_violation (sg : ComplianceChecker.security_group)
    : list ComplianceChecker.violation :=
  if String.eqb (ComplianceChecker.GroupName sg) "default" then []
  else if ComplianceChecker.is_nil (group_found sg) then []
  else [ComplianceChecker.group_findings (ComplianceChecker.GroupId sg)
          (ComplianceChecker.GroupName sg) (group_found sg)].

End Terms.

(** * Runs to evaluate *)

Module Scenario.
Import DbBackup DbBackupHandler.

Definition automated : DbBackup.tag :=
  {| DbBackup.Key := "BackupType"; DbBackup.Value := "Automated" |}.

(** 2025-10-09 08:53:20 UTC, in microseconds. *)
Definition this_morning : Z := 1760000000000000.

(** A cleanup shown one old snapshot of the rotator and one recent one,
    whose delete requests are refused. *)
Definition refused_cleanup : rds :=
  {| utcnow := this_morning;
     RETENTION_DAYS := 30;
     describe_db_snapshots :=
       Ok [ {| TagList := Some [automated]; DbBackup.Tags := None;
               DBSnapshotIdentifier := Some "orders-backup-2025-08-01-02-00-00";
               DBClusterSnapshotIdentifier := None;
               SnapshotCreateTime := 1754013600000000 |};
            {| TagList := Some [automated]; DbBackup.Tags := None;
               DBSnapshotIdentifier := Some "orders-backup-2025-10-08-02-00-00";
               DBClusterSnapshotIdentifier := None;
               SnapshotCreateTime := 1759888800000000 |} ];
     describe_db_cluster_snapshots := Ok [];
     delete_snapshot := fun _ => Raise "InvalidDBSnapshotState" |}.

Definition two_o_clock : datetime :=
  {| year := 2025; month := 10; day := 9; hour := 2; minute := 0; second := 0;
     microsecond := 417 |}.

(** A nightly run: one instance to back up, its read replica, a stopped
    instance, and one cluster whose snapshot request is refused. *)
Definition nightly : env :=
  {| SNS_TOPIC_ARN := "arn:aws:sns:eu-west-1:111122223333:backups";
     describe_db_instances :=
       Ok [ {| DBInstanceIdentifier := "orders"; DBInstanceStatus := "available";
               ReadReplicaSourceDBInstanceIdentifier := None |};
            {| DBInstanceIdentifier := "orders-replica";
               DBInstanceStatus := "available";
               ReadReplicaSourceDBInstanceIdentifier := Some "orders" |};
            {| DBInstanceIdentifier := "reports"; DBInstanceStatus := "stopped";
               ReadReplicaSourceDBInstanceIdentifier := None |} ];
     describe_db_clusters :=
       Ok [ {| DBClusterIdentifier := "ledger"; Status := "available" |} ];
     clock := fun _ =>
       {| now := two_o_clock;
          expiry := Ok {| year := 2025; month := 11; day := 8; hour := 2;
                          minute := 0; second := 0; microsecond := 433 |} |};
     create_db_snapshot := fun request =>
       Ok ("arn:aws:rds:eu-west-1:111122223333:snapshot:" ++
           SnapshotIdentifier request);
     create_db_cluster_snapshot := fun _ => Raise "SnapshotQuotaExceeded";
     retention := refused_cleanup |}.

(** A project with one bucket of three objects of 1 GiB each and no
    lifecycle configuration, and one bucket whose objects cannot be
    listed. *)
Definition project_buckets : CostReport.s3 :=
  {| CostReport.list_buckets := Ok ["epic-logs"; "epic-locked"; "other-team"];
     CostReport.get_bucket_lifecycle_configuration :=
       fun _ => CostReport.NoSuchLifecycleConfiguration;
     CostReport.clock := fun _ => this_morning;
     CostReport.list_objects_v2 := fun name =>
       if String.eqb name "epic-locked" then Raise "AccessDenied"
       else Ok (Some [ {| CostReport.Size := 1073741824;
                          CostReport.LastModified := 1754013600000000 |};
                       {| CostReport.Size := 1073741824;
                          CostReport.LastModified := 1759888800000000 |};
                       {| CostReport.Size := 1073741824;
                          CostReport.LastModified := 1759888800000000 |} ]) |}.

(** An account with ten databases and nothing else: nine of them encrypted
    and private, the tenth neither. *)
Definition nine_of_ten : ComplianceChecker.env :=
  let kept :=
    {| ComplianceChecker.DBInstanceIdentifier := "orders";
       ComplianceChecker.StorageEncrypted := Some true;
       ComplianceChecker.PubliclyAccessible := Some false |} in
  let exposed :=
    {| ComplianceChecker.DBInstanceIdentifier := "legacy";
       ComplianceChecker.StorageEncrypted := Some false;
       ComplianceChecker.PubliclyAccessible := Some true |} in
  let databases := (List.repeat kept 9 ++ [exposed])%list in
  {| ComplianceChecker.SNS_TOPIC_ARN := Some "arn:aws:sns:eu-west-1:1:compliance";
     ComplianceChecker.PROJECT_NAME := "epic";
     ComplianceChecker.ENVIRONMENT := "prod";
     ComplianceChecker.now_isoformat := "2025-03-09T06:00:00";
     ComplianceChecker.describe_compliance_by_config_rule := Ok [];
     ComplianceChecker.inventory :=
       {| ComplianceChecker.tagging_describe_instances := Ok [];
          ComplianceChecker.tagging_list_buckets := Ok [];
          ComplianceChecker.get_bucket_tagging :=
            fun _ => ComplianceChecker.NoSuchTagSet;
          ComplianceChecker.describe_security_groups := Ok [];
          ComplianceChecker.policies_list_buckets := Ok [];
          ComplianceChecker.get_public_access_block :=
            fun _ => ComplianceChecker.NoSuchPublicAccessBlockConfiguration;
          ComplianceChecker.get_bucket_encryption :=
            fun _ => ComplianceChecker.EncryptionConfigured;
          ComplianceChecker.encryption_describe_db_instances := Ok databases;
          ComplianceChecker.describe_volumes := Ok [];
          ComplianceChecker.public_describe_db_instances := Ok databases;
          ComplianceChecker.public_describe_instances := Ok [] |};
     ComplianceChecker.json_dumps_raises := None |}.

(** An event of two envelopes, one of an application topic and one of an
    infrastructure topic. *)
Definition two_envelopes : SlackNotifier.event :=
  {| SlackNotifier.Records :=
       Some [ {| SlackNotifier.Sns :=
                   Some {| SlackNotifier.Subject :=
                             Some (SlackNotifier.str "Deploy finished");
                           SlackNotifier.Message := Some "ok";
                           SlackNotifier.TopicArn :=
                             Some "arn:aws:sns:us-east-1:123456789012:epic-app-notifications";
                           SlackNotifier.Timestamp :=
                             Some "2025-01-01T00:00:00.000Z" |} |};
              {| SlackNotifier.Sns :=
                   Some {| SlackNotifier.Subject := None;
                           SlackNotifier.Message := Some "disk 91%";
                           SlackNotifier.TopicArn :=
                             Some "arn:aws:sns:us-east-1:123456789012:epic-alerts";
                           SlackNotifier.Timestamp :=
                             Some "2025-01-01T00:05:00.000Z" |} |} ] |}.

End Scenario.

(** * Properties *)

(** ** Strings *)

Section StringFacts.

(** The two equations of [++]. *)
Lemma append_nil_l (b : string) : "" ++ b = b.
Proof. reflexivity. Qed.

Lemma append_cons (c : ascii) (a b : string) :
  String c a ++ b = String c (a ++ b).
Proof. reflexivity. Qed.

Lemma append_assoc (a b c : string) : (a ++ b) ++ c = a ++ (b ++ c).
Proof.
  induction a as [|x a IH]; [reflexivity |].
  now rewrite !append_cons, IH.
Qed.

Lemma length_append (a b : string) :
  String.length (a ++ b) = (String.length a + String.length b)%nat.
Proof.
  induction a as [|x a IH]; [reflexivity |].
  rewrite append_cons. simpl. now rewrite IH.
Qed.

Lemma append_inv_head (a b c : string) : a ++ b = a ++ c -> b = c.
Proof.
  induction a as [|x a IH]; intros E; [exact E |].
  rewrite !append_cons in E. injection E as E. now apply IH.
Qed.

(** Two concatenations with tails of one length agree part by part. *)
Lemma append_inv_length (a b c d : string) :
  String.length b = String.length d -> a ++ b = c ++ d -> a = c /\ b = d.
Proof.
  revert c. induction a as [|x a IH]; intros [|y c] L E.
  - split; [reflexivity | exact E].
  - exfalso. apply (f_equal String.length) in E.
    rewrite append_nil_l, length_append in E. simpl in E. lia.
  - exfalso. apply (f_equal String.length) in E.
    rewrite append_nil_l, length_append in E. simpl in E. lia.
  - rewrite !append_cons in E. injection E as -> E.
    destruct (IH c L E) as [-> ->]. split; reflexivity.
Qed.

Lemma prefix_spec (p s : string) :
  String.prefix p s = true <-> exists post, s = p ++ post.
Proof.
  revert s. induction p as [|x p IH]; intros s.
  - split; [intros _; exists s; reflexivity | intros _; now destruct s].
  - destruct s as [|y s].
    + split; [discriminate | intros [post E]; discriminate].
    + simpl. destruct (ascii_dec x y) as [->|N].
      * rewrite IH. split; intros [post E]; exists post.
        -- now rewrite append_cons, E.
        -- rewrite append_cons in E. now injection E.
      * split; [discriminate |]. intros [post E].
        rewrite append_cons in E. injection E as E1 _. now destruct N.
Qed.

(** [needle in hay] holds exactly when [hay] is some text, then [needle],
    then some text. *)
Lemma contains_spec (needle hay : string) :
  contains needle hay = true <-> Spec.has_substring needle hay.
Proof.
  unfold Spec.has_substring.
  induction hay as [|c hay IH].
  - cbn [contains]. rewrite orb_false_r, prefix_spec. split.
    + intros [post E]. exists "", post. exact E.
    + intros [[|x pre] [post E]]; [exists post; exact E | discriminate].
  - cbn [contains]. rewrite orb_true_iff, prefix_spec, IH. split.
    + intros [[post E] | (pre & post & E)].
      * exists "", post. exact E.
      * exists (String c pre), post. now rewrite append_cons, E.
    + intros ([|x pre] & post & E).
      * left. exists post. exact E.
      * right. exists pre, post. rewrite append_cons in E. now injection E.
Qed.

End StringFacts.

(** ** The notification relay *)

Section SlackNotifierFacts.
Import SlackNotifier Spec Terms.

Lemma classify_application (topic : string) :
  has_substring "app-notifications" topic ->
  classify topic = ("Application", "#36a64f").
Proof.
  intros M. apply contains_spec in M. unfold classify. now rewrite M.
Qed.

Lemma classify_infrastructure (topic : string) :
  ~ has_substring "app-notifications" topic ->
  classify topic = ("Infrastructure", "#ff9900").
Proof.
  intros M. unfold classify.
  destruct (contains "app-notifications" topic) eqn:C; [| reflexivity].
  destruct M. now apply contains_spec.
Qed.

Lemma build_slack_message_classified (m : sns_message) :
  color (build_slack_message m) = snd (classify (topic_of m)) /\
  type_field (build_slack_message m) = Some (fst (classify (topic_of m))).
Proof.
  unfold build_slack_message, topic_of.
  destruct (classify (default "" (TopicArn m))) as [ty col]. split; reflexivity.
Qed.

(** The payloads posted are those built from the envelopes, in order, up
    to the envelope the loop stops at. *)
Lemma relay_posted post records posted :
  exists handled,
    fst (relay post records posted)
    = (posted ++ List.map build_slack_message handled)%list /\
    forall m, In m handled -> exists r, In r records /\ Sns r = Some m.
Proof.
  revert posted. induction records as [|r rest IH]; intros posted.
  - exists []. split; [simpl; now rewrite app_nil_r | intros m []].
  - cbn [relay]. destruct (Sns r) as [m|] eqn:S.
    + destruct (post (build_slack_message m)) as [st|e].
      * destruct (negb (st =? 200)).
        -- exists [m]. split; [reflexivity |].
           intros m' [<-|[]]. exists r. split; [now left | exact S].
        -- destruct (IH (posted ++ [build_slack_message m])%list)
             as (handled & E & Hin).
           exists (m :: handled). split.
           ++ rewrite E. simpl. now rewrite <- app_assoc.
           ++ intros m' [<-|I].
              ** exists r. split; [now left | exact S].
              ** destruct (Hin m' I) as (r' & I' & S'). exists r'.
                 split; [now right | exact S'].
      * exists [m]. split; [reflexivity |].
        intros m' [<-|[]]. exists r. split; [now left | exact S].
    + exists []. split; [simpl; now rewrite app_nil_r | intros m []].
Qed.

(** The payloads already posted are kept, in front. *)
Lemma relay_app (post : slack_message -> result Z) (records : list record)
    (posted : list slack_message) :
  relay post records posted
  = ((posted ++ fst (relay post records []))%list, snd (relay post records [])).
Proof.
  revert posted. induction records as [|r rest IH]; intros posted.
  - cbn. now rewrite app_nil_r.
  - cbn [relay]. destruct (Sns r) as [m |]; [| cbn; now rewrite app_nil_r].
    destruct (post (build_slack_message m)) as [st | x]; [| reflexivity].
    destruct (negb (st =? 200)); [reflexivity |].
    rewrite (IH (posted ++ [build_slack_message m])%list),
            (IH ([] ++ [build_slack_message m])%list).
    cbn [fst snd]. now rewrite <- app_assoc.
Qed.

(** The loop answers 200 exactly when every record is delivered, and then
    it has posted the payload of every record. *)
Lemma relay_ok (post : slack_message -> result Z) (records : list record) :
  (statusCode (snd (relay post records [])) = 200 <-> Forall (delivered post) records) /\
  (statusCode (snd (relay post records [])) = 200 ->
   List.map Some (fst (relay post records [])) = List.map payload records).
Proof.
  induction records as [|r rest [IH1 IH2]].
  - cbn. split; [split; [constructor | reflexivity] | reflexivity].
  - cbn [relay].
    assert (P : payload r = build_slack_message <$> Sns r) by reflexivity.
    destruct (Sns r) as [m |].
    + cbn [fmap option_fmap option_map] in P.
      destruct (post (build_slack_message m)) as [st | x] eqn:Po.
      * destruct (Z.eqb_spec st 200) as [-> | N]; cbn [negb].
        -- rewrite relay_app. cbn [fst snd List.map List.app].
           rewrite IH1. split.
           ++ split.
              ** intros Fr. constructor; [| exact Fr]. unfold delivered.
                 now rewrite P.
              ** intros Fr. now inversion Fr.
           ++ intros Fr. apply IH1 in Fr. now rewrite P, (IH2 Fr).
        -- cbn [snd statusCode]. split; [| discriminate]. split; [discriminate |].
           intros Fr. inversion Fr as [| ? ? D _]. unfold delivered in D.
           rewrite P, Po in D. congruence.
      * cbn [snd statusCode]. split; [| discriminate]. split; [discriminate |].
        intros Fr. inversion Fr as [| ? ? D _]. unfold delivered in D.
        rewrite P, Po in D. discriminate.
    + cbn [snd statusCode]. split; [| discriminate]. split; [discriminate |].
      intros Fr. inversion Fr as [| ? ? D _]. unfold delivered in D.
      now rewrite P in D.
Qed.

(** The payloads the loop posts are those of the first records, and all of
    them but the last were answered with status 200. *)
Lemma relay_prefix (post : slack_message -> result Z) (records : list record) :
  exists n,
    List.map Some (fst (relay post records [])) = List.map payload (firstn n records) /\
    Forall (fun p => post p = Ok 200) (removelast (fst (relay post records []))).
Proof.
  induction records as [|r rest (n & E & A)].
  - exists O. split; [reflexivity | constructor].
  - cbn [relay].
    assert (P : payload r = build_slack_message <$> Sns r) by reflexivity.
    destruct (Sns r) as [m |]; [| exists O; split; [reflexivity | constructor]].
    cbn [fmap option_fmap option_map] in P.
    assert (One : List.map Some [build_slack_message m]
                  = List.map payload (firstn 1 (r :: rest))).
    { cbn. now rewrite P. }
    destruct (post (build_slack_message m)) as [st | x] eqn:Po;
      [| exists 1%nat; split; [exact One | constructor]].
    destruct (Z.eqb_spec st 200) as [-> | N]; cbn [negb];
      [| exists 1%nat; split; [exact One | constructor]].
    rewrite relay_app. cbn [fst List.app]. exists (S n). split.
    + cbn [firstn List.map]. now rewrite P, E.
    + destruct (fst (relay post rest [])) as [|p ps] eqn:R; [constructor |].
      change (removelast (build_slack_message m :: p :: ps))
        with (build_slack_message m :: removelast (p :: ps)).
      constructor; [exact Po | exact A].
Qed.

End SlackNotifierFacts.

Section SlackNotifierClaims.
Import SlackNotifier Spec Terms.

(** C8. For every envelope, the payload the relay builds is of type
    "Application" with the green colour when the topic identifier
    contains the literal text "app-notifications", and of type
    "Infrastructure" with the orange colour for every other topic
    identifier.  The relay posts these payloads: every payload the handler
    posts is the one built from an envelope of the event; the payloads
    posted are those of the first records of the event, in order; with a
    webhook URL the payload of the first envelope is always posted; and
    when the webhook answers every payload with status 200, the payload of
    every envelope of the event is posted. *)
Theorem C8_topic_classification :
  (forall m : sns_message,
      has_substring "app-notifications" (topic_of m) ->
      type_field (build_slack_message m) = Some "Application" /\
      color (build_slack_message m) = "#36a64f") /\
  (forall m : sns_message,
      ~ has_substring "app-notifications" (topic_of m) ->
      type_field (build_slack_message m) = Some "Infrastructure" /\
      color (build_slack_message m) = "#ff9900") /\
  (forall url e post p,
      In p (fst (handler url e post)) ->
      exists records r m,
        Records e = Some records /\ In r records /\ Sns r = Some m /\
        p = build_slack_message m) /\
  (forall url e post,
      exists n,
        List.map Some (fst (handler url e post))
        = List.map payload (firstn n (records_of e))) /\
  (forall url e post r rest m,
      truthy_opt_str url = true ->
      Records e = Some (r :: rest) -> Sns r = Some m ->
      exists more, fst (handler url e post) = build_slack_message m :: more) /\
  (forall url e post records,
      truthy_opt_str url = true ->
      Records e = Some records -> Forall (delivered post) records ->
      statusCode (snd (handler url e post)) = 200 /\
      List.map Some (fst (handler url e post)) = List.map payload records).
Proof.
  repeat match goal with |- _ /\ _ => split end.
  - intros m M. destruct (build_slack_message_classified m) as [C T].
    rewrite C, T, (classify_application _ M). split; reflexivity.
  - intros m M. destruct (build_slack_message_classified m) as [C T].
    rewrite C, T, (classify_infrastructure _ M). split; reflexivity.
  - intros url e post p. unfold handler.
    destruct (negb (truthy_opt_str url)); [intros [] |].
    destruct (Records e) as [records|]; [| intros []].
    destruct (relay_posted post records []) as (handled & E & Hin).
    rewrite E. simpl. intros I. apply in_map_iff in I as (m & <- & I).
    destruct (Hin m I) as (r & Ir & S). exists records, r, m. auto.
  - intros url e post. unfold handler, records_of.
    destruct (negb (truthy_opt_str url)); [now exists O |].
    destruct (Records e) as [records |]; [| now exists O].
    destruct (relay_prefix post records) as (n & E & _). now exists n.
  - intros url e post r rest m U R S. unfold handler. rewrite U, R.
    cbn [negb relay]. rewrite S.
    destruct (post (build_slack_message m)) as [st | x]; [| now exists []].
    destruct (negb (st =? 200)); [now exists [] |].
    rewrite relay_app. cbn [fst List.app]. eauto.
  - intros url e post records U R D. unfold handler. rewrite U, R. cbn [negb].
    destruct (relay_ok post records) as [I P].
    apply I in D. split; [exact D | exact (P D)].
Qed.

Lemma C8_topic_classification_witness :
  let url := Some "https://hooks.slack.com/services/T000/B000/XXXX" in
  let post := fun _ : slack_message => Ok 200 in
  let m := {| Subject := Some (str "Deploy finished");
              Message := Some "ok";
              TopicArn := Some "arn:aws:sns:us-east-1:123456789012:epic-app-notifications";
              Timestamp := Some "2025-01-01T00:00:00.000Z" |} in
  (type_field (build_slack_message m) = Some "Application" /\
   color (build_slack_message m) = "#36a64f") /\
  (statusCode (snd (handler url Scenario.two_envelopes post)) = 200 /\
   List.map Some (fst (handler url Scenario.two_envelopes post))
   = List.map payload (records_of Scenario.two_envelopes)) /\
  List.map (fun p => (type_field p, color p))
    (fst (handler url Scenario.two_envelopes post))
  = [ (Some "Application", "#36a64f"); (Some "Infrastructure", "#ff9900") ].
Proof.
  intros url post m.
  destruct C8_topic_classification as (App & _ & _ & _ & _ & All).
  split.
  - apply App. exists "arn:aws:sns:us-east-1:123456789012:epic-", "". reflexivity.
  - split; [| reflexivity].
    apply (All url Scenario.two_envelopes post _ eq_refl eq_refl).
    repeat constructor.
Defined.

End SlackNotifierClaims.

(** ** The cost optimizer *)

Section CostOptimizerClaims.
Import CostOptimizer Spec.

Lemma max0_max (x : Z) : max0 x = Z.max 0 x.
Proof. unfold max0. destruct (Z.ltb_spec 0 x); lia. Qed.

(** C7. For every pair of instance types the estimated saving is the
    price of the current type minus the price of the suggested type in
    the static table, floored at zero, hence never negative; from
    "t3.large" (67) to "t3.medium" (34) it is 33. *)
Theorem C7_cost_savings :
  (forall current_type suggested_type : string,
      estimate_instance_cost_savings current_type suggested_type
      = Z.max 0 (price current_type - price suggested_type)) /\
  (forall current_type suggested_type : string,
      0 <= estimate_instance_cost_savings current_type suggested_type) /\
  price "t3.large" = 67 /\ price "t3.medium" = 34 /\
  estimate_instance_cost_savings "t3.large" "t3.medium" = 33.
Proof.
  assert (E : forall c s, estimate_instance_cost_savings c s
                          = Z.max 0 (price c - price s)).
  { intros c s. unfold estimate_instance_cost_savings, price. apply max0_max. }
  split; [exact E |]. split; [intros c s; rewrite E; lia |].
  repeat split; vm_compute; reflexivity.
Qed.

End CostOptimizerClaims.

(** ** The backup rotator: snapshot identifiers *)

Section SnapshotNames.
Import DbBackup Spec.

Lemma digit_inj (a b : Z) :
  0 <= a <= 9 -> 0 <= b <= 9 -> digit a = digit b -> a = b.
Proof.
  intros Ha Hb E. apply (f_equal nat_of_ascii) in E. unfold digit in E.
  rewrite !nat_ascii_embedding in E by lia. lia.
Qed.

(** Linear arithmetic with quotients and remainders by constants. *)
Local Ltac dlia := Z.div_mod_to_equations; lia.

Lemma two_digits_inj (a b : Z) :
  0 <= a <= 99 -> 0 <= b <= 99 -> two_digits a = two_digits b -> a = b.
Proof.
  intros Ha Hb E. unfold two_digits in E. injection E as E1 E0.
  apply digit_inj in E1; [| dlia | dlia].
  apply digit_inj in E0; [| dlia | dlia].
  dlia.
Qed.

Lemma four_digits_inj (a b : Z) :
  0 <= a <= 9999 -> 0 <= b <= 9999 -> four_digits a = four_digits b -> a = b.
Proof.
  intros Ha Hb E. unfold four_digits in E. injection E as E3 E2 E1 E0.
  apply digit_inj in E3; [| dlia | dlia].
  apply digit_inj in E2; [| dlia | dlia].
  apply digit_inj in E1; [| dlia | dlia].
  apply digit_inj in E0; [| dlia | dlia].
  dlia.
Qed.

(** The timestamp always has nineteen characters. *)
Lemma strftime_seconds_length (dt : datetime) :
  String.length (strftime_seconds dt) = 19%nat.
Proof. reflexivity. Qed.

(** Two valid clock readings with one timestamp fall in one second. *)
Lemma strftime_seconds_inj (dt1 dt2 : datetime) :
  valid_datetime dt1 -> valid_datetime dt2 ->
  strftime_seconds dt1 = strftime_seconds dt2 -> to_second dt1 = to_second dt2.
Proof.
  intros (Y1 & M1 & D1 & H1 & N1 & S1) (Y2 & M2 & D2 & H2 & N2 & S2) E.
  assert (Ey : four_digits (year dt1) = four_digits (year dt2) /\
               two_digits (month dt1) = two_digits (month dt2) /\
               two_digits (day dt1) = two_digits (day dt2) /\
               two_digits (hour dt1) = two_digits (hour dt2) /\
               two_digits (minute dt1) = two_digits (minute dt2) /\
               two_digits (second dt1) = two_digits (second dt2)).
  { unfold strftime_seconds, four_digits, two_digits in *.
    rewrite !append_cons, !append_nil_l in E.
    injection E as -> -> -> -> -> -> -> -> -> -> -> -> -> ->.
    repeat split; reflexivity. }
  destruct Ey as (Ey & Em & Ed & Eh & En & Es).
  apply four_digits_inj in Ey; [| lia | lia].
  apply two_digits_inj in Em; [| lia | lia].
  apply two_digits_inj in Ed; [| lia | lia].
  apply two_digits_inj in Eh; [| lia | lia].
  apply two_digits_inj in En; [| lia | lia].
  apply two_digits_inj in Es; [| lia | lia].
  unfold to_second. congruence.
Qed.

(** The timestamp reads nothing but the second. *)
Lemma strftime_seconds_same_second (dt1 dt2 : datetime) :
  to_second dt1 = to_second dt2 -> strftime_seconds dt1 = strftime_seconds dt2.
Proof.
  unfold to_second, strftime_seconds. intros E. injection E as -> -> -> -> -> ->.
  reflexivity.
Qed.

(** A snapshot name determines the source and the timestamp it is made of. *)
Lemma snapshot_name_inj (s1 s2 : string) (dt1 dt2 : datetime) :
  snapshot_name s1 (strftime_seconds dt1) = snapshot_name s2 (strftime_seconds dt2) ->
  s1 = s2 /\ strftime_seconds dt1 = strftime_seconds dt2.
Proof.
  unfold snapshot_name. intros E.
  rewrite <- !append_assoc in E.
  apply append_inv_length in E as [E1 E2];
    [| now rewrite !strftime_seconds_length].
  split; [| exact E2].
  assert (L : String.length s1 = String.length s2).
  { apply (f_equal String.length) in E1. rewrite !length_append in E1. lia. }
  apply append_inv_length in E1 as [E1 _]; [exact E1 | reflexivity].
Qed.

End SnapshotNames.

Section SnapshotNameClaims.
Import DbBackup Spec.

(** C6. A backup whose retention date can be computed issues one create
    request, for instances and clusters alike, and the identifier of the
    snapshot it asks for is the source identifier, then "-backup-", then the
    UTC clock reading written to the second; when the request is answered
    the result carries the same identifier.  With clock readings in one
    second, two different sources get two different identifiers; with
    clock readings in two different seconds, one source gets two different
    identifiers. *)
Theorem C6_snapshot_identifiers
    (source1 source2 : string) (utcnow1 utcnow2 : datetime) :
  valid_datetime utcnow1 -> valid_datetime utcnow2 ->
  let id1 := source1 ++ "-backup-" ++ strftime_seconds utcnow1 in
  let id2 := source2 ++ "-backup-" ++ strftime_seconds utcnow2 in
  (forall expiry create request,
     fst (backup_rds_instance source1 utcnow1 expiry create) = Some request \/
     fst (backup_rds_cluster source1 utcnow1 expiry create) = Some request ->
     SnapshotIdentifier request = id1) /\
  (forall expiry create result,
     snd (backup_rds_instance source1 utcnow1 expiry create) = Ok result \/
     snd (backup_rds_cluster source1 utcnow1 expiry create) = Ok result ->
     snapshot_id result = id1) /\
  (to_second utcnow1 = to_second utcnow2 -> source1 <> source2 -> id1 <> id2) /\
  (source1 = source2 -> to_second utcnow1 <> to_second utcnow2 -> id1 <> id2) /\
  (forall retention_date create,
     exists request,
       fst (backup_rds_instance source1 utcnow1 (Ok retention_date) create)
       = Some request /\
       SnapshotIdentifier request = id1 /\ SourceIdentifier request = source1 /\
       forall arn,
         create request = Ok arn ->
         exists result,
           snd (backup_rds_instance source1 utcnow1 (Ok retention_date) create)
           = Ok result /\
           snapshot_id result = id1 /\ snapshot_arn result = arn) /\
  (forall retention_date create,
     exists request,
       fst (backup_rds_cluster source1 utcnow1 (Ok retention_date) create)
       = Some request /\
       SnapshotIdentifier request = id1 /\ SourceIdentifier request = source1 /\
       forall arn,
         create request = Ok arn ->
         exists result,
           snd (backup_rds_cluster source1 utcnow1 (Ok retention_date) create)
           = Ok result /\
           snapshot_id result = id1 /\ snapshot_arn result = arn).
Proof.
  intros V1 V2 id1 id2. repeat match goal with |- _ /\ _ => split end.
  - intros expiry create request.
    unfold backup_rds_instance, backup_rds_cluster.
    destruct expiry as [d | x]; cbn [fst];
      intros [E | E]; try discriminate; injection E as <-; reflexivity.
  - intros expiry create result.
    unfold backup_rds_instance, backup_rds_cluster.
    destruct expiry as [d | x]; cbn [snd]; [| intros [E | E]; discriminate].
    intros [E | E];
      match type of E with
      | context [create ?rq] => destruct (create rq) as [arn | x]
      end; try discriminate; injection E as <-; reflexivity.
  - intros _ N E. apply snapshot_name_inj in E as [E _]. now destruct N.
  - intros _ N E. apply snapshot_name_inj in E as [_ E].
    apply N. now apply strftime_seconds_inj.
  - intros d create. unfold backup_rds_instance. cbn [fst snd].
    eexists. split; [reflexivity |]. cbn [SnapshotIdentifier SourceIdentifier].
    split; [reflexivity |]. split; [reflexivity |].
    intros arn ->. eexists. split; [reflexivity |]. split; reflexivity.
  - intros d create. unfold backup_rds_cluster. cbn [fst snd].
    eexists. split; [reflexivity |]. cbn [SnapshotIdentifier SourceIdentifier].
    split; [reflexivity |]. split; [reflexivity |].
    intros arn ->. eexists. split; [reflexivity |]. split; reflexivity.
Qed.

Lemma C6_snapshot_identifiers_witness :
  let t1 := {| year := 2025; month := 3; day := 9; hour := 23; minute := 59;
               second := 58; microsecond := 120 |} in
  let t2 := {| year := 2025; month := 3; day := 9; hour := 23; minute := 59;
               second := 59; microsecond := 120 |} in
  let retention_date :=
    {| year := 2025; month := 4; day := 8; hour := 23; minute := 59;
       second := 58; microsecond := 130 |} in
  let expiry := Ok retention_date in
  let create := fun _ : create_request => Ok "arn:aws:rds:eu-west-1:1:snapshot:s" in
  valid_datetime t1 /\ valid_datetime t2 /\
  SnapshotIdentifier <$> fst (backup_rds_instance "orders" t1 expiry create)
  = Some "orders-backup-2025-03-09-23-59-58" /\
  SnapshotIdentifier <$> fst (backup_rds_instance "orders" t2 expiry create)
  = Some "orders-backup-2025-03-09-23-59-59" /\
  "orders-backup-2025-03-09-23-59-58" <> "orders-backup-2025-03-09-23-59-59" /\
  (exists request,
     fst (backup_rds_cluster "orders" t1 expiry create) = Some request /\
     SnapshotIdentifier request = "orders-backup-2025-03-09-23-59-58") /\
  (exists result,
     snd (backup_rds_cluster "orders" t1 expiry create) = Ok result /\
     snapshot_id result = "orders-backup-2025-03-09-23-59-58").
Proof.
  intros t1 t2 retention_date expiry create.
  assert (V1 : valid_datetime t1) by (unfold valid_datetime; simpl; lia).
  assert (V2 : valid_datetime t2) by (unfold valid_datetime; simpl; lia).
  split; [exact V1 |]. split; [exact V2 |].
  split; [reflexivity |]. split; [reflexivity |].
  destruct (C6_snapshot_identifiers "orders" "orders" t1 t2 V1 V2)
    as (_ & _ & _ & D & _ & Cl).
  split; [apply D; [reflexivity | discriminate] |].
  destruct (Cl retention_date create) as (request & E & I & _ & R).
  split.
  - exists request. split; [exact E | exact I].
  - destruct (R _ eq_refl) as (result & Er & Ir & _).
    exists result. split; [exact Er | exact Ir].
Defined.

End SnapshotNameClaims.

(** ** The backup rotator: retention *)

Section Retention.
Import DbBackup Spec.

Lemma is_automated_tag_spec (t : tag) :
  is_automated_tag t = true <-> Key t = "BackupType" /\ Value t = "Automated".
Proof.
  unfold is_automated_tag. rewrite andb_true_iff, !String.eqb_eq. reflexivity.
Qed.

(** On a listed snapshot the test reads the tags, then the identifier. *)
Lemma is_automated_backup_snapshot_unfold (kind : snapshot_kind) (e : entry) :
  is_automated_backup_snapshot (listed kind e)
  = existsb is_automated_tag (entry_tags e) || contains "-backup-" (entry_id e).
Proof.
  unfold is_automated_backup_snapshot.
  change (default [] match TagList (listed kind e) with
                     | Some l => Some l
                     | None => Tags (listed kind e)
                     end) with (entry_tags e).
  destruct (existsb is_automated_tag (entry_tags e)); [reflexivity |].
  rewrite orb_false_l. destruct kind.
  - change (DBSnapshotIdentifier (listed instance_snapshot e)) with (Some (entry_id e)).
    change (DBClusterSnapshotIdentifier (listed instance_snapshot e))
      with (@None string).
    destruct (entry_id e); reflexivity.
  - change (DBSnapshotIdentifier (listed cluster_snapshot e)) with (@None string).
    change (DBClusterSnapshotIdentifier (listed cluster_snapshot e))
      with (Some (entry_id e)).
    destruct (entry_id e); reflexivity.
Qed.

(** On a listed snapshot the marker test is the marker. *)
Lemma is_automated_backup_snapshot_listed (kind : snapshot_kind) (e : entry) :
  is_automated_backup_snapshot (listed kind e) = true <-> carries_marker e.
Proof.
  rewrite is_automated_backup_snapshot_unfold, orb_true_iff, contains_spec.
  unfold carries_marker. rewrite existsb_exists.
  split; (intros [(t & I & A) | S]; [left | now right]); exists t; split; try exact I;
    now apply is_automated_tag_spec.
Qed.

Lemma selected_for_deletion_listed (kind : snapshot_kind) (c : Z) (e : entry) :
  selected_for_deletion c (listed kind e) = true <->
  carries_marker e /\ entry_created e < c.
Proof.
  unfold selected_for_deletion.
  rewrite andb_true_iff, is_automated_backup_snapshot_listed, Z.ltb_lt.
  reflexivity.
Qed.

(** A loop over listed snapshots never raises, and asks to delete the
    selected ones, in order. *)
Lemma cleanup_loop_listed (kind : snapshot_kind) (c : Z)
    (delete : delete_request -> result unit) (entries : list entry)
    (requests : list delete_request) (results : list cleanup_result) :
  exists results',
    cleanup_loop kind c delete (List.map (listed kind) entries) requests results
    = ((requests ++
        List.map (delete_of kind)
          (List.filter (fun e => selected_for_deletion c (listed kind e)) entries))%list,
       Ok results').
Proof.
  revert requests results.
  induction entries as [|e entries IH]; intros requests results.
  - exists results. simpl. now rewrite app_nil_r.
  - cbn [List.map cleanup_loop List.filter].
    destruct (selected_for_deletion c (listed kind e)) eqn:S.
    + assert (I : identifier kind (listed kind e) = Ok (entry_id e))
        by (destruct kind; reflexivity).
      rewrite I.
      match goal with
      | |- context [cleanup_loop _ _ _ _ ?rq ?rs] =>
          destruct (IH rq rs) as [results' E]
      end.
      exists results'. rewrite E. cbn [List.map]. now rewrite <- app_assoc.
    + apply IH.
Qed.

End Retention.

(** On the calendar the cutoff is the difference. *)
Lemma minus_days_on_calendar (r : DbBackup.rds) :
  Spec.on_calendar r ->
  DbBackup.minus_days (DbBackup.utcnow r) (DbBackup.RETENTION_DAYS r)
  = Ok (Spec.cutoff r).
Proof.
  intros [A [L U]]. unfold DbBackup.minus_days.
  destruct (Z.ltb_spec 999999999 (Z.abs (DbBackup.RETENTION_DAYS r))) as [B|_]; [lia |].
  fold (Spec.cutoff r).
  destruct (Z.ltb_spec (Spec.cutoff r) DbBackup.datetime_min) as [B|_]; [lia |].
  destruct (Z.ltb_spec DbBackup.datetime_max (Spec.cutoff r)) as [B|_]; [lia |].
  reflexivity.
Qed.

Section RetentionClaims.
Import DbBackup Spec.

(** C2. During cleanup the delete requests issued are those for the listed
    manual snapshots, instance snapshots first and cluster snapshots next,
    that are selected; a snapshot is selected if and only if it carries the
    automated-backup marker (a tag BackupType=Automated, or else an
    identifier containing "-backup-") and its creation time is strictly
    before now minus the retention days.  So a marked snapshot created
    exactly at now minus the retention days is not selected, and one created
    one second earlier is. *)
Theorem C2_cleanup_selection (r : rds) (instances clusters : list entry) :
  on_calendar r ->
  describe_db_snapshots r = Ok (List.map (listed instance_snapshot) instances) ->
  describe_db_cluster_snapshots r = Ok (List.map (listed cluster_snapshot) clusters) ->
  let selected kind e := selected_for_deletion (cutoff r) (listed kind e) in
  fst (cleanup_old_snapshots r)
  = (List.map (delete_of instance_snapshot)
       (List.filter (selected instance_snapshot) instances) ++
     List.map (delete_of cluster_snapshot)
       (List.filter (selected cluster_snapshot) clusters))%list /\
  (forall kind e,
      selected kind e = true <->
      carries_marker e /\
      entry_created e < utcnow r - timedelta_days (RETENTION_DAYS r)) /\
  (forall kind e,
      carries_marker e ->
      entry_created e = utcnow r - timedelta_days (RETENTION_DAYS r) ->
      selected kind e = false) /\
  (forall kind e,
      carries_marker e ->
      entry_created e
      = utcnow r - timedelta_days (RETENTION_DAYS r) - timedelta_seconds 1 ->
      selected kind e = true).
Proof.
  intros OC DI DC selected.
  assert (S : forall kind e,
             selected kind e = true <->
             carries_marker e /\
             entry_created e < utcnow r - timedelta_days (RETENTION_DAYS r)).
  { intros kind e. apply selected_for_deletion_listed. }
  split; [| split; [exact S | split]].
  - unfold cleanup_old_snapshots. rewrite (minus_days_on_calendar r OC), DI.
    destruct (cleanup_loop_listed instance_snapshot (cutoff r) (delete_snapshot r)
                instances [] []) as [results1 E1].
    rewrite E1, DC.
    match goal with
    | |- context [cleanup_loop _ _ _ _ ?rq ?rs] =>
        destruct (cleanup_loop_listed cluster_snapshot (cutoff r) (delete_snapshot r)
                    clusters rq rs) as [results2 E2]
    end.
    rewrite E2. reflexivity.
  - intros kind e M C. destruct (selected kind e) eqn:X; [| reflexivity].
    apply S in X as [_ X]. lia.
  - intros kind e M C. apply S. split; [exact M |].
    unfold timedelta_seconds in C. lia.
Qed.

Lemma C2_cleanup_selection_witness :
  let automated := {| Key := "BackupType"; Value := "Automated" |} in
  let now := 1760000000000000 in
  let at_cutoff :=
    {| entry_id := "orders-snap-a"; entry_tags := [automated];
       entry_created := now - 30 * 86400 * 1000000 |} in
  let one_second_older :=
    {| entry_id := "orders-snap-b"; entry_tags := [automated];
       entry_created := now - 30 * 86400 * 1000000 - 1000000 |} in
  let by_hand :=
    {| entry_id := "before-migration"; entry_tags := [];
       entry_created := 0 |} in
  let named :=
    {| entry_id := "cluster-backup-2020-01-01-00-00-00"; entry_tags := [];
       entry_created := 1577836800000000 |} in
  let r :=
    {| utcnow := now;
       RETENTION_DAYS := 30;
       describe_db_snapshots :=
         Ok (List.map (listed instance_snapshot)
               [at_cutoff; one_second_older; by_hand]);
       describe_db_cluster_snapshots :=
         Ok (List.map (listed cluster_snapshot) [named]);
       delete_snapshot := fun _ => Ok tt |} in
  fst (cleanup_old_snapshots r)
  = [ {| delete_kind := instance_snapshot; delete_id := "orders-snap-b" |};
      {| delete_kind := cluster_snapshot;
         delete_id := "cluster-backup-2020-01-01-00-00-00" |} ].
Proof.
  intros automated now at_cutoff one_second_older by_hand named r.
  assert (OC : on_calendar r).
  { unfold on_calendar, cutoff, timedelta_days, datetime_min, datetime_max, r, now.
    cbn [RETENTION_DAYS utcnow]. lia. }
  exact (proj1 (C2_cleanup_selection r [at_cutoff; one_second_older; by_hand]
                  [named] OC eq_refl eq_refl)).
Defined.

End RetentionClaims.

(** ** The cost optimizer: downsizing *)

Section Downsizing.
Import CostOptimizer Spec.
Context {F : Type} `{Num F}.

(** Every entry of the downsize table names a type. *)
Lemma downsize_map_named (k s : string) :
  downsize_map !! k = Some s -> truthy_str s = true.
Proof.
  intros L.
  assert (A : map_Forall (fun _ v => truthy_str v = true) downsize_map).
  { apply (bool_decide_unpack _). vm_compute. exact I. }
  exact (A k s L).
Qed.

(** One turn of the loop keeps what was found and adds at most the
    recommendation for the instance at hand. *)
Lemma analyze_instance_spec (thr : F) (metrics : string -> result (list F))
    (recs : list recommendation) (i : instance) :
  analyze_instance thr metrics recs i
  = (recs ++
     match suggest_smaller_instance_type (InstanceType i) with
     | Some s =>
         if ltb (cpu_of metrics i) thr
         then [downsizing (cpu_of metrics i) i s] else []
     | None => []
     end)%list.
Proof.
  unfold analyze_instance, cpu_of.
  destruct (ltb _ thr).
  - destruct (suggest_smaller_instance_type (InstanceType i)) as [s|] eqn:S.
    + cbn [truthy_opt_str]. rewrite (downsize_map_named _ _ S). reflexivity.
    + cbn [truthy_opt_str]. now rewrite app_nil_r.
  - destruct (suggest_smaller_instance_type (InstanceType i));
      now rewrite app_nil_r.
Qed.

(** A recommendation is in the list after the loop over some instances iff
    it was there before or is the downsizing of one of them that is below
    the threshold and has a table entry. *)
Lemma analyze_instances_In (thr : F) (metrics : string -> result (list F))
    (l : list instance) (recs : list recommendation) (r : recommendation) :
  In r (fold_left (analyze_instance thr metrics) l recs) <->
  In r recs \/
  exists i s, In i l /\ downsize_map !! InstanceType i = Some s /\
              ltb (cpu_of metrics i) thr = true /\
              r = downsizing (cpu_of metrics i) i s.
Proof.
  revert recs. induction l as [|i l IH]; intros recs.
  - simpl. split; [now left | intros [I | (i & s & [] & _)]; exact I].
  - cbn [fold_left]. rewrite IH, analyze_instance_spec, in_app_iff.
    unfold suggest_smaller_instance_type. split.
    + intros [[I | I] | (i' & s & I & R)].
      * now left.
      * right. destruct (downsize_map !! InstanceType i) as [s|] eqn:D; [| destruct I].
        destruct (ltb (cpu_of metrics i) thr) eqn:L; [| destruct I].
        destruct I as [<- | []]. exists i, s. repeat split; auto. now left.
      * right. exists i', s. split; [now right | exact R].
    + intros [I | (i' & s & [<- | I] & D & L & ->)].
      * left. now left.
      * left. right. rewrite D, L. now left.
      * right. exists i', s. auto.
Qed.

Lemma analyze_reservations_In (thr : F) (metrics : string -> result (list F))
    (rs : list reservation) (recs : list recommendation) (r : recommendation) :
  In r (fold_left
          (fun recs r => fold_left (analyze_instance thr metrics) (Instances r) recs)
          rs recs) <->
  In r recs \/
  exists i s, In i (List.concat (List.map Instances rs)) /\
              downsize_map !! InstanceType i = Some s /\
              ltb (cpu_of metrics i) thr = true /\
              r = downsizing (cpu_of metrics i) i s.
Proof.
  revert recs. induction rs as [|x rs IH]; intros recs.
  - simpl. split; [now left | intros [I | (i & s & [] & _)]; exact I].
  - cbn [fold_left List.map List.concat]. rewrite IH, analyze_instances_In. split.
    + intros [[I | (i & s & I & R)] | (i & s & I & R)].
      * now left.
      * right. exists i, s. split; [apply in_or_app; now left | exact R].
      * right. exists i, s. split; [apply in_or_app; now right | exact R].
    + intros [I | (i & s & I & R)].
      * left. now left.
      * apply in_app_or in I as [I | I].
        -- left. right. exists i, s. auto.
        -- right. exists i, s. auto.
Qed.

(** The recommendations of a run, said at once. *)
Lemma analyze_ec2_instances_In (thr : F) (describe : result (list reservation))
    (metrics : string -> result (list F)) (r : recommendation) :
  In r (analyze_ec2_instances thr describe metrics) <->
  exists i s, In i (instances_of describe) /\
              downsize_map !! InstanceType i = Some s /\
              ltb (cpu_of metrics i) thr = true /\
              r = downsizing (cpu_of metrics i) i s.
Proof.
  unfold analyze_ec2_instances, instances_of. destruct describe as [rs | e].
  - cbn [try_except mbind result_bind Py.bind mret result_ret].
    rewrite analyze_reservations_In. split.
    + intros [[] | R]. exact R.
    + intros R. now right.
  - cbn. split; [intros [] | intros (i & s & [] & _)].
Qed.

End Downsizing.

(** ** Exact arithmetic *)

Section Rationals.

Lemma Qltb_lt (x y : Q) : Qltb x y = true <-> (x < y)%Q.
Proof.
  unfold Qltb. rewrite negb_true_iff, <- not_true_iff_false, Qle_bool_iff.
  split; [apply Qnot_le_lt | apply Qlt_not_le].
Qed.

Lemma Qltb_ge (x y : Q) : Qltb x y = false <-> (y <= x)%Q.
Proof.
  unfold Qltb. rewrite negb_false_iff. apply Qle_bool_iff.
Qed.

End Rationals.

(** Both arithmetics obey the law of the comparison. *)
#[export] Instance Q_NumOrder : NumOrder Q.
Proof.
  constructor. intros x. apply Qltb_ge. apply Qle_refl.
Qed.

Lemma SFltb_irrefl (f : SpecFloat.spec_float) : SpecFloat.SFltb f f = false.
Proof.
  unfold SpecFloat.SFltb, SpecFloat.SFcompare.
  destruct f as [s | s | | s m e]; try reflexivity; try (destruct s; reflexivity).
  destruct s; rewrite Z.compare_refl, ?Pos.compare_cont_refl, ?Pos.compare_refl;
    reflexivity.
Qed.

#[export] Instance float_NumOrder : NumOrder float.
Proof.
  constructor. intros x. cbn [ltb float_Num]. rewrite FloatAxioms.ltb_spec.
  apply SFltb_irrefl.
Qed.

Section DownsizingClaims.
Import CostOptimizer Spec.

(** In either arithmetic, an instance whose average is the threshold is
    not flagged. *)
Lemma at_threshold_not_flagged {F} `{NumOrder F} (threshold : F)
    (describe : result (list reservation)) (metrics : string -> result (list F))
    (i : instance) :
  cpu_of metrics i = threshold ->
  ~ flags (analyze_ec2_instances threshold describe metrics) i.
Proof.
  intros E (r & I & Eid & _).
  apply analyze_ec2_instances_In in I as (j & s & _ & _ & L & ->).
  cbn [instance_id downsizing] in Eid.
  assert (C : cpu_of metrics j = cpu_of metrics i) by (unfold cpu_of; now rewrite Eid).
  rewrite C, E, ltb_irrefl in L. discriminate.
Qed.

(** In either arithmetic, a listed instance without datapoints is flagged
    when 0.0 is below the threshold and the table has an entry. *)
Lemma silent_instance_flagged {F} `{Num F} (threshold : F)
    (reservations : list reservation) (metrics : string -> result (list F))
    (i : instance) (smaller : string) :
  In i (instances_of (Ok reservations)) ->
  metrics (InstanceId i) = Ok [] ->
  ltb (of_Z 0) threshold = true ->
  downsize_map !! InstanceType i = Some smaller ->
  In (downsizing (of_Z 0) i smaller)
     (analyze_ec2_instances threshold (Ok reservations) metrics).
Proof.
  intros I M T D.
  assert (C : cpu_of metrics i = of_Z 0) by (unfold cpu_of; now rewrite M).
  apply analyze_ec2_instances_In. exists i, smaller. rewrite C. auto.
Qed.




(** C10. A listed instance whose metric query answers no datapoint gets the
    average 0.0, the average of a machine that reports 0 throughout; the
    threshold being positive, it is flagged for downsizing to the type the
    table gives for its own, whenever the table has one. *)
Theorem C10_no_datapoints_flagged
    (threshold : Q) (reservations : list reservation)
    (metrics : string -> result (list Q)) (i : instance) (smaller : string) :
  In i (instances_of (Ok reservations)) ->
  metrics (InstanceId i) = Ok [] ->
  (0 < threshold)%Q ->
  downsize_map !! InstanceType i = Some smaller ->
  cpu_of metrics i = 0%Q /\
  get_average_cpu_utilization (Ok []) = get_average_cpu_utilization (Ok [0%Q]) /\
  In (downsizing 0%Q i smaller)
     (analyze_ec2_instances threshold (Ok reservations) metrics) /\
  flags (analyze_ec2_instances threshold (Ok reservations) metrics) i.
Proof.
  intros I M T D.
  assert (C : cpu_of metrics i = 0%Q) by (unfold cpu_of; now rewrite M).
  assert (R : In (downsizing 0%Q i smaller)
                 (analyze_ec2_instances threshold (Ok reservations) metrics)).
  { apply analyze_ec2_instances_In. exists i, smaller.
    rewrite C. repeat split; auto. now apply Qltb_lt. }
  split; [exact C |]. split; [reflexivity |]. split; [exact R |].
  exists (downsizing 0%Q i smaller). repeat split. exact R.
Qed.

Lemma C10_no_datapoints_flagged_witness :
  let silent := {| InstanceId := "i-0d"; InstanceType := "m5.xlarge" |} in
  let reservations := [ {| Instances := [silent] |} ] in
  let metrics := fun _ : string => Ok (@nil Q) in
  In silent (instances_of (Ok reservations)) /\
  analyze_ec2_instances (load_UTILIZATION_THRESHOLD None) (Ok reservations) metrics
  = [ {| instance_id := "i-0d"; current_type := "m5.xlarge";
         suggested_type := "m5.large"; current_cpu_utilization := 0%Q;
         monthly_savings := 87;
         recommendation_text := "Downsize from m5.xlarge to m5.large" |} ] /\
  flags (analyze_ec2_instances (load_UTILIZATION_THRESHOLD None) (Ok reservations)
           metrics) silent.
Proof.
  intros silent reservations metrics.
  assert (I : In silent (instances_of (Ok reservations))) by (left; reflexivity).
  split; [exact I |]. split; [vm_compute; reflexivity |].
  apply (C10_no_datapoints_flagged (load_UTILIZATION_THRESHOLD None) reservations
           metrics silent "m5.large" I eq_refl); reflexivity.
Defined.

(** In binary64 too: at the default threshold, an instance whose datapoints
    average exactly 20.0 is not flagged, one just below is, and one without
    datapoints is. *)
Example threshold_binary64 :
  let describe :=
    Ok [ {| Instances :=
              [ {| InstanceId := "i-0a"; InstanceType := "t3.large" |};
                {| InstanceId := "i-0b"; InstanceType := "t3.large" |};
                {| InstanceId := "i-0c"; InstanceType := "c5.xlarge" |} ] |} ] in
  let metrics := fun id : string =>
    if String.eqb id "i-0a" then Ok [15; 25]%float
    else if String.eqb id "i-0b" then Ok [19.5; 20]%float
    else Ok [] in
  List.map (fun r => (instance_id r, suggested_type r, monthly_savings r))
    (analyze_ec2_instances (F:=float) (load_UTILIZATION_THRESHOLD None) describe metrics)
  = [ ("i-0b", "t3.medium", 33); ("i-0c", "c5.large", 77) ].
Proof. vm_compute. reflexivity. Qed.

End DownsizingClaims.

(** ** The compliance scorer *)

Section Scorer.
Import ComplianceChecker Spec.
Context {F : Type} `{Num F}.

Lemma or_int_0_r (a : Z) : or_int a 0 = a.
Proof. unfold or_int, truthy_int. destruct (Z.eqb_spec a 0); simpl; congruence. Qed.

Lemma or_int_0_l (a : Z) : or_int 0 a = a.
Proof. reflexivity. Qed.

(** Reading an integer entry of a check result. *)
Lemma get0_counts_of (tk ck k : string) (c : category) :
  get0 (counts_of tk ck c) k
  = if String.eqb k tk then total c
    else if String.eqb k ck then compliant c else 0.
Proof.
  unfold get0, counts_of.
  destruct (String.eqb_spec k tk) as [->|N1].
  - now rewrite lookup_insert_eq.
  - rewrite lookup_insert_ne by congruence.
    destruct (String.eqb_spec k ck) as [->|N2].
    + now rewrite lookup_singleton_eq.
    + now rewrite lookup_singleton_ne by congruence.
Qed.

Local Ltac read_counts :=
  rewrite !get0_counts_of; cbn [String.eqb Ascii.eqb Bool.eqb];
  rewrite ?or_int_0_r, ?or_int_0_l; reflexivity.

(** Each turn of the loop over the weights takes in the category of its
    check. *)
Lemma score_check_tagging (a b c d e : category) (w : F) (acc : F * F) :
  score_check (custom_counts_of a b c d e) acc ("tagging_compliance", w)
  = accumulate a w acc.
Proof.
  destruct acc as [ts tw]. unfold score_check, accumulate.
  change (custom_counts_of a b c d e !! "tagging_compliance")
    with (Some (counts_of "total_resources" "compliant_resources" a)).
  cbn [default from_option id fst snd]. read_counts.
Qed.

Lemma score_check_security_groups (a b c d e : category) (w : F) (acc : F * F) :
  score_check (custom_counts_of a b c d e) acc ("security_groups", w)
  = accumulate b w acc.
Proof.
  destruct acc as [ts tw]. unfold score_check, accumulate.
  change (custom_counts_of a b c d e !! "security_groups")
    with (Some (counts_of "total_security_groups" "compliant_security_groups" b)).
  cbn [default from_option id fst snd]. read_counts.
Qed.

Lemma score_check_s3 (a b c d e : category) (w : F) (acc : F * F) :
  score_check (custom_counts_of a b c d e) acc ("s3_bucket_policies", w)
  = accumulate c w acc.
Proof.
  destruct acc as [ts tw]. unfold score_check, accumulate.
  change (custom_counts_of a b c d e !! "s3_bucket_policies")
    with (Some (counts_of "total_buckets" "compliant_buckets" c)).
  cbn [default from_option id fst snd]. read_counts.
Qed.

Lemma score_check_encryption (a b c d e : category) (w : F) (acc : F * F) :
  score_check (custom_counts_of a b c d e) acc ("encryption_status", w)
  = accumulate d w acc.
Proof.
  destruct acc as [ts tw]. unfold score_check, accumulate.
  change (custom_counts_of a b c d e !! "encryption_status")
    with (Some (counts_of "total_resources" "encrypted_resources" d)).
  cbn [default from_option id fst snd]. read_counts.
Qed.

Lemma score_check_public_access (a b c d e : category) (w : F) (acc : F * F) :
  score_check (custom_counts_of a b c d e) acc ("public_access", w)
  = accumulate e w acc.
Proof.
  destruct acc as [ts tw]. unfold score_check, accumulate.
  change (custom_counts_of a b c d e !! "public_access")
    with (Some (counts_of "total_resources" "private_resources" e)).
  cbn [default from_option id fst snd]. read_counts.
Qed.

(** The score of well-formed inputs: the six categories are taken in, rules
    first, and the score is divided by the weight when some was applied. *)
Lemma calculate_compliance_score_unfold (r a b c d e : category) :
  calculate_compliance_score (rule_counts_of r) (custom_counts_of a b c d e)
  = let acc :=
      accumulate e (lit 5 100)
        (accumulate d (lit 10 100)
           (accumulate c (lit 15 100)
              (accumulate b (lit 15 100)
                 (accumulate a (lit 15 100)
                    (accumulate r (lit 4 10) (of_Z 0, of_Z 0)))))) in
    if ltb (of_Z 0) (snd acc) then div (fst acc) (snd acc) else of_Z 0.
Proof.
  unfold calculate_compliance_score, score_body.
  change (get0 (rule_counts_of r) "total_rules") with (total r).
  change (getitem (rule_counts_of r) "compliant_rules") with (Ok (compliant r)).
  change (getitem (rule_counts_of r) "total_rules") with (Ok (total r)).
  assert (E : (if 0 <? total r
               then compliant_rules ← Ok (compliant r);
                    total_rules ← Ok (total r);
                    mret (add (of_Z 0)
                            (mul (mul (int_div compliant_rules total_rules) (of_Z 100))
                               (lit 4 10)),
                          add (of_Z 0) (lit 4 10))
               else mret (of_Z 0, of_Z 0))
              = Ok (accumulate r (lit 4 10) (of_Z 0, of_Z 0))).
  { unfold accumulate. destruct (0 <? total r); reflexivity. }
  rewrite E. cbn [mbind result_bind Py.bind].
  cbn [check_weights fold_left].
  rewrite score_check_tagging, score_check_security_groups, score_check_s3,
    score_check_encryption, score_check_public_access.
  cbv zeta.
  destruct (accumulate e _ _) as [ts tw]. cbn [fst snd].
  destruct (ltb (of_Z 0) tw); reflexivity.
Qed.

End Scorer.

Section ScorerExact.
Import ComplianceChecker Spec.
Local Open Scope Q_scope.

(** In exact arithmetic, taking a category in adds its two parts. *)
Lemma accumulate_parts (c : category) (w : Q) (acc : Q * Q) :
  (0 <= total c)%Z ->
  fst (accumulate c w acc) == fst acc + score_part (c, w) /\
  snd (accumulate c w acc) == snd acc + weight_part (c, w).
Proof.
  intros T. unfold accumulate, score_part, weight_part. cbn [fst snd].
  destruct (Z.ltb_spec 0 (total c)) as [P|P].
  - destruct (Z.eqb_spec (total c) 0) as [E|_]; [lia |].
    cbn [fst snd]. split; reflexivity.
  - destruct (Z.eqb_spec (total c) 0) as [_|E]; [| lia].
    split; ring.
Qed.

Lemma category_score_bounds (c : category) :
  well_counted c -> (total c <> 0)%Z -> 0 <= category_score c <= 100.
Proof.
  intros [C T] N. unfold category_score.
  assert (P : 0 < inject_Z (total c)).
  { change 0 with (inject_Z 0). rewrite <- Zlt_Qlt. lia. }
  assert (C0 : 0 <= inject_Z (compliant c)).
  { change 0 with (inject_Z 0). now rewrite <- Zle_Qle. }
  assert (CT : inject_Z (compliant c) <= inject_Z (total c)).
  { now rewrite <- Zle_Qle. }
  assert (L : 0 <= inject_Z (compliant c) / inject_Z (total c)).
  { apply Qle_shift_div_l; [exact P | lra]. }
  assert (U : inject_Z (compliant c) / inject_Z (total c) <= 1).
  { apply Qle_shift_div_r; [exact P | lra]. }
  split; lra.
Qed.

Lemma parts_bounds (cw : category * Q) :
  well_counted (fst cw) -> 0 <= snd cw ->
  0 <= weight_part cw /\ 0 <= score_part cw <= 100 * weight_part cw.
Proof.
  intros W P. unfold weight_part, score_part.
  destruct (Z.eqb_spec (total (fst cw)) 0) as [E|N]; [lra |].
  destruct (category_score_bounds (fst cw) W N) as [L U].
  split; [exact P |]. split; nra.
Qed.

Lemma sums_bounds (cats : list (category * Q)) :
  Forall (fun cw => well_counted (fst cw) /\ 0 <= snd cw) cats ->
  0 <= Qsum (List.map weight_part cats) /\
  0 <= Qsum (List.map score_part cats)
    <= 100 * Qsum (List.map weight_part cats).
Proof.
  induction 1 as [|cw cats [W P] _ IH]; cbn [List.map Qsum fold_right].
  - lra.
  - fold (Qsum (List.map weight_part cats)) (Qsum (List.map score_part cats)).
    destruct (parts_bounds cw W P) as (A & B & C). lra.
Qed.

(** A weighted average of percentages is a percentage. *)
Lemma weighted_average_bounds (cats : list (category * Q)) :
  Forall (fun cw => well_counted (fst cw) /\ 0 <= snd cw) cats ->
  0 <= weighted_average cats <= 100.
Proof.
  intros W. destruct (sums_bounds cats W) as (D & N0 & N1).
  unfold weighted_average. cbv zeta.
  destruct (Qeq_bool (Qsum (List.map weight_part cats)) 0) eqn:Z.
  - lra.
  - assert (P : 0 < Qsum (List.map weight_part cats)).
    { apply Qeq_bool_neq in Z. apply Qle_lteq in D as [D|D]; [exact D |].
      destruct Z. now symmetry. }
    split.
    + apply Qle_shift_div_l; [exact P | lra].
    + apply Qle_shift_div_r; [exact P | lra].
Qed.

(** The score of well-formed inputs is the weighted average of the
    specification. *)
Lemma score_is_weighted_average (r a b c d e : category) :
  (0 <= total r)%Z -> (0 <= total a)%Z -> (0 <= total b)%Z ->
  (0 <= total c)%Z -> (0 <= total d)%Z -> (0 <= total e)%Z ->
  calculate_compliance_score (F:=Q) (rule_counts_of r) (custom_counts_of a b c d e)
  == weighted_average (weighted_categories r a b c d e).
Proof.
  intros Tr Ta Tb Tc Td Te. rewrite calculate_compliance_score_unfold. cbv zeta.
  change (@lit Q Q_Num 4 10) with (4 # 10).
  change (@lit Q Q_Num 15 100) with (15 # 100).
  change (@lit Q Q_Num 10 100) with (10 # 100).
  change (@lit Q Q_Num 5 100) with (5 # 100).
  destruct (accumulate_parts r (4 # 10) (of_Z 0, of_Z 0) Tr) as [S0 W0].
  set (acc0 := accumulate r (4 # 10) (of_Z 0, of_Z 0)) in *.
  destruct (accumulate_parts a (15 # 100) acc0 Ta) as [S1 W1].
  set (acc1 := accumulate a (15 # 100) acc0) in *.
  destruct (accumulate_parts b (15 # 100) acc1 Tb) as [S2 W2].
  set (acc2 := accumulate b (15 # 100) acc1) in *.
  destruct (accumulate_parts c (15 # 100) acc2 Tc) as [S3 W3].
  set (acc3 := accumulate c (15 # 100) acc2) in *.
  destruct (accumulate_parts d (10 # 100) acc3 Td) as [S4 W4].
  set (acc4 := accumulate d (10 # 100) acc3) in *.
  destruct (accumulate_parts e (5 # 100) acc4 Te) as [S5 W5].
  set (acc5 := accumulate e (5 # 100) acc4) in *.
  unfold weighted_average, weighted_categories. cbv zeta.
  cbn [List.map Qsum fold_right].
  set (s0 := score_part (r, 4 # 10)) in *. set (w0 := weight_part (r, 4 # 10)) in *.
  set (s1 := score_part (a, 15 # 100)) in *. set (w1 := weight_part (a, 15 # 100)) in *.
  set (s2 := score_part (b, 15 # 100)) in *. set (w2 := weight_part (b, 15 # 100)) in *.
  set (s3 := score_part (c, 15 # 100)) in *. set (w3 := weight_part (c, 15 # 100)) in *.
  set (s4 := score_part (d, 10 # 100)) in *. set (w4 := weight_part (d, 10 # 100)) in *.
  set (s5 := score_part (e, 5 # 100)) in *. set (w5 := weight_part (e, 5 # 100)) in *.
  assert (ES : fst acc5 == s0 + (s1 + (s2 + (s3 + (s4 + (s5 + 0)))))).
  { rewrite S5, S4, S3, S2, S1, S0. cbn [fst]. change (of_Z 0%Z) with 0. ring. }
  assert (EW : snd acc5 == w0 + (w1 + (w2 + (w3 + (w4 + (w5 + 0)))))).
  { rewrite W5, W4, W3, W2, W1, W0. cbn [snd]. change (of_Z 0%Z) with 0. ring. }
  change (of_Z 0%Z) with 0. change (@ltb Q Q_Num) with Qltb.
  change (@div Q Q_Num) with Qdiv.
  destruct (Qltb 0 (snd acc5)) eqn:L.
  - apply Qltb_lt in L.
    destruct (Qeq_bool (w0 + (w1 + (w2 + (w3 + (w4 + (w5 + 0)))))) 0) eqn:Z.
    + apply Qeq_bool_iff in Z. rewrite EW, Z in L. now apply Qlt_irrefl in L.
    + now rewrite ES, EW.
  - apply Qltb_ge in L.
    assert (D : 0 <= w0 + (w1 + (w2 + (w3 + (w4 + (w5 + 0)))))).
    { assert (forall x w, 0 <= w -> 0 <= weight_part (x, w)) as P.
      { intros x w Pw. unfold weight_part. cbn [fst snd].
        destruct (total x =? 0)%Z; lra. }
      assert (0 <= w0) by (apply P; discriminate).
      assert (0 <= w1) by (apply P; discriminate).
      assert (0 <= w2) by (apply P; discriminate).
      assert (0 <= w3) by (apply P; discriminate).
      assert (0 <= w4) by (apply P; discriminate).
      assert (0 <= w5) by (apply P; discriminate).
      lra. }
    assert (Z : w0 + (w1 + (w2 + (w3 + (w4 + (w5 + 0))))) == 0).
    { rewrite EW in L. lra. }
    apply Qeq_bool_iff in Z. rewrite Z. reflexivity.
Qed.

End ScorerExact.

Section ScorerClaims.
Import ComplianceChecker Spec.
Local Open Scope Q_scope.

(** C1. In exact arithmetic, for every rule-compliance structure and every
    five custom-check results, the score is the sum over the six categories
    of category score times weight, divided by the sum of the weights
    applied, with weights 0.40, 0.15, 0.15, 0.15, 0.10 and 0.05; a category
    with zero evaluated resources adds zero to the numerator and to the
    denominator; and the score is 0.0 when every category has zero
    resources.  In whatever arithmetic the floats are computed, binary64
    included, the score is the quotient of the two running sums, which a
    category with zero resources leaves as they are, and it is 0.0 when
    every category has zero resources.  (The binary64 quotient is not
    always the exact one: see the counterexample below.) *)
Theorem C1_score_weighted_average (r a b c d e : category) :
  (0 <= total r)%Z -> (0 <= total a)%Z -> (0 <= total b)%Z ->
  (0 <= total c)%Z -> (0 <= total d)%Z -> (0 <= total e)%Z ->
  let score :=
    calculate_compliance_score (F:=Q) (rule_counts_of r) (custom_counts_of a b c d e) in
  score == weighted_average (weighted_categories r a b c d e) /\
  (forall cw, total (fst cw) = 0%Z -> score_part cw = 0 /\ weight_part cw = 0) /\
  (forall cw, total (fst cw) <> 0%Z ->
     score_part cw = category_score (fst cw) * snd cw /\ weight_part cw = snd cw) /\
  (total r = 0%Z -> total a = 0%Z -> total b = 0%Z -> total c = 0%Z ->
   total d = 0%Z -> total e = 0%Z -> score = 0) /\
  (forall (F : Type) (N : Num F),
     calculate_compliance_score (F:=F) (rule_counts_of r) (custom_counts_of a b c d e)
     = let sums :=
         accumulate e (lit 5 100)
           (accumulate d (lit 10 100)
              (accumulate c (lit 15 100)
                 (accumulate b (lit 15 100)
                    (accumulate a (lit 15 100)
                       (accumulate r (lit 4 10) (of_Z 0, of_Z 0)))))) in
       if ltb (of_Z 0) (snd sums) then div (fst sums) (snd sums) else of_Z 0) /\
  (forall (F : Type) (N : Num F) (x : category) (w : F) (sums : F * F),
     total x = 0%Z -> accumulate x w sums = sums) /\
  (forall (F : Type) (N : Num F) (O : @NumOrder F N),
     total r = 0%Z -> total a = 0%Z -> total b = 0%Z -> total c = 0%Z ->
     total d = 0%Z -> total e = 0%Z ->
     calculate_compliance_score (F:=F) (rule_counts_of r) (custom_counts_of a b c d e)
     = of_Z 0).
Proof.
  intros Tr Ta Tb Tc Td Te score. repeat match goal with |- _ /\ _ => split end.
  - now apply score_is_weighted_average.
  - intros cw Z. unfold score_part, weight_part. rewrite Z. split; reflexivity.
  - intros cw N. unfold score_part, weight_part.
    destruct (Z.eqb_spec (total (fst cw)) 0) as [Z|_]; [contradiction |].
    split; reflexivity.
  - intros Zr Za Zb Zc Zd Ze. unfold score.
    rewrite calculate_compliance_score_unfold. unfold accumulate.
    rewrite Zr, Za, Zb, Zc, Zd, Ze. reflexivity.
  - intros F N. apply calculate_compliance_score_unfold.
  - intros F N x w sums Z. unfold accumulate. now rewrite Z.
  - intros F N O Zr Za Zb Zc Zd Ze.
    rewrite calculate_compliance_score_unfold. unfold accumulate.
    rewrite Zr, Za, Zb, Zc, Zd, Ze. cbn [Z.ltb Z.compare fst snd].
    now rewrite ltb_irrefl.
Qed.

Lemma C1_score_weighted_average_witness :
  let rules := {| total := 10; compliant := 8 |} in
  let tagging := {| total := 4; compliant := 3 |} in
  let none := {| total := 0; compliant := 0 |} in
  let buckets := {| total := 2; compliant := 2 |} in
  let public_access := {| total := 1; compliant := 1 |} in
  calculate_compliance_score (F:=Q) (rule_counts_of rules)
    (custom_counts_of tagging none buckets none public_access)
  == 253 # 3.
Proof.
  intros rules tagging none buckets public_access.
  assert (P : forall x : category,
             (0 <=? total x)%Z = true -> (0 <= total x)%Z)
    by (intros x; apply Z.leb_le).
  destruct (C1_score_weighted_average rules tagging none buckets none public_access
              (P rules eq_refl) (P tagging eq_refl) (P none eq_refl)
              (P buckets eq_refl) (P none eq_refl) (P public_access eq_refl))
    as [E _].
  rewrite E. reflexivity.
Defined.

(** C9, in exact arithmetic.  When in every category the compliant count is
    non-negative and does not exceed the total count, the score computed
    with exact rational arithmetic lies between 0 and 100.  (Computed in
    binary64, as the interpreter does, the quotient is not clamped and can
    exceed 100 by a rounding error: see the evaluation below.) *)
Theorem C9_score_in_range_exact (r a b c d e : category) :
  well_counted r -> well_counted a -> well_counted b ->
  well_counted c -> well_counted d -> well_counted e ->
  0 <= calculate_compliance_score (F:=Q) (rule_counts_of r) (custom_counts_of a b c d e)
    <= 100.
Proof.
  intros Wr Wa Wb Wc Wd We.
  rewrite score_is_weighted_average; try (unfold well_counted in *; lia).
  apply weighted_average_bounds. unfold weighted_categories.
  repeat (constructor; [cbn [fst snd]; split; [assumption | discriminate] |]).
  constructor.
Qed.

Lemma C9_score_in_range_exact_witness :
  let all := {| total := 1; compliant := 1 |} in
  let none := {| total := 0; compliant := 0 |} in
  well_counted all /\ well_counted none /\
  0 <= calculate_compliance_score (F:=Q) (rule_counts_of none)
         (custom_counts_of all all all none none)
    <= 100.
Proof.
  intros all none.
  assert (Wa : well_counted all) by (unfold well_counted; simpl; lia).
  assert (Wn : well_counted none) by (unfold well_counted; simpl; lia).
  split; [exact Wa |]. split; [exact Wn |].
  exact (C9_score_in_range_exact none all all all none none Wn Wa Wa Wa Wn Wn).
Defined.

End ScorerClaims.

Section ScorerBinary64.
Import ComplianceChecker Spec Sample.

(** C9 as stated fails in binary64.  No Config rule, one resource evaluated
    and compliant in each of the tagging, security-group and bucket checks,
    nothing to evaluate for encryption and public access: the counts are
    well formed, the weights applied sum to 0.44999999999999996, the score
    parts to 45.0, and the score returned is 100.00000000000001, above
    100.  A run on the small account above reports this score. *)
Lemma C9_binary64_counterexample :
  let all := {| total := 1; compliant := 1 |} in
  let none := {| total := 0; compliant := 0 |} in
  let score :=
    calculate_compliance_score (F:=float) (rule_counts_of none)
      (custom_counts_of all all all none none) in
  well_counted all /\ well_counted none /\
  score = 0x1.9000000000001p+6%float /\
  PrimFloat.ltb 100%float score = true /\
  rule_counts (config_rules_status (build_report (F:=float) small_account))
  = rule_counts_of none /\
  counts <$> custom_checks (build_report (F:=float) small_account)
  = custom_counts_of all all all none none /\
  compliance_score (build_report (F:=float) small_account) = score.
Proof.
  intros all none score.
  split; [unfold well_counted; simpl; lia |].
  split; [unfold well_counted; simpl; lia |].
  repeat split; vm_compute; reflexivity.
Qed.

(** C1 as stated fails in binary64.  No Config rule, nothing to evaluate in
    the tagging, security-group and bucket checks, nine resources out of ten
    encrypted and nine out of ten private: the weighted average of the
    categories is 90, and the score returned is 89.999999999999986.  A run
    on the account of ten databases above reports this score and, the score
    being below 90, publishes a compliance notification; computed exactly
    the same run scores 90 and publishes nothing. *)
Lemma C1_binary64_counterexample :
  let nine := {| total := 10; compliant := 9 |} in
  let none := {| total := 0; compliant := 0 |} in
  let score :=
    calculate_compliance_score (F:=float) (rule_counts_of none)
      (custom_counts_of none none none nine nine) in
  (weighted_average (weighted_categories none none none none nine nine) == 90)%Q /\
  score = 0x1.67fffffffffffp+6%float /\
  PrimFloat.ltb score 90%float = true /\
  rule_counts (config_rules_status (build_report (F:=float) Scenario.nine_of_ten))
  = rule_counts_of none /\
  counts <$> custom_checks (build_report (F:=float) Scenario.nine_of_ten)
  = custom_counts_of none none none nine nine /\
  compliance_score (build_report (F:=float) Scenario.nine_of_ten) = score /\
  List.map is_compliance_notice (snd (handler (F:=float) Scenario.nine_of_ten))
  = [true] /\
  snd (handler (F:=Q) Scenario.nine_of_ten) = [].
Proof.
  intros nine none score.
  split; [vm_compute; reflexivity |].
  repeat split; vm_compute; reflexivity.
Qed.

(** In binary64 too: rule compliance 8/10 and the five checks at 100% blend
    to 92.0, and nothing to evaluate gives 0.0. *)
Example blended_score_binary64 :
  let rules := {| total := 10; compliant := 8 |} in
  let all := {| total := 1; compliant := 1 |} in
  let none := {| total := 0; compliant := 0 |} in
  calculate_compliance_score (F:=float) (rule_counts_of rules)
    (custom_counts_of all all all all all) = 92%float /\
  calculate_compliance_score (F:=float) (rule_counts_of none)
    (custom_counts_of none none none none none) = 0%float.
Proof. split; vm_compute; reflexivity. Qed.

End ScorerBinary64.

(** ** The compliance handler *)

Section HandlerFacts.
Import ComplianceChecker Spec.
Context {F : Type} `{Num F}.

(** The requests of [send_compliance_notification]: one compliance notice
    when a topic is configured, none otherwise. *)
Lemma send_compliance_notification_published (e : env) (report : compliance_report) :
  published_compliance (send_compliance_notification e report) <->
  truthy_opt_str (SNS_TOPIC_ARN e) = true.
Proof.
  unfold send_compliance_notification, published_compliance.
  destruct (truthy_opt_str (SNS_TOPIC_ARN e)); cbn [negb].
  - split; [reflexivity | intros _]. eexists. split; [left; reflexivity | reflexivity].
  - split; [intros (p & [] & _) | discriminate].
Qed.

Lemma send_error_notification_not_compliance (e : env) (msg : string) :
  ~ published_compliance (send_error_notification (F:=F) e msg).
Proof.
  unfold send_error_notification, published_compliance.
  destruct (negb (truthy_opt_str (SNS_TOPIC_ARN e))).
  - intros (p & [] & _).
  - intros (p & [<- | []] & C). discriminate.
Qed.

Lemma published_compliance_app (l1 l2 : list (@publish F)) :
  published_compliance (l1 ++ l2)%list <->
  published_compliance l1 \/ published_compliance l2.
Proof.
  unfold published_compliance. split.
  - intros (p & I & C). apply in_app_or in I as [I | I]; [left | right]; eauto.
  - intros [(p & I & C) | (p & I & C)]; exists p; split; auto;
      apply in_or_app; auto.
Qed.

(** What the handler publishes about compliance is what the notification
    step published; the error path adds error notices only. *)
Lemma handler_published (e : env) :
  published_compliance (snd (handler e)) <->
  ltb (compliance_score (build_report e)) (of_Z 90) = true /\
  truthy_opt_str (SNS_TOPIC_ARN e) = true.
Proof.
  unfold handler. cbv zeta.
  set (report := build_report e).
  set (sent := if ltb (compliance_score report) (of_Z 90)
               then send_compliance_notification e report else []).
  assert (S : published_compliance sent <->
              ltb (compliance_score report) (of_Z 90) = true /\
              truthy_opt_str (SNS_TOPIC_ARN e) = true).
  { unfold sent. destruct (ltb (compliance_score report) (of_Z 90)).
    - rewrite send_compliance_notification_published. tauto.
    - split; [intros (p & [] & _) | intros [D _]; discriminate]. }
  destruct (json_dumps_raises e) as [exn|]; cbn [snd]; [| exact S].
  destruct (truthy_opt_str (SNS_TOPIC_ARN e)) eqn:T; [| exact S].
  rewrite published_compliance_app, S. split; [| tauto].
  intros [P | P]; [exact P |].
  now apply send_error_notification_not_compliance in P.
Qed.

(** Each custom check of the report absorbs the failure of its own scan. *)
Lemma custom_checks_absorbed (e : env) :
  custom_checks (build_report e) = absorbed_checks (PROJECT_NAME e) (inventory e).
Proof.
  cbn [build_report custom_checks].
  unfold perform_custom_checks, absorbed_checks, check_resource_tagging,
    check_security_groups, check_s3_bucket_policies, check_encryption_compliance,
    check_public_access_compliance.
  destruct (resource_tagging_scan _ _), (security_groups_scan _),
    (s3_bucket_policies_scan _ _), (encryption_scan _), (public_access_scan _);
    reflexivity.
Qed.

(** Every integer entry of an all-zero report reads 0, and it lists no
    violation. *)
Lemma zeros_all_zero (total_key compliant_key k : string) :
  get0 (counts (zeros total_key compliant_key)) k = 0 /\
  violations (zeros total_key compliant_key) = [].
Proof.
  split; [| reflexivity]. unfold get0, zeros. cbn [counts].
  destruct (decide (k = total_key)) as [->|N1].
  - now rewrite lookup_insert_eq.
  - rewrite lookup_insert_ne by congruence.
    destruct (decide (k = compliant_key)) as [->|N2].
    + now rewrite lookup_singleton_eq.
    + now rewrite lookup_singleton_ne by congruence.
Qed.

End HandlerFacts.

(** An inventory call that raises makes the scan it belongs to raise. *)
Section ScanFailures.
Import ComplianceChecker Spec.
Variables (P : string) (c : cloud) (x : string).

Lemma resource_tagging_scan_raises :
  tagging_describe_instances c = Raise x \/ tagging_list_buckets c = Raise x ->
  exists y, resource_tagging_scan P c = Raise y.
Proof.
  unfold resource_tagging_scan. intros [E | E].
  - rewrite E. now exists x.
  - destruct (tagging_describe_instances c) as [rs | y]; [| now exists y].
    rewrite E. now exists x.
Qed.

Lemma security_groups_scan_raises :
  describe_security_groups c = Raise x -> exists y, security_groups_scan c = Raise y.
Proof. unfold security_groups_scan. intros ->. now exists x. Qed.

Lemma s3_bucket_policies_scan_raises :
  policies_list_buckets c = Raise x -> exists y, s3_bucket_policies_scan P c = Raise y.
Proof. unfold s3_bucket_policies_scan. intros ->. now exists x. Qed.

Lemma encryption_scan_raises :
  encryption_describe_db_instances c = Raise x \/ describe_volumes c = Raise x ->
  exists y, encryption_scan c = Raise y.
Proof.
  unfold encryption_scan. intros [E | E].
  - rewrite E. now exists x.
  - destruct (encryption_describe_db_instances c) as [rs | y]; [| now exists y].
    rewrite E. now exists x.
Qed.

Lemma public_access_scan_raises :
  public_describe_db_instances c = Raise x \/ public_describe_instances c = Raise x ->
  exists y, public_access_scan c = Raise y.
Proof.
  unfold public_access_scan. intros [E | E].
  - rewrite E. now exists x.
  - destruct (public_describe_db_instances c) as [rs | y]; [| now exists y].
    rewrite E. now exists x.
Qed.

End ScanFailures.

(** An entry of the absorbed checks whose scan raises is the all-zero
    report. *)
Lemma absorbed_raises (total_key compliant_key : string)
    (scan : result ComplianceChecker.check_report) :
  (exists y, scan = Raise y) ->
  Spec.absorbed total_key compliant_key scan
  = ComplianceChecker.zeros total_key compliant_key.
Proof. intros [y ->]. reflexivity. Qed.

Section HandlerClaims.
Import ComplianceChecker Spec.

(** C4. Two tiers.  Local: in the report of a run, the entry of each custom
    check is the report its own scan builds, or the all-zero report when
    that scan raised, whatever happened in the other checks; it is all zero,
    in particular, when an inventory call of the check raised; and the
    rule-compliance entry is all zero when the configuration-service call
    raised.  Unless serialising the report raises, the run ends with a 200
    response that carries this report.  Fatal: when an exception leaves the
    handler body, the response has status 500 and its body is the object
    with the single entry [error], a text, and no report; the error is also
    published when a topic is configured. *)
Theorem C4_two_tier_errors {F : Type} `{Num F} (e : env) :
  let report := build_report (F:=F) e in
  let c := inventory e in
  (json_dumps_raises e = None ->
   fst (handler (F:=F) e)
   = {| statusCode := 200; response_body := ReportBody report |}) /\
  (forall exn, json_dumps_raises e = Some exn ->
   fst (handler (F:=F) e)
   = {| statusCode := 500;
        response_body := ErrorBody ("Compliance check failed: " ++ exn) |} /\
   (truthy_opt_str (SNS_TOPIC_ARN e) = true ->
    In {| TopicArn := default "" (SNS_TOPIC_ARN e);
          Notice := ErrorNotice ("Compliance check failed: " ++ exn) |}
       (snd (handler (F:=F) e)))) /\
  custom_checks report = absorbed_checks (PROJECT_NAME e) c /\
  (forall x,
     tagging_describe_instances c = Raise x \/ tagging_list_buckets c = Raise x ->
     custom_checks report !! "tagging_compliance"
     = Some (zeros "total_resources" "compliant_resources")) /\
  (forall x,
     describe_security_groups c = Raise x ->
     custom_checks report !! "security_groups"
     = Some (zeros "total_security_groups" "compliant_security_groups")) /\
  (forall x,
     policies_list_buckets c = Raise x ->
     custom_checks report !! "s3_bucket_policies"
     = Some (zeros "total_buckets" "compliant_buckets")) /\
  (forall x,
     encryption_describe_db_instances c = Raise x \/ describe_volumes c = Raise x ->
     custom_checks report !! "encryption_status"
     = Some (zeros "total_resources" "encrypted_resources")) /\
  (forall x,
     public_describe_db_instances c = Raise x \/ public_describe_instances c = Raise x ->
     custom_checks report !! "public_access"
     = Some (zeros "total_resources" "private_resources")) /\
  (forall x, describe_compliance_by_config_rule e = Raise x ->
     rule_counts (config_rules_status report) = zero_config_counts) /\
  (forall total_key compliant_key k,
     get0 (counts (zeros total_key compliant_key)) k = 0 /\
     violations (zeros total_key compliant_key) = []).
Proof.
  intros report c. unfold report.
  rewrite custom_checks_absorbed. fold c.
  repeat match goal with |- _ /\ _ => split end.
  - intros J. unfold handler. now rewrite J.
  - intros exn J. unfold handler. rewrite J. cbv zeta. cbn [fst snd].
    split; [reflexivity |]. intros T. rewrite T. apply in_or_app. right.
    unfold send_error_notification. rewrite T. now left.
  - reflexivity.
  - intros x E. unfold absorbed_checks.
    rewrite (absorbed_raises _ _ _ (resource_tagging_scan_raises _ c x E)).
    reflexivity.
  - intros x E. unfold absorbed_checks.
    rewrite (absorbed_raises _ _ _ (security_groups_scan_raises c x E)).
    reflexivity.
  - intros x E. unfold absorbed_checks.
    rewrite (absorbed_raises _ _ _ (s3_bucket_policies_scan_raises _ c x E)).
    reflexivity.
  - intros x E. unfold absorbed_checks.
    rewrite (absorbed_raises _ _ _ (encryption_scan_raises c x E)).
    reflexivity.
  - intros x E. unfold absorbed_checks.
    rewrite (absorbed_raises _ _ _ (public_access_scan_raises c x E)).
    reflexivity.
  - intros x D. cbn [build_report config_rules_status]. now rewrite D.
  - intros tk ck k. apply zeros_all_zero.
Qed.

Lemma C4_two_tier_errors_witness :
  let c :=
    {| tagging_describe_instances := Raise "UnauthorizedOperation";
       tagging_list_buckets := Ok ["epic-data"];
       get_bucket_tagging := fun _ => NoSuchTagSet;
       describe_security_groups :=
         Ok [ {| GroupName := "web"; GroupId := "sg-1";
                 IpPermissions :=
                   [ {| FromPort := Some 22; IpProtocol := Some "tcp";
                        IpRanges := Some [ {| CidrIp := Some "0.0.0.0/0" |} ] |} ];
                 IpPermissionsEgress := None |} ];
       policies_list_buckets := Ok ["epic-data"; "other"];
       get_public_access_block := fun _ => NoSuchPublicAccessBlockConfiguration;
       get_bucket_encryption := fun _ => EncryptionConfigured;
       encryption_describe_db_instances :=
         Ok [ {| DBInstanceIdentifier := "orders"; StorageEncrypted := Some true;
                 PubliclyAccessible := Some false |} ];
       describe_volumes := Ok [ {| VolumeId := "vol-1"; Encrypted := None |} ];
       public_describe_db_instances := Ok [];
       public_describe_instances := Raise "RequestLimitExceeded" |} in
  let e (dumps : option string) :=
    {| SNS_TOPIC_ARN := Some "arn:aws:sns:eu-west-1:1:compliance";
       PROJECT_NAME := "epic"; ENVIRONMENT := "prod";
       now_isoformat := "2025-03-09T06:00:00";
       describe_compliance_by_config_rule := Raise "AccessDeniedException";
       inventory := c;
       json_dumps_raises := dumps |} in
  let checks := custom_checks (build_report (F:=Q) (e None)) in
  statusCode (fst (handler (F:=Q) (e None))) = 200 /\
  checks !! "tagging_compliance" = Some (zeros "total_resources" "compliant_resources") /\
  checks !! "public_access" = Some (zeros "total_resources" "private_resources") /\
  checks !! "security_groups"
  = Some {| counts := {[ "total_security_groups" := 1;
                         "compliant_security_groups" := 0 ]};
            violations :=
              [ group_findings "sg-1" "web"
                  [ overly_permissive_inbound (Some 22) "tcp" ] ] |} /\
  checks !! "encryption_status"
  = Some {| counts := {[ "total_resources" := 2; "encrypted_resources" := 1 ]};
            violations :=
              [ resource_issue "EBS Volume" "vol-1" "Volume not encrypted" ] |} /\
  fst (handler (F:=Q) (e (Some "Object of type datetime is not JSON serializable")))
  = {| statusCode := 500;
       response_body :=
         ErrorBody "Compliance check failed: Object of type datetime is not JSON serializable" |}.
Proof.
  intros c e checks.
  destruct (C4_two_tier_errors (F:=Q) (e None))
    as (A & _ & C & T & _ & _ & _ & P & _).
  destruct (C4_two_tier_errors (F:=Q)
              (e (Some "Object of type datetime is not JSON serializable")))
    as (_ & B & _).
  split; [now rewrite (A eq_refl) |].
  split; [exact (T "UnauthorizedOperation" (or_introl eq_refl)) |].
  split; [exact (P "RequestLimitExceeded" (or_intror eq_refl)) |].
  unfold checks. rewrite C.
  split; [vm_compute; reflexivity |]. split; [vm_compute; reflexivity |].
  exact (proj1 (B _ eq_refl)).
Defined.

(** C5, as the code has it.  A run publishes a compliance notification if
    and only if the computed score compares strictly below 90 and a
    notification topic is configured ([SNS_TOPIC_ARN] set and not empty);
    so a run whose score is not below 90 publishes none.  A response of
    status 200 carries the report with that score. *)
Theorem C5_notification_threshold {F : Type} `{Num F} (e : env) :
  let out := handler (F:=F) e in
  let score := compliance_score (build_report (F:=F) e) in
  (statusCode (fst out) = 200 -> response_body (fst out) = ReportBody (build_report e)) /\
  (published_compliance (snd out) <->
   ltb score (of_Z 90) = true /\ truthy_opt_str (SNS_TOPIC_ARN e) = true) /\
  (ltb score (of_Z 90) = false -> ~ published_compliance (snd out)).
Proof.
  intros out score.
  assert (P := handler_published e). fold out score in P.
  split; [| split; [exact P |]].
  - unfold out, handler. destruct (json_dumps_raises e); [discriminate | reflexivity].
  - intros L Q. apply P in Q as [Q _]. congruence.
Qed.

Lemma C5_notification_threshold_witness :
  let e :=
    {| SNS_TOPIC_ARN := Some "arn:aws:sns:eu-west-1:1:compliance";
       PROJECT_NAME := "epic"; ENVIRONMENT := "prod";
       now_isoformat := "2025-03-09T06:00:00";
       describe_compliance_by_config_rule :=
         Ok [ {| ConfigRuleName := "s3-bucket-ssl"; ComplianceType := "COMPLIANT";
                 ComplianceContributorCount := None |};
              {| ConfigRuleName := "rds-encrypted"; ComplianceType := "NON_COMPLIANT";
                 ComplianceContributorCount := Some (2, false) |} ];
       inventory := refused "AccessDenied";
       json_dumps_raises := None |} in
  (compliance_score (build_report (F:=Q) e) == 50)%Q /\
  published_compliance (snd (handler (F:=Q) e)).
Proof.
  intros e. split; [reflexivity |].
  apply (proj1 (proj2 (C5_notification_threshold (F:=Q) e))).
  split; reflexivity.
Defined.

(** C5 as stated fails: with no notification topic configured, a run ends
    with status 200 and a score below 90, and publishes nothing. *)
Lemma C5_counterexample :
  let e :=
    {| SNS_TOPIC_ARN := None;
       PROJECT_NAME := "epic"; ENVIRONMENT := "prod";
       now_isoformat := "2025-03-09T06:00:00";
       describe_compliance_by_config_rule :=
         Ok [ {| ConfigRuleName := "s3-bucket-ssl"; ComplianceType := "COMPLIANT";
                 ComplianceContributorCount := None |};
              {| ConfigRuleName := "rds-encrypted"; ComplianceType := "NON_COMPLIANT";
                 ComplianceContributorCount := Some (2, false) |} ];
       inventory := refused "AccessDenied";
       json_dumps_raises := None |} in
  statusCode (fst (handler (F:=Q) e)) = 200 /\
  (compliance_score (build_report (F:=Q) e) < 90)%Q /\
  snd (handler (F:=Q) e) = [].
Proof.
  intros e. split; [reflexivity |]. split; reflexivity.
Qed.

End HandlerClaims.

(** ** What the checks count *)

Section Counting.
Import ComplianceChecker Spec.
Variables total_key compliant_key : string.
Hypothesis distinct_keys : total_key <> compliant_key.

Local Abbreviation counted := (Spec.counted total_key compliant_key).

Lemma zeros_counted : counted (zeros total_key compliant_key).
Proof.
  exists {| total := 0; compliant := 0 |}. split; [reflexivity |].
  unfold well_counted. simpl. lia.
Qed.

Lemma record_violation_counts (v : violation) (report : check_report) (c : category) :
  counts_as total_key compliant_key report c ->
  counts_as total_key compliant_key (record_violation v report) c.
Proof. intros [E W]. split; [exact E | exact W]. Qed.

(** Counting one more resource. *)
Lemma count_total (report : check_report) (c : category) :
  counts (report) = counts_of total_key compliant_key c ->
  counts (count total_key report)
  = counts_of total_key compliant_key
      {| total := total c + 1; compliant := compliant c |}.
Proof.
  intros E. unfold count, incr, counts_of in *. cbn [counts total compliant].
  rewrite E. now rewrite alter_insert_eq.
Qed.

(** Counting one more compliant resource. *)
Lemma count_compliant (report : check_report) (c : category) :
  counts (report) = counts_of total_key compliant_key c ->
  counts (count compliant_key report)
  = counts_of total_key compliant_key
      {| total := total c; compliant := compliant c + 1 |}.
Proof.
  intros E. unfold count, incr, counts_of in *. cbn [counts total compliant].
  rewrite E. rewrite alter_insert_ne by congruence.
  now rewrite alter_singleton_eq.
Qed.

(** A resource found compliant, and a resource found in violation. *)
Lemma counted_compliant (report : check_report) :
  counted report -> counted (count compliant_key (count total_key report)).
Proof.
  intros (c & E & W). eexists. split.
  - apply count_compliant. apply count_total. exact E.
  - unfold well_counted in *. simpl. lia.
Qed.

Lemma counted_violation (v : violation) (report : check_report) :
  counted report -> counted (record_violation v (count total_key report)).
Proof.
  intros (c & E & W). eexists. apply record_violation_counts. split.
  - apply count_total. exact E.
  - unfold well_counted in *. simpl. lia.
Qed.

Lemma fold_left_counted {A} (f : check_report -> A -> check_report) (l : list A) :
  (forall report x, counted report -> counted (f report x)) ->
  forall report, counted report -> counted (fold_left f l report).
Proof.
  intros Hf. induction l as [|x l IH]; intros report C; [exact C |].
  apply IH. now apply Hf.
Qed.

Lemma for_each_counted {A} (f : check_report -> A -> result check_report)
    (l : list A) :
  (forall report x report', counted report -> f report x = Ok report' -> counted report') ->
  forall report report',
    counted report -> for_each f l report = Ok report' -> counted report'.
Proof.
  intros Hf. induction l as [|x l IH]; intros report report' C E.
  - injection E as <-. exact C.
  - cbn [for_each] in E. destruct (f report x) as [r1 | e] eqn:F; [| discriminate].
    apply (IH r1 report'); [| exact E]. exact (Hf _ _ _ C F).
Qed.

(** A check that absorbs the failure of its scan counts, when its scan
    does. *)
Lemma try_except_counted (scan : result check_report) :
  (forall report, scan = Ok report -> counted report) ->
  counted (try_except scan (fun _ => zeros total_key compliant_key)).
Proof.
  intros Hs. destruct scan as [report | e]; [now apply Hs | apply zeros_counted].
Qed.

End Counting.

Section Producers.
Import ComplianceChecker Spec.

Local Ltac step_counted :=
  first [ apply counted_compliant; [discriminate | assumption]
        | apply counted_violation; assumption
        | assumption ].

Lemma tag_instance_counted (report : check_report) (i : ec2_instance) :
  counted "total_resources" "compliant_resources" report ->
  counted "total_resources" "compliant_resources" (tag_instance report i).
Proof.
  intros C. unfold tag_instance.
  destruct (in_strings _ _); [| exact C].
  destruct (is_nil _); step_counted.
Qed.

Lemma tag_bucket_counted (P : string) (c : cloud) (report : check_report)
    (name : string) (report' : check_report) :
  counted "total_resources" "compliant_resources" report ->
  tag_bucket P c report name = Ok report' ->
  counted "total_resources" "compliant_resources" report'.
Proof.
  intros C. unfold tag_bucket.
  destruct (contains P name); [| intros E; injection E as <-; exact C].
  destruct (get_bucket_tagging c name) as [tags | | e]; [| | discriminate].
  - destruct (is_nil _); intros E; injection E as <-; step_counted.
  - intros E; injection E as <-; step_counted.
Qed.

Lemma check_resource_tagging_counted (P : string) (c : cloud) :
  counted "total_resources" "compliant_resources" (check_resource_tagging P c).
Proof.
  apply try_except_counted. intros report. unfold resource_tagging_scan.
  destruct (tagging_describe_instances c) as [rs | e]; [| discriminate].
  destruct (tagging_list_buckets c) as [bs | e]; [| discriminate].
  cbn [mbind result_bind Py.bind]. apply for_each_counted.
  - intros r x r'. apply tag_bucket_counted.
  - apply fold_left_counted; [| apply zeros_counted].
    intros r x C. apply fold_left_counted; [| exact C].
    intros r' i. apply tag_instance_counted.
Qed.

Lemma inspect_group_counted (report : check_report) (sg : security_group) :
  counted "total_security_groups" "compliant_security_groups" report ->
  counted "total_security_groups" "compliant_security_groups" (inspect_group report sg).
Proof.
  intros C. unfold inspect_group.
  destruct (String.eqb _ _); [exact C |].
  destruct (is_nil _); step_counted.
Qed.

Lemma check_security_groups_counted (c : cloud) :
  counted "total_security_groups" "compliant_security_groups" (check_security_groups c).
Proof.
  apply try_except_counted. intros report. unfold security_groups_scan.
  destruct (describe_security_groups c) as [gs | e]; [| discriminate].
  cbn [mbind result_bind Py.bind mret result_ret]. intros E. injection E as <-.
  apply fold_left_counted; [| apply zeros_counted].
  intros r x. apply inspect_group_counted.
Qed.

Lemma inspect_bucket_counted (P : string) (c : cloud) (report : check_report)
    (name : string) (report' : check_report) :
  counted "total_buckets" "compliant_buckets" report ->
  inspect_bucket P c report name = Ok report' ->
  counted "total_buckets" "compliant_buckets" report'.
Proof.
  intros C. unfold inspect_bucket.
  destruct (negb (contains P name)); [intros E; injection E as <-; exact C |].
  destruct (get_public_access_block c name) as [config | | e];
    [destruct (negb (blocks_all config)) | | discriminate];
    cbn [mbind result_bind Py.bind];
    (destruct (get_bucket_encryption c name) as [ | | e]; [| | discriminate]);
    cbn [mbind result_bind Py.bind];
    match goal with
    | |- context [is_nil ?l] => destruct (is_nil l)
    end; intros E; injection E as <-; step_counted.
Qed.

Lemma check_s3_bucket_policies_counted (P : string) (c : cloud) :
  counted "total_buckets" "compliant_buckets" (check_s3_bucket_policies P c).
Proof.
  apply try_except_counted. intros report. unfold s3_bucket_policies_scan.
  destruct (policies_list_buckets c) as [bs | e]; [| discriminate].
  cbn [mbind result_bind Py.bind]. apply for_each_counted; [| apply zeros_counted].
  intros r x r'. apply inspect_bucket_counted.
Qed.

Lemma check_encryption_compliance_counted (c : cloud) :
  counted "total_resources" "encrypted_resources" (check_encryption_compliance c).
Proof.
  apply try_except_counted. intros report. unfold encryption_scan.
  destruct (encryption_describe_db_instances c) as [dbs | e]; [| discriminate].
  destruct (describe_volumes c) as [vs | e]; [| discriminate].
  cbn [mbind result_bind Py.bind mret result_ret]. intros E. injection E as <-.
  apply fold_left_counted.
  - intros r v C. unfold inspect_volume. destruct (default false _); step_counted.
  - apply fold_left_counted; [| apply zeros_counted].
    intros r db C. unfold inspect_db_encryption.
    destruct (default false _); step_counted.
Qed.

Lemma check_public_access_compliance_counted (c : cloud) :
  counted "total_resources" "private_resources" (check_public_access_compliance c).
Proof.
  apply try_except_counted. intros report. unfold public_access_scan.
  destruct (public_describe_db_instances c) as [dbs | e]; [| discriminate].
  destruct (public_describe_instances c) as [rs | e]; [| discriminate].
  cbn [mbind result_bind Py.bind mret result_ret]. intros E. injection E as <-.
  apply fold_left_counted.
  - intros r x C. apply fold_left_counted; [| exact C].
    intros r' i C'. unfold inspect_instance_access.
    destruct (in_strings _ _); [| exact C'].
    destruct (_ && _); step_counted.
  - apply fold_left_counted; [| apply zeros_counted].
    intros r db C. unfold inspect_db_access.
    destruct (negb _); step_counted.
Qed.

(** The rule counts of [get_config_rules_compliance] count a category. *)
Lemma count_rule_counts (st : config_status) (rc : rule_compliance) :
  (exists c, well_counted c /\ rule_counts st = rule_counts_of c) ->
  exists c, well_counted c /\ rule_counts (count_rule st rc) = rule_counts_of c.
Proof.
  intros (c & W & E). unfold count_rule. cbn [rule_counts]. rewrite E.
  unfold incr, rule_counts_of. unfold well_counted in W.
  destruct (String.eqb (ComplianceType rc) "COMPLIANT").
  - exists {| total := total c + 1; compliant := compliant c + 1 |}.
    split; [unfold well_counted; simpl; lia |]. cbn [total compliant].
    rewrite alter_insert_eq, alter_insert_ne, alter_insert_eq by discriminate.
    do 3 f_equal. lia.
  - exists {| total := total c + 1; compliant := compliant c |}.
    split; [unfold well_counted; simpl; lia |]. cbn [total compliant].
    rewrite alter_insert_eq, !alter_insert_ne, alter_singleton_eq by discriminate.
    do 3 f_equal. lia.
Qed.

Lemma get_config_rules_compliance_counts (response : result (list rule_compliance)) :
  exists c, well_counted c /\
            rule_counts (get_config_rules_compliance response) = rule_counts_of c.
Proof.
  assert (Z : exists c, well_counted c /\ zero_config_counts = rule_counts_of c).
  { exists {| total := 0; compliant := 0 |}. split; [| reflexivity].
    unfold well_counted. simpl. lia. }
  unfold get_config_rules_compliance. destruct response as [rules | e]; [| exact Z].
  cbn [try_except mbind result_bind Py.bind mret result_ret].
  set (st := {| rule_counts := zero_config_counts; rules_detail := ∅ |}).
  assert (S : exists c, well_counted c /\ rule_counts st = rule_counts_of c) by exact Z.
  clearbody st. revert st S. induction rules as [|rc rules IH]; intros st S; [exact S |].
  cbn [fold_left]. apply IH. now apply count_rule_counts.
Qed.

End Producers.

Section ReportedScore.
Import ComplianceChecker Spec.
Local Open Scope Q_scope.

(** The integer entries of the custom checks of a run are those of five
    well-counted categories, under the keys of each check. *)
Lemma perform_custom_checks_counts (P : string) (c : cloud) :
  exists a b s n p,
    well_counted a /\ well_counted b /\ well_counted s /\
    well_counted n /\ well_counted p /\
    counts <$> perform_custom_checks P c = custom_counts_of a b s n p.
Proof.
  destruct (check_resource_tagging_counted P c) as (a & Ea & Wa).
  destruct (check_security_groups_counted c) as (b & Eb & Wb).
  destruct (check_s3_bucket_policies_counted P c) as (s & Es & Ws).
  destruct (check_encryption_compliance_counted c) as (n & En & Wn).
  destruct (check_public_access_compliance_counted c) as (p & Ep & Wp).
  exists a, b, s, n, p. repeat (split; [assumption |]).
  unfold perform_custom_checks, custom_counts_of.
  rewrite !fmap_insert, map_fmap_singleton.
  now rewrite Ea, Eb, Es, En, Ep.
Qed.

(** The score a run reports is, in exact arithmetic, a weighted average of
    percentages, hence a percentage. *)
Lemma reported_score_in_range (e : env) :
  0 <= compliance_score (build_report (F:=Q) e) <= 100.
Proof.
  cbn [build_report compliance_score config_rules_status custom_checks].
  destruct (get_config_rules_compliance_counts (describe_compliance_by_config_rule e))
    as (r & Wr & Er).
  destruct (perform_custom_checks_counts (PROJECT_NAME e) (inventory e))
    as (a & b & s & n & p & Wa & Wb & Ws & Wn & Wp & Ec).
  rewrite Er, Ec.
  rewrite score_is_weighted_average; try (unfold well_counted in *; lia).
  apply weighted_average_bounds. unfold weighted_categories.
  repeat (constructor; [cbn [fst snd]; split; [assumption | discriminate] |]).
  constructor.
Qed.

End ReportedScore.

(** * Further properties *)

(** ** The backup rotator: what the cleanup may delete *)

Section CleanupSafety.
Import DbBackup Terms.

(** A request of a loop was there before, or is for a selected snapshot of
    the list, under the identifier the loop read. *)
Lemma cleanup_loop_requests (kind : snapshot_kind) (c : Z)
    (del : delete_request -> result unit) (snapshots : list snapshot)
    (requests : list delete_request) (results : list cleanup_result)
    (d : delete_request) :
  In d (fst (cleanup_loop kind c del snapshots requests results)) ->
  In d requests \/
  (delete_kind d = kind /\
   exists s, In s snapshots /\ selected_for_deletion c s = true /\
             identifier kind s = Ok (delete_id d)).
Proof.
  revert requests results.
  induction snapshots as [|s rest IH]; intros requests results I.
  - now left.
  - cbn [cleanup_loop] in I.
    destruct (selected_for_deletion c s) eqn:S.
    + destruct (identifier kind s) as [i | x] eqn:Id; [| now left].
      apply IH in I as [I | (K & s' & I' & S' & Id')].
      * apply in_app_or in I as [I | [<- | [ ]]]; [now left |].
        right. split; [reflexivity |]. exists s. split; [now left | auto].
      * right. split; [exact K |]. exists s'. split; [now right | auto].
    + apply IH in I as [I | (K & s' & I' & S' & Id')]; [now left |].
      right. split; [exact K |]. exists s'. split; [now right | auto].
Qed.

(** While a loop runs, each request has its result, in order. *)
Lemma cleanup_loop_recorded (r : rds) (kind : snapshot_kind) (c : Z)
    (snapshots : list snapshot)
    (requests : list delete_request) (results results' : list cleanup_result) :
  Forall2 (recorded r) requests results ->
  snd (cleanup_loop kind c (delete_snapshot r) snapshots requests results)
  = Ok results' ->
  Forall2 (recorded r)
    (fst (cleanup_loop kind c (delete_snapshot r) snapshots requests results))
    results'.
Proof.
  revert requests results.
  induction snapshots as [|s rest IH]; intros requests results R E.
  - cbn in *. injection E as <-. exact R.
  - cbn [cleanup_loop] in *.
    destruct (selected_for_deletion c s); [| now apply IH].
    destruct (identifier kind s) as [i | x]; [| discriminate].
    apply IH; [| exact E]. apply Forall2_app; [exact R |].
    constructor; [| constructor]. unfold recorded.
    destruct (delete_snapshot r _); repeat split.
Qed.

(** X1. The cleanup never asks to delete a snapshot it was not shown, one
    without the automated-backup marker, or one younger than the retention
    window: every delete request is for a snapshot of the listing of its
    kind that passes the marker test and was created strictly before the
    cutoff, under the identifier of that snapshot. *)
Theorem X1_cleanup_deletes_only_selected (r : rds) (d : delete_request) :
  In d (fst (cleanup_old_snapshots r)) ->
  exists s,
    In s (listing r (delete_kind d)) /\
    identifier (delete_kind d) s = Ok (delete_id d) /\
    is_automated_backup_snapshot s = true /\
    SnapshotCreateTime s < utcnow r - timedelta_days (RETENTION_DAYS r) /\
    datetime_min <= utcnow r - timedelta_days (RETENTION_DAYS r) <= datetime_max.
Proof.
  unfold cleanup_old_snapshots, minus_days.
  destruct (999999999 <? Z.abs (RETENTION_DAYS r)); [intros [ ] |].
  cbv zeta. set (c := utcnow r - timedelta_days (RETENTION_DAYS r)).
  destruct (Z.ltb_spec c datetime_min) as [|L]; [intros [ ] |].
  destruct (Z.ltb_spec datetime_max c) as [|U]; [intros [ ] |]. cbn [orb].
  destruct (describe_db_snapshots r) as [isnaps | x] eqn:DI; [| intros [ ]].
  assert (Sel : forall kind s,
             In s (listing r kind) -> selected_for_deletion c s = true ->
             identifier kind s = Ok (delete_id d) -> delete_kind d = kind ->
             exists s, In s (listing r (delete_kind d)) /\
                       identifier (delete_kind d) s = Ok (delete_id d) /\
                       is_automated_backup_snapshot s = true /\
                       SnapshotCreateTime s < c /\ datetime_min <= c <= datetime_max).
  { intros kind s I S Id ->. exists s. unfold selected_for_deletion in S.
    apply andb_true_iff in S as [M T]. apply Z.ltb_lt in T.
    repeat split; auto; lia. }
  destruct (cleanup_loop instance_snapshot c (delete_snapshot r) isnaps [] [])
    as [requests [results | x]] eqn:L1.
  - assert (R1 : forall d', In d' requests ->
                 delete_kind d' = instance_snapshot /\
                 exists s, In s isnaps /\ selected_for_deletion c s = true /\
                           identifier instance_snapshot s = Ok (delete_id d')).
    { intros d' I.
      assert (I' : In d' (fst (cleanup_loop instance_snapshot c (delete_snapshot r)
                                 isnaps [] []))) by now rewrite L1.
      apply cleanup_loop_requests in I' as [[ ] | R]. exact R. }
    destruct (describe_db_cluster_snapshots r) as [cs | x] eqn:DC.
    + intros I. apply cleanup_loop_requests in I as [I | (K & s & I & S & Id)].
      * destruct (R1 d I) as (K & s & Is & S & Id).
        apply (Sel instance_snapshot s); auto. cbn. now rewrite DI.
      * apply (Sel cluster_snapshot s); auto. cbn. now rewrite DC.
    + cbn [fst]. intros I. destruct (R1 d I) as (K & s & Is & S & Id).
      apply (Sel instance_snapshot s); auto. cbn. now rewrite DI.
  - cbn [fst]. intros I.
    assert (I' : In d (fst (cleanup_loop instance_snapshot c (delete_snapshot r)
                              isnaps [] []))) by now rewrite L1.
    apply cleanup_loop_requests in I' as [[ ] | (K & s & Is & S & Id)].
    apply (Sel instance_snapshot s); auto. cbn. now rewrite DI.
Qed.

(** While a loop runs it holds as many results as requests. *)
Lemma cleanup_loop_length (kind : snapshot_kind) (c : Z)
    (del : delete_request -> result unit) (snapshots : list snapshot)
    (requests : list delete_request) (results results' : list cleanup_result) :
  length requests = length results ->
  snd (cleanup_loop kind c del snapshots requests results) = Ok results' ->
  length (fst (cleanup_loop kind c del snapshots requests results)) = length results'.
Proof.
  revert requests results.
  induction snapshots as [|s rest IH]; intros requests results L E.
  - cbn in *. injection E as <-. exact L.
  - cbn [cleanup_loop] in *.
    destruct (selected_for_deletion c s); [| now apply IH].
    destruct (identifier kind s) as [i | x]; [| discriminate].
    apply IH; [| exact E]. rewrite !length_app. cbn [length]. lia.
Qed.

Lemma cleanup_old_snapshots_length (r : rds) (results : list cleanup_result) :
  snd (cleanup_old_snapshots r) = Ok results ->
  length (fst (cleanup_old_snapshots r)) = length results.
Proof.
  unfold cleanup_old_snapshots.
  destruct (minus_days (utcnow r) (RETENTION_DAYS r)) as [c | x]; [| discriminate].
  destruct (describe_db_snapshots r) as [isnaps | x]; [| discriminate].
  destruct (cleanup_loop instance_snapshot c (delete_snapshot r) isnaps [] [])
    as [requests [results1 | x]] eqn:L1; [| discriminate].
  assert (N1 : length requests = length results1).
  { pose proof (cleanup_loop_length instance_snapshot c (delete_snapshot r) isnaps
                  [] [] results1 eq_refl) as P.
    rewrite L1 in P. apply P. reflexivity. }
  destruct (describe_db_cluster_snapshots r) as [cs | x]; [| discriminate].
  intros E. now apply cleanup_loop_length.
Qed.

Lemma X1_cleanup_deletes_only_selected_witness :
  exists s,
    In s (listing Scenario.refused_cleanup instance_snapshot) /\
    identifier instance_snapshot s = Ok "orders-backup-2025-08-01-02-00-00" /\
    is_automated_backup_snapshot s = true /\
    SnapshotCreateTime s < Scenario.this_morning - timedelta_days 30 /\
    datetime_min <= Scenario.this_morning - timedelta_days 30 <= datetime_max.
Proof.
  apply (X1_cleanup_deletes_only_selected Scenario.refused_cleanup
           {| delete_kind := instance_snapshot;
              delete_id := "orders-backup-2025-08-01-02-00-00" |}).
  left. reflexivity.
Defined.

(** X2. When the cleanup returns, it returns one result for each delete
    request it issued, in the order of the requests, with the kind and the
    identifier of the request, and with status "deleted" when the call
    succeeded and "failed" when it raised: a deletion that fails is
    recorded and the cleanup goes on. *)
Theorem X2_cleanup_records_every_request (r : rds) (results : list cleanup_result) :
  snd (cleanup_old_snapshots r) = Ok results ->
  Forall2 (recorded r) (fst (cleanup_old_snapshots r)) results.
Proof.
  unfold cleanup_old_snapshots.
  destruct (minus_days (utcnow r) (RETENTION_DAYS r)) as [c | x]; [| discriminate].
  destruct (describe_db_snapshots r) as [isnaps | x]; [| discriminate].
  destruct (cleanup_loop instance_snapshot c (delete_snapshot r) isnaps [] [])
    as [requests [results1 | x]] eqn:L1; [| discriminate].
  assert (R1 : Forall2 (recorded r) requests results1).
  { pose proof (cleanup_loop_recorded r instance_snapshot c isnaps [] [] results1
                  (List.Forall2_nil _)) as P.
    rewrite L1 in P. apply P. reflexivity. }
  destruct (describe_db_cluster_snapshots r) as [cs | x]; [| discriminate].
  intros E. now apply cleanup_loop_recorded.
Qed.


Lemma X2_cleanup_records_every_request_witness :
  Forall2 (recorded Scenario.refused_cleanup)
    (fst (cleanup_old_snapshots Scenario.refused_cleanup))
    [ {| type := instance_snapshot;
         cleaned_id := "orders-backup-2025-08-01-02-00-00";
         status := "failed"; create_time := None;
         error := Some "InvalidDBSnapshotState" |} ].
Proof.
  apply (X2_cleanup_records_every_request Scenario.refused_cleanup). reflexivity.
Defined.

End CleanupSafety.

(** ** The backup rotator: one run *)

Section BackupRun.
Import DbBackup DbBackupHandler Terms.

Lemma collect_filter {A} (p : A -> bool) (l acc : list A) :
  fold_left (fun acc x => if p x then (acc ++ [x])%list else acc) l acc
  = (acc ++ List.filter p l)%list.
Proof.
  revert acc. induction l as [|x l IH]; intros acc; cbn [fold_left List.filter].
  - now rewrite app_nil_r.
  - rewrite IH. destruct (p x); [now rewrite <- app_assoc | reflexivity].
Qed.

Lemma get_rds_instances_eligible (r : result (list db_instance)) :
  get_rds_instances r = (l ← r; mret (List.filter eligible_instance l)).
Proof.
  destruct r as [l | x]; [| reflexivity]. unfold get_rds_instances.
  cbn [mbind result_bind Py.bind mret result_ret].
  now rewrite (collect_filter eligible_instance).
Qed.

Lemma get_rds_clusters_eligible (r : result (list db_cluster)) :
  get_rds_clusters r = (l ← r; mret (List.filter eligible_cluster l)).
Proof.
  destruct r as [l | x]; [| reflexivity]. unfold get_rds_clusters.
  cbn [mbind result_bind Py.bind mret result_ret].
  now rewrite (collect_filter eligible_cluster).
Qed.

Lemma backup_instance_turn (e : env) (st : backups) (i : db_instance) :
  one_turn instance_snapshot (DBInstanceIdentifier i) st (backup_instance e st i).
Proof.
  unfold one_turn, backup_instance, backup_rds_instance.
  destruct (expiry (clock e (seen st))) as [d | x].
  - match goal with
    | |- context [create_db_snapshot e ?rq] =>
        destruct (create_db_snapshot e rq) as [arn | x]
    end; cbn [mbind result_bind Py.bind mret result_ret seen calls done failed];
      (split; [reflexivity |]); (split; [| eauto]);
      (eexists; split; [reflexivity |]); (constructor; [| constructor]);
      (split; [reflexivity |]); (split; [now left | reflexivity]).
  - cbn [seen calls done failed]. split; [reflexivity |]. split; [| eauto].
    exists []. split; [now rewrite app_nil_r | constructor].
Qed.

Lemma backup_cluster_turn (e : env) (st : backups) (c : db_cluster) :
  one_turn cluster_snapshot (DBClusterIdentifier c) st (backup_cluster e st c).
Proof.
  unfold one_turn, backup_cluster, backup_rds_cluster.
  destruct (expiry (clock e (seen st))) as [d | x].
  - match goal with
    | |- context [create_db_cluster_snapshot e ?rq] =>
        destruct (create_db_cluster_snapshot e rq) as [arn | x]
    end; cbn [mbind result_bind Py.bind mret result_ret seen calls done failed];
      (split; [reflexivity |]); (split; [| eauto]);
      (eexists; split; [reflexivity |]); (constructor; [| constructor]);
      (split; [reflexivity |]); (split; [now left | reflexivity]).
  - cbn [seen calls done failed]. split; [reflexivity |]. split; [| eauto].
    exists []. split; [now rewrite app_nil_r | constructor].
Qed.

Lemma creates_more (kind : snapshot_kind) (ids ids' : list string) (c : call) :
  (forall i, In i ids -> In i ids') -> creates kind ids c -> creates kind ids' c.
Proof.
  intros Sub. destruct c as [k rq | |]; cbn; [| exact id | exact id].
  intros (K & I & T). auto.
Qed.

(** What a backup loop does: every resource is seen, and gives one result
    or one error; the calls issued are create requests for resources of the
    loop. *)
Lemma backup_loop {A} (kind : snapshot_kind) (ident : A -> string)
    (turn : backups -> A -> backups) :
  (forall st x, one_turn kind (ident x) st (turn st x)) ->
  forall l st,
  exists cs ds fs,
    calls (fold_left turn l st) = (calls st ++ cs)%list /\
    done (fold_left turn l st) = (done st ++ ds)%list /\
    failed (fold_left turn l st) = (failed st ++ fs)%list /\
    Forall (creates kind (List.map ident l)) cs /\
    (length ds + length fs = length l)%nat.
Proof.
  intros T. induction l as [|x l IH]; intros st.
  - exists [], [], []. cbn. rewrite !app_nil_r. repeat split. constructor.
  - cbn [fold_left]. destruct (IH (turn st x)) as (cs & ds & fs & C & D & Fl & Cr & N).
    destruct (T st x) as (_ & (cs0 & C0 & Cr0) & R).
    assert (Cr' : Forall (creates kind (List.map ident (x :: l))) (cs0 ++ cs)).
    { apply Forall_app. split.
      - eapply List.Forall_impl; [| exact Cr0]. intros c. apply creates_more.
        intros i [<- | []]. now left.
      - eapply List.Forall_impl; [| exact Cr]. intros c. apply creates_more.
        intros i I. now right. }
    destruct R as [(d & D0 & F0) | (f & D0 & F0)].
    + exists (cs0 ++ cs)%list, (d :: ds), fs.
      rewrite C, C0, D, D0, Fl, F0, <- !app_assoc. cbn [List.app length].
      repeat split; auto. lia.
    + exists (cs0 ++ cs)%list, ds, (f :: fs).
      rewrite C, C0, D, D0, Fl, F0, <- !app_assoc. cbn [List.app length].
      repeat split; auto. lia.
Qed.

(** A run whose two listings are answered. *)
Lemma handler_listed (e : env) (instances : list db_instance)
    (clusters : list db_cluster) :
  describe_db_instances e = Ok instances ->
  describe_db_clusters e = Ok clusters ->
  exists ci cc di dc fi fc,
    let results :=
      {| db_instances := di; db_clusters := dc;
         cleanup_results := cleaned (retention e);
         errors := (fi ++ fc ++ cleanup_errors (retention e))%list |} in
    handler e
    = ((ci ++ cc ++ List.map delete (fst (cleanup_old_snapshots (retention e))) ++
        [send_notification e results])%list,
       {| statusCode := 200; response_body := ResultsBody results |}) /\
    Forall (creates instance_snapshot (eligible_instances e)) ci /\
    Forall (creates cluster_snapshot (eligible_clusters e)) cc /\
    (length di + length fi = length (eligible_instances e))%nat /\
    (length dc + length fc = length (eligible_clusters e))%nat.
Proof.
  intros DI DC. unfold handler, eligible_instances, eligible_clusters, cleanup_errors, cleaned.
  rewrite get_rds_instances_eligible, get_rds_clusters_eligible, DI, DC.
  cbn [mbind result_bind Py.bind mret result_ret answer].
  set (is' := List.filter eligible_instance instances).
  set (cs' := List.filter eligible_cluster clusters).
  destruct (backup_loop instance_snapshot DBInstanceIdentifier (backup_instance e)
              (backup_instance_turn e) is'
              {| calls := []; done := []; failed := []; seen := O |})
    as (ci & di & fi & C1 & D1 & F1 & Cr1 & N1).
  cbn [calls done failed List.app] in C1, D1, F1.
  set (after_instances := fold_left (backup_instance e) is' _) in *.
  destruct (backup_loop cluster_snapshot DBClusterIdentifier (backup_cluster e)
              (backup_cluster_turn e) cs'
              {| calls := calls after_instances; done := [];
                 failed := failed after_instances; seen := seen after_instances |})
    as (cc & dc & fc & C2 & D2 & F2 & Cr2 & N2).
  cbn [calls done failed List.app] in C2, D2, F2.
  set (after_clusters := fold_left (backup_cluster e) cs' _) in *.
  exists ci, cc, di, dc, fi, fc. rewrite !length_map.
  split; [| auto].
  destruct (cleanup_old_snapshots (retention e)) as [deletes [cleaned | x]];
    cbn [fst snd]; rewrite C2, C1, D1, D2, F2, F1, <- ?app_assoc, ?app_nil_r;
    reflexivity.
Qed.

End BackupRun.

Section BackupRunProperties.
Import DbBackup DbBackupHandler Terms.

(** The outcome of a delete request changes neither the requests a loop
    issues nor whether it raises. *)
Lemma cleanup_loop_any_outcome (kind : snapshot_kind) (c : Z)
    (del del' : delete_request -> result unit) (snapshots : list snapshot)
    (requests : list delete_request) (results results' : list cleanup_result) :
  fst (cleanup_loop kind c del' snapshots requests results')
  = fst (cleanup_loop kind c del snapshots requests results) /\
  raised (snd (cleanup_loop kind c del' snapshots requests results'))
  = raised (snd (cleanup_loop kind c del snapshots requests results)).
Proof.
  revert requests results results'.
  induction snapshots as [|s rest IH]; intros requests results results'.
  - split; reflexivity.
  - cbn [cleanup_loop]. destruct (selected_for_deletion c s); [| apply IH].
    destruct (identifier kind s) as [i | x]; [apply IH | split; reflexivity].
Qed.

(** X3. Whether a delete request succeeds or fails changes neither which
    delete requests the cleanup issues nor whether the cleanup raises: a
    refused deletion is recorded as a result and never becomes an error of
    the cleanup. *)
Theorem X3_delete_outcomes_never_stop_cleanup
    (r : rds) (outcome : delete_request -> result unit) :
  fst (cleanup_old_snapshots (with_delete r outcome)) = fst (cleanup_old_snapshots r) /\
  cleanup_raised (with_delete r outcome) = cleanup_raised r /\
  length (cleaned (with_delete r outcome)) = length (cleaned r).
Proof.
  assert (L : forall rr results,
             snd (cleanup_old_snapshots rr) = Ok results ->
             length results = length (fst (cleanup_old_snapshots rr))).
  { intros rr results E. symmetry.
    exact (cleanup_old_snapshots_length rr results E). }
  assert (P : fst (cleanup_old_snapshots (with_delete r outcome))
              = fst (cleanup_old_snapshots r) /\
              raised (snd (cleanup_old_snapshots (with_delete r outcome)))
              = raised (snd (cleanup_old_snapshots r))).
  { unfold cleanup_old_snapshots, with_delete.
    cbn [utcnow RETENTION_DAYS describe_db_snapshots describe_db_cluster_snapshots
         delete_snapshot].
    destruct (minus_days (utcnow r) (RETENTION_DAYS r)) as [c | x];
      [| split; reflexivity].
    destruct (describe_db_snapshots r) as [isnaps | x]; [| split; reflexivity].
    destruct (cleanup_loop_any_outcome instance_snapshot c (delete_snapshot r) outcome
                isnaps [] [] []) as [E1 E2].
    destruct (cleanup_loop instance_snapshot c outcome isnaps [] [])
      as [requests' [results' | x']];
      destruct (cleanup_loop instance_snapshot c (delete_snapshot r) isnaps [] [])
      as [requests [results | x]]; cbn [fst snd raised] in E1, E2;
      try discriminate; subst requests'; [| split; reflexivity].
    destruct (describe_db_cluster_snapshots r) as [csnaps | x]; [| split; reflexivity].
    apply cleanup_loop_any_outcome. }
  destruct P as [P1 P2]. split; [exact P1 |]. split; [exact P2 |].
  unfold cleaned.
  destruct (snd (cleanup_old_snapshots (with_delete r outcome))) as [res' | x'] eqn:E';
    destruct (snd (cleanup_old_snapshots r)) as [res | x] eqn:E;
    cbn [raised answer] in *; try discriminate; [| reflexivity].
  rewrite (L _ _ E'), (L _ _ E). now rewrite P1.
Qed.

Lemma snapshot_name_marked (source timestamp : string) :
  contains "-backup-" (snapshot_name source timestamp) = true.
Proof. apply contains_spec. exists source, timestamp. reflexivity. Qed.

Lemma snapshot_name_truthy (source timestamp : string) :
  truthy_str (snapshot_name source timestamp) = true.
Proof.
  unfold snapshot_name. destruct source as [|a source]; reflexivity.
Qed.

(** X4. Every snapshot the rotator asks for is one its cleanup recognises:
    the request carries the tag BackupType=Automated, and a listed snapshot
    under the requested identifier passes the marker test by its name
    alone, whatever tags the listing shows for it. *)
Theorem X4_own_snapshots_are_recognised
    (source : string) (utcnow : datetime) (expiry : result datetime)
    (create : create_request -> result string) (request : create_request)
    (s : snapshot) :
  (fst (backup_rds_instance source utcnow expiry create) = Some request /\
   DBSnapshotIdentifier s = Some (SnapshotIdentifier request)) \/
  (fst (backup_rds_cluster source utcnow expiry create) = Some request /\
   DBSnapshotIdentifier s = None /\
   DBClusterSnapshotIdentifier s = Some (SnapshotIdentifier request)) ->
  existsb is_automated_tag (RequestTags request) = true /\
  is_automated_backup_snapshot s = true.
Proof.
  unfold backup_rds_instance, backup_rds_cluster.
  destruct expiry as [d | x]; cbn [fst];
    [| intros [[E _] | [E _]]; discriminate].
  intros [[E I] | [E [I C]]]; injection E as <-;
    cbn [RequestTags SnapshotIdentifier] in *;
    (split; [reflexivity |]); unfold is_automated_backup_snapshot;
    destruct (existsb is_automated_tag _); try reflexivity; rewrite I; try rewrite C.
  - assert (O : or_opt_str (Some (snapshot_name source (strftime_seconds utcnow)))
                 (DBClusterSnapshotIdentifier s)
               = Some (snapshot_name source (strftime_seconds utcnow))).
    { unfold or_opt_str. cbn [truthy_opt_str]. now rewrite snapshot_name_truthy. }
    rewrite O. cbn [truthy_opt_str].
    change (default "" (Some ?x)) with x.
    now rewrite snapshot_name_truthy, snapshot_name_marked.
  - change (or_opt_str None ?b) with b. cbn [truthy_opt_str].
    change (default "" (Some ?x)) with x.
    now rewrite snapshot_name_truthy, snapshot_name_marked.
Qed.

Lemma X4_own_snapshots_are_recognised_witness :
  let request :=
    {| SnapshotIdentifier := "orders-backup-2025-10-09-02-00-00";
       SourceIdentifier := "orders";
       RequestTags :=
         [ {| Key := "BackupType"; Value := "Automated" |};
           {| Key := "BackupDate"; Value := "2025-10-09-02-00-00" |};
           {| Key := "SourceInstance"; Value := "orders" |};
           {| Key := "RetentionDate"; Value := "2025-11-08" |} ] |} in
  let untagged :=
    {| TagList := None; Tags := None;
       DBSnapshotIdentifier := Some "orders-backup-2025-10-09-02-00-00";
       DBClusterSnapshotIdentifier := None;
       SnapshotCreateTime := 1759975200000417 |} in
  existsb is_automated_tag (RequestTags request) = true /\
  is_automated_backup_snapshot untagged = true.
Proof.
  intros request untagged.
  apply (X4_own_snapshots_are_recognised "orders" Scenario.two_o_clock
           (expiry (clock Scenario.nightly 0))
           (create_db_snapshot Scenario.nightly) request untagged).
  left. split; reflexivity.
Defined.

(** X5. A run whose two listings are answered answers 200 and accounts for
    every resource it may back up: each available instance that is not a
    read replica, and each available cluster, gives either one backup
    result or one error; a cleanup that raises adds one error and leaves
    the cleanup results empty, and one that returns adds none. *)
Theorem X5_run_accounts_for_every_resource (e : env)
    (instances : list db_instance) (clusters : list db_cluster) :
  describe_db_instances e = Ok instances ->
  describe_db_clusters e = Ok clusters ->
  exists results instance_errors cluster_errors,
    snd (handler e) = {| statusCode := 200; response_body := ResultsBody results |} /\
    errors results
    = (instance_errors ++ cluster_errors ++ cleanup_errors (retention e))%list /\
    (length (db_instances results) + length instance_errors
     = length (List.filter eligible_instance instances))%nat /\
    (length (db_clusters results) + length cluster_errors
     = length (List.filter eligible_cluster clusters))%nat /\
    cleanup_results results = cleaned (retention e) /\
    length (cleanup_errors (retention e))
    = (if cleanup_raised (retention e) then 1 else 0)%nat.
Proof.
  intros DI DC.
  destruct (handler_listed e instances clusters DI DC)
    as (ci & cc & di & dc & fi & fc & E & _ & _ & N1 & N2).
  cbv zeta in E. eexists _, fi, fc. rewrite E. cbn [snd errors db_instances db_clusters
                                                   cleanup_results].
  unfold eligible_instances, eligible_clusters in N1, N2.
  rewrite DI, DC, !length_map in *. cbn [answer] in *.
  repeat split; auto.
  unfold cleanup_errors, cleanup_raised.
  destruct (snd (cleanup_old_snapshots (retention e))); reflexivity.
Qed.

Lemma X5_run_accounts_for_every_resource_witness :
  exists results instance_errors cluster_errors,
    snd (handler Scenario.nightly)
    = {| statusCode := 200; response_body := ResultsBody results |} /\
    errors results
    = (instance_errors ++ cluster_errors ++
       cleanup_errors (retention Scenario.nightly))%list /\
    (length (db_instances results) + length instance_errors = 1)%nat /\
    (length (db_clusters results) + length cluster_errors = 1)%nat /\
    cleanup_results results = cleaned (retention Scenario.nightly) /\
    length (cleanup_errors (retention Scenario.nightly)) = 0%nat.
Proof.
  exact (X5_run_accounts_for_every_resource Scenario.nightly _ _ eq_refl eq_refl).
Defined.

Lemma creates_not_publish (kind : snapshot_kind) (ids : list string) (cs : list call) :
  Forall (creates kind ids) cs -> Forall (fun c => is_publish c = false) cs.
Proof.
  intros Fc. eapply List.Forall_impl; [| exact Fc].
  intros [k rq | d | t n]; cbn; tauto.
Qed.

Lemma creates_not_delete (kind : snapshot_kind) (ids : list string) (cs : list call) :
  Forall (creates kind ids) cs -> Forall (fun c => is_delete c = false) cs.
Proof.
  intros Fc. eapply List.Forall_impl; [| exact Fc].
  intros [k rq | d | t n]; cbn; tauto.
Qed.

Lemma deletes_not_publish (ds : list delete_request) :
  Forall (fun c => is_publish c = false) (List.map delete ds).
Proof. induction ds; constructor; auto. Qed.

(** X6. Every run publishes exactly one notification, as its last call and
    to the configured topic, and the notification says what the response
    says: the results of a 200 response, headed "Success" exactly when they
    hold no error, or the error text of a 500 response. *)
Theorem X6_one_notification_last (e : env) :
  exists before said,
    fst (handler e) = (before ++ [publish (SNS_TOPIC_ARN e) said])%list /\
    Forall (fun c => is_publish c = false) before /\
    says said (snd (handler e)).
Proof.
  destruct (describe_db_instances e) as [instances | x] eqn:DI.
  - destruct (describe_db_clusters e) as [clusters | x] eqn:DC.
    + destruct (handler_listed e instances clusters DI DC)
        as (ci & cc & di & dc & fi & fc & E & C1 & C2 & _).
      cbv zeta in E. rewrite E. cbn [fst snd].
      eexists (ci ++ cc ++ List.map delete _)%list, _. split.
      * unfold send_notification. rewrite <- !app_assoc. reflexivity.
      * split.
        -- rewrite !Forall_app. repeat split.
           ++ exact (creates_not_publish _ _ _ C1).
           ++ exact (creates_not_publish _ _ _ C2).
           ++ apply deletes_not_publish.
        -- cbn [says response_body statusCode]. repeat split.
           ++ intros S. apply negb_true_iff, Z.ltb_ge in S.
              destruct (errors _); [reflexivity | cbn [length] in S; lia].
           ++ intros ->. reflexivity.
    + unfold handler. rewrite get_rds_instances_eligible, get_rds_clusters_eligible, DI, DC.
      cbn [mbind result_bind Py.bind mret result_ret fatal fst snd].
      destruct (backup_loop instance_snapshot DBInstanceIdentifier (backup_instance e)
                  (backup_instance_turn e) (List.filter eligible_instance instances)
                  {| calls := []; done := []; failed := []; seen := O |})
        as (ci & di & fi & C1 & _ & _ & Cr1 & _).
      cbn [calls List.app] in C1. unfold fatal. cbn [fst snd].
      eexists _, _. split; [reflexivity |]. split.
      * rewrite C1. exact (creates_not_publish _ _ _ Cr1).
      * cbn. split; reflexivity.
  - unfold handler. rewrite get_rds_instances_eligible, DI.
    cbn [mbind result_bind Py.bind fatal fst snd]. unfold fatal. cbn [fst snd].
    exists [], (Failure ("Database backup process failed: " ++ x)).
    split; [reflexivity |]. split; [constructor |]. cbn. split; reflexivity.
Qed.

(** X7. A run answers 500 exactly when one of its two listing calls raises,
    and 200 otherwise.  A run that answers 500 issues no delete request;
    when it is the listing of the instances that raises, the error
    notification is the only call of the run. *)
Theorem X7_fatal_only_when_a_listing_fails (e : env) :
  (statusCode (snd (handler e))
   = if raised (describe_db_instances e) || raised (describe_db_clusters e)
     then 500 else 200) /\
  (statusCode (snd (handler e)) = 500 ->
   Forall (fun c => is_delete c = false) (fst (handler e))) /\
  (raised (describe_db_instances e) = true -> length (fst (handler e)) = 1%nat).
Proof.
  destruct (describe_db_instances e) as [instances | x] eqn:DI.
  - destruct (describe_db_clusters e) as [clusters | x] eqn:DC.
    + destruct (handler_listed e instances clusters DI DC)
        as (ci & cc & di & dc & fi & fc & E & _).
      cbv zeta in E. rewrite E. cbn. repeat split; discriminate.
    + unfold handler. rewrite get_rds_instances_eligible, get_rds_clusters_eligible, DI, DC.
      cbn [mbind result_bind Py.bind mret result_ret].
      destruct (backup_loop instance_snapshot DBInstanceIdentifier (backup_instance e)
                  (backup_instance_turn e) (List.filter eligible_instance instances)
                  {| calls := []; done := []; failed := []; seen := O |})
        as (ci & di & fi & C1 & _ & _ & Cr1 & _).
      cbn [calls List.app] in C1. unfold fatal. cbn [fst snd statusCode raised orb].
      split; [reflexivity |]. split; [| discriminate]. intros _.
      rewrite C1, Forall_app. split.
      * exact (creates_not_delete _ _ _ Cr1).
      * constructor; [reflexivity | constructor].
  - unfold handler. rewrite get_rds_instances_eligible, DI.
    cbn [mbind result_bind Py.bind]. unfold fatal. cbn.
    repeat split. constructor; [reflexivity | constructor].
Qed.

(** X8. A run never asks for anything else than: a snapshot of an instance
    listed as available that is not a read replica, or of a cluster listed
    as available, tagged BackupType=Automated; a deletion its cleanup
    selected; a notification to the configured topic. *)
Theorem X8_run_issues_only_allowed_calls (e : env) :
  Forall (allowed e) (fst (handler e)).
Proof.
  assert (A1 : forall cs, Forall (creates instance_snapshot (eligible_instances e)) cs ->
                          Forall (allowed e) cs).
  { intros cs Fc. eapply List.Forall_impl; [| exact Fc].
    intros [k rq | d | t n]; cbn; try tauto. intros (-> & I & T). cbn. auto. }
  assert (A2 : forall cs, Forall (creates cluster_snapshot (eligible_clusters e)) cs ->
                          Forall (allowed e) cs).
  { intros cs Fc. eapply List.Forall_impl; [| exact Fc].
    intros [k rq | d | t n]; cbn; try tauto. intros (-> & I & T). cbn. auto. }
  destruct (describe_db_instances e) as [instances | x] eqn:DI.
  - destruct (describe_db_clusters e) as [clusters | x] eqn:DC.
    + destruct (handler_listed e instances clusters DI DC)
        as (ci & cc & di & dc & fi & fc & E & C1 & C2 & _).
      cbv zeta in E. rewrite E. cbn [fst]. rewrite !Forall_app.
      split; [auto |]. split; [auto |]. split.
      * apply List.Forall_forall. intros c I. apply in_map_iff in I as (d & <- & I).
        exact I.
      * constructor; [reflexivity | constructor].
    + unfold handler. rewrite get_rds_instances_eligible, get_rds_clusters_eligible, DI, DC.
      cbn [mbind result_bind Py.bind mret result_ret].
      destruct (backup_loop instance_snapshot DBInstanceIdentifier (backup_instance e)
                  (backup_instance_turn e) (List.filter eligible_instance instances)
                  {| calls := []; done := []; failed := []; seen := O |})
        as (ci & di & fi & C1 & _ & _ & Cr1 & _).
      cbn [calls List.app] in C1. unfold fatal. cbn [fst]. rewrite C1, Forall_app.
      split.
      * apply A1. unfold eligible_instances. now rewrite DI.
      * constructor; [reflexivity | constructor].
  - unfold handler. rewrite get_rds_instances_eligible, DI.
    cbn [mbind result_bind Py.bind]. unfold fatal. cbn [fst List.app].
    constructor; [reflexivity | constructor].
Qed.

(** X9. The report of a run whose two listings are answered is headed
    "Success" exactly when every instance and every cluster it may back up
    gave a backup result and the cleanup did not raise; deletions that the
    cleanup attempted and that failed do not change the heading. *)
Theorem X9_success_means_all_backed_up (e : env)
    (instances : list db_instance) (clusters : list db_cluster) :
  describe_db_instances e = Ok instances ->
  describe_db_clusters e = Ok clusters ->
  exists before success results,
    fst (handler e)
    = (before ++ [publish (SNS_TOPIC_ARN e) (Report success results)])%list /\
    (success = true <->
     length (db_instances results) = length (List.filter eligible_instance instances) /\
     length (db_clusters results) = length (List.filter eligible_cluster clusters) /\
     cleanup_raised (retention e) = false).
Proof.
  intros DI DC.
  destruct (handler_listed e instances clusters DI DC)
    as (ci & cc & di & dc & fi & fc & E & _ & _ & N1 & N2).
  cbv zeta in E. rewrite E. cbn [fst].
  unfold eligible_instances, eligible_clusters in N1, N2.
  rewrite DI, DC, !length_map in *. cbn [answer] in *.
  eexists (ci ++ cc ++ List.map delete _)%list, _, _. split.
  - unfold send_notification. rewrite <- !app_assoc. reflexivity.
  - cbn [errors db_instances db_clusters]. rewrite !length_app.
    unfold cleanup_errors, cleanup_raised.
    destruct (snd (cleanup_old_snapshots (retention e))); cbn [length];
      rewrite negb_true_iff, Z.ltb_ge; split.
    + intros L. repeat split; lia.
    + intros (L1 & L2 & _). lia.
    + intros L. lia.
    + intros (_ & _ & L). discriminate.
Qed.

Lemma X9_success_means_all_backed_up_witness :
  exists before success results,
    fst (handler Scenario.nightly)
    = (before ++
       [publish (SNS_TOPIC_ARN Scenario.nightly) (Report success results)])%list /\
    (success = true <->
     length (db_instances results) = 1%nat /\
     length (db_clusters results) = 1%nat /\
     cleanup_raised (retention Scenario.nightly) = false).
Proof.
  exact (X9_success_means_all_backed_up Scenario.nightly _ _ eq_refl eq_refl).
Defined.

End BackupRunProperties.

(** ** The chat relay: delivery *)

Section RelayDelivery.
Import SlackNotifier Terms.

(** X10. The relay answers 200 exactly when the webhook URL is set and not
    empty, the event has its records, and every record has its Sns object
    and was answered by the webhook with status 200; it has then posted
    one payload per record, in the order of the records. *)
Theorem X10_relay_ok_means_all_delivered
    (url : option string) (e : event) (post : slack_message -> result Z) :
  (statusCode (snd (handler url e post)) = 200 <->
   truthy_opt_str url = true /\
   exists records, Records e = Some records /\ Forall (delivered post) records) /\
  (statusCode (snd (handler url e post)) = 200 ->
   List.map Some (fst (handler url e post)) = List.map payload (records_of e)).
Proof.
  unfold handler, records_of. destruct (truthy_opt_str url); cbn [negb].
  - destruct (Records e) as [records |].
    + destruct (relay_ok post records) as [I P]. split; [| exact P].
      rewrite I. split.
      * intros Fr. split; [reflexivity |]. now exists records.
      * intros (_ & records' & E & Fr). now injection E as <-.
    + cbn. split; [| discriminate]. split; [discriminate |].
      intros (_ & records & E & _). discriminate.
  - cbn. split; [| discriminate]. split; [discriminate |]. intros [E _]. discriminate.
Qed.

(** X11. Whatever happens, the payloads the relay posts are those of the
    first records of the event, in order, and every one of them but the
    last was answered with status 200: after a post that fails or is
    answered otherwise, nothing more is posted.  Without a webhook URL
    nothing is posted at all. *)
Theorem X11_relay_stops_at_first_failure
    (url : option string) (e : event) (post : slack_message -> result Z) :
  (exists n,
     List.map Some (fst (handler url e post))
     = List.map payload (firstn n (records_of e))) /\
  Forall (fun p => post p = Ok 200) (removelast (fst (handler url e post))) /\
  (truthy_opt_str url = false -> fst (handler url e post) = []).
Proof.
  unfold handler, records_of. destruct (truthy_opt_str url); cbn [negb].
  - destruct (Records e) as [records |].
    + destruct (relay_prefix post records) as (n & E & A).
      split; [now exists n |]. split; [exact A | discriminate].
    + split; [now exists O |]. split; [constructor | discriminate].
  - split; [now exists O |]. split; [constructor | reflexivity].
Qed.

Lemma contains_colon_cons (a : ascii) (rest : string) :
  contains ":" (String a rest) = Ascii.eqb a ":"%char || contains ":" rest.
Proof.
  cbn [contains String.prefix].
  destruct (ascii_dec ":"%char a) as [<- | N].
  - destruct rest; reflexivity.
  - destruct (Ascii.eqb_spec a ":"%char) as [-> | _]; [now destruct N | reflexivity].
Qed.

Lemma contains_colon_app (a b : string) :
  contains ":" (a ++ b) = contains ":" a || contains ":" b.
Proof.
  induction a as [|x a IH]; [reflexivity |].
  now rewrite append_cons, !contains_colon_cons, IH, orb_assoc.
Qed.

(** What follows the last colon has no colon, and the text ends with it. *)
Lemma last_segment_from_spec (s current : string) :
  contains ":" current = false ->
  contains ":" (last_segment_from s current) = false /\
  (current ++ s = last_segment_from s current \/
   exists before, current ++ s = before ++ ":" ++ last_segment_from s current).
Proof.
  revert current. induction s as [|c s IH]; intros current C.
  - cbn [last_segment_from]. split; [exact C |]. left.
    clear C. induction current as [|a current IHc]; [reflexivity |].
    rewrite append_cons. now f_equal.
  - cbn [last_segment_from]. destruct (Ascii.eqb_spec c ":"%char) as [-> | N].
    + destruct (IH "" eq_refl) as [NC E]. rewrite append_nil_l in E.
      set (seg := last_segment_from s "") in *.
      split; [exact NC |]. right. destruct E as [E | (before & E)].
      * exists current. rewrite E. reflexivity.
      * exists (current ++ ":" ++ before). rewrite E, !append_assoc. reflexivity.
    + assert (C' : contains ":" (current ++ String c "") = false).
      { rewrite contains_colon_app, C, contains_colon_cons.
        destruct (Ascii.eqb_spec c ":"%char) as [-> | _]; [now destruct N | reflexivity]. }
      destruct (IH _ C') as [NC E]. split; [exact NC |].
      assert (A : (current ++ String c "") ++ s = current ++ String c s).
      { rewrite append_assoc. now rewrite append_cons, append_nil_l. }
      rewrite A in E. exact E.
Qed.

(** X12. The "Topic" field of a payload is the part of the topic ARN that
    follows its last colon: it holds no colon, and the ARN is either that
    text (when it has no colon) or some text, a colon, and that text. *)
Theorem X12_topic_field_is_last_segment (m : sns_message) :
  let topic_arn := default "" (TopicArn m) in
  exists name,
    topic_field (build_slack_message m) = Some name /\
    contains ":" name = false /\
    (topic_arn = name \/ exists before, topic_arn = before ++ ":" ++ name).
Proof.
  intros topic_arn. exists (last_segment topic_arn). split.
  - unfold build_slack_message. fold topic_arn.
    destruct (classify topic_arn). reflexivity.
  - destruct (last_segment_from_spec topic_arn "" eq_refl) as [NC E].
    rewrite append_nil_l in E. split; [exact NC | exact E].
Qed.

End RelayDelivery.

(** ** The compliance checks: what they count *)

Section CheckInduction.
Import ComplianceChecker Terms.
Variables total_key compliant_key : string.
Variable P : check_report -> Prop.
Hypothesis P_zeros : P (zeros total_key compliant_key).
Hypothesis P_compliant :
  forall report, P report -> P (count compliant_key (count total_key report)).
Hypothesis P_violation :
  forall v report, P report -> P (record_violation v (count total_key report)).

Lemma fold_left_inv {A} (f : check_report -> A -> check_report) (l : list A) :
  (forall report x, P report -> P (f report x)) ->
  forall report, P report -> P (fold_left f l report).
Proof.
  intros Hf. induction l as [|x l IH]; intros report C; [exact C |].
  apply IH. now apply Hf.
Qed.

Lemma for_each_inv {A} (f : check_report -> A -> result check_report) (l : list A) :
  (forall report x report', P report -> f report x = Ok report' -> P report') ->
  forall report report', P report -> for_each f l report = Ok report' -> P report'.
Proof.
  intros Hf. induction l as [|x l IH]; intros report report' C E.
  - injection E as <-. exact C.
  - cbn [for_each] in E. destruct (f report x) as [r1 | e] eqn:Fx; [| discriminate].
    apply (IH r1 report'); [| exact E]. exact (Hf _ _ _ C Fx).
Qed.

Lemma try_except_inv (scan : result check_report) :
  (forall report, scan = Ok report -> P report) ->
  P (try_except scan (fun _ => zeros total_key compliant_key)).
Proof.
  intros Hs. destruct scan as [report | e]; [now apply Hs | exact P_zeros].
Qed.

End CheckInduction.

Section ChecksByInduction.
Import ComplianceChecker Terms.
Variable P : check_report -> Prop.

Local Ltac step_inv Hc Hv :=
  first [ apply Hc; assumption | apply Hv; assumption | assumption ].

(** What holds of the all-zero report and is kept by counting a compliant
    resource and by counting a resource in violation holds of the report
    of each check. *)
Lemma check_resource_tagging_inv (PN : string) (c : cloud) :
  P (zeros "total_resources" "compliant_resources") ->
  (forall r, P r -> P (count "compliant_resources" (count "total_resources" r))) ->
  (forall v r, P r -> P (record_violation v (count "total_resources" r))) ->
  P (check_resource_tagging PN c).
Proof.
  intros Hz Hc Hv. unfold check_resource_tagging. apply try_except_inv; [exact Hz |].
  intros report. unfold resource_tagging_scan.
  destruct (tagging_describe_instances c) as [rs | e]; [| discriminate].
  destruct (tagging_list_buckets c) as [bs | e]; [| discriminate].
  cbn [mbind result_bind Py.bind]. apply for_each_inv.
  - intros r name r' C. unfold tag_bucket.
    destruct (contains PN name); [| intros E; injection E as <-; exact C].
    destruct (get_bucket_tagging c name) as [tags | | e]; [| | discriminate].
    + destruct (is_nil _); intros E; injection E as <-; step_inv Hc Hv.
    + intros E; injection E as <-; step_inv Hc Hv.
  - apply fold_left_inv; [| exact Hz].
    intros r x C. apply fold_left_inv; [| exact C].
    intros r' i C'. unfold tag_instance.
    destruct (in_strings _ _); [| exact C'].
    destruct (is_nil _); step_inv Hc Hv.
Qed.

Lemma check_security_groups_inv (c : cloud) :
  P (zeros "total_security_groups" "compliant_security_groups") ->
  (forall r, P r ->
             P (count "compliant_security_groups" (count "total_security_groups" r))) ->
  (forall v r, P r -> P (record_violation v (count "total_security_groups" r))) ->
  P (check_security_groups c).
Proof.
  intros Hz Hc Hv. unfold check_security_groups. apply try_except_inv; [exact Hz |].
  intros report. unfold security_groups_scan.
  destruct (describe_security_groups c) as [gs | e]; [| discriminate].
  cbn [mbind result_bind Py.bind mret result_ret]. intros E. injection E as <-.
  apply fold_left_inv; [| exact Hz].
  intros r sg C. unfold inspect_group.
  destruct (String.eqb _ _); [exact C |].
  destruct (is_nil _); step_inv Hc Hv.
Qed.

Lemma check_s3_bucket_policies_inv (PN : string) (c : cloud) :
  P (zeros "total_buckets" "compliant_buckets") ->
  (forall r, P r -> P (count "compliant_buckets" (count "total_buckets" r))) ->
  (forall v r, P r -> P (record_violation v (count "total_buckets" r))) ->
  P (check_s3_bucket_policies PN c).
Proof.
  intros Hz Hc Hv. unfold check_s3_bucket_policies. apply try_except_inv; [exact Hz |].
  intros report. unfold s3_bucket_policies_scan.
  destruct (policies_list_buckets c) as [bs | e]; [| discriminate].
  cbn [mbind result_bind Py.bind]. apply for_each_inv; [| exact Hz].
  intros r name r' C. unfold inspect_bucket.
  destruct (negb (contains PN name)); [intros E; injection E as <-; exact C |].
  destruct (get_public_access_block c name) as [config | | e];
    [destruct (negb (blocks_all config)) | | discriminate];
    cbn [mbind result_bind Py.bind];
    (destruct (get_bucket_encryption c name) as [ | | e]; [| | discriminate]);
    cbn [mbind result_bind Py.bind];
    match goal with
    | |- context [is_nil ?l] => destruct (is_nil l)
    end; intros E; injection E as <-; step_inv Hc Hv.
Qed.

Lemma check_encryption_compliance_inv (c : cloud) :
  P (zeros "total_resources" "encrypted_resources") ->
  (forall r, P r -> P (count "encrypted_resources" (count "total_resources" r))) ->
  (forall v r, P r -> P (record_violation v (count "total_resources" r))) ->
  P (check_encryption_compliance c).
Proof.
  intros Hz Hc Hv. unfold check_encryption_compliance. apply try_except_inv; [exact Hz |].
  intros report. unfold encryption_scan.
  destruct (encryption_describe_db_instances c) as [dbs | e]; [| discriminate].
  destruct (describe_volumes c) as [vs | e]; [| discriminate].
  cbn [mbind result_bind Py.bind mret result_ret]. intros E. injection E as <-.
  apply fold_left_inv.
  - intros r v C. unfold inspect_volume. destruct (default false _); step_inv Hc Hv.
  - apply fold_left_inv; [| exact Hz].
    intros r db C. unfold inspect_db_encryption.
    destruct (default false _); step_inv Hc Hv.
Qed.

Lemma check_public_access_compliance_inv (c : cloud) :
  P (zeros "total_resources" "private_resources") ->
  (forall r, P r -> P (count "private_resources" (count "total_resources" r))) ->
  (forall v r, P r -> P (record_violation v (count "total_resources" r))) ->
  P (check_public_access_compliance c).
Proof.
  intros Hz Hc Hv. unfold check_public_access_compliance. apply try_except_inv; [exact Hz |].
  intros report. unfold public_access_scan.
  destruct (public_describe_db_instances c) as [dbs | e]; [| discriminate].
  destruct (public_describe_instances c) as [rs | e]; [| discriminate].
  cbn [mbind result_bind Py.bind mret result_ret]. intros E. injection E as <-.
  apply fold_left_inv.
  - intros r x C. apply fold_left_inv; [| exact C].
    intros r' i C'. unfold inspect_instance_access.
    destruct (in_strings _ _); [| exact C'].
    destruct (_ && _); step_inv Hc Hv.
  - apply fold_left_inv; [| exact Hz].
    intros r db C. unfold inspect_db_access.
    destruct (negb _); step_inv Hc Hv.
Qed.

End ChecksByInduction.

Section Balance.
Import ComplianceChecker Spec Terms.
Variables total_key compliant_key : string.
Hypothesis distinct_keys : total_key <> compliant_key.

Lemma zeros_balanced : balanced total_key compliant_key (zeros total_key compliant_key).
Proof.
  exists {| total := 0; compliant := 0 |}. split; [reflexivity |]. cbn. lia.
Qed.

Lemma compliant_balanced (report : check_report) :
  balanced total_key compliant_key report ->
  balanced total_key compliant_key (count compliant_key (count total_key report)).
Proof.
  intros (c & E & N & B).
  exists {| total := total c + 1; compliant := compliant c + 1 |}. split.
  - rewrite (count_compliant total_key compliant_key distinct_keys _
               {| total := total c + 1; compliant := compliant c |}).
    + reflexivity.
    + now apply count_total.
  - cbn [total compliant count violations]. lia.
Qed.

Lemma violation_balanced (v : violation) (report : check_report) :
  balanced total_key compliant_key report ->
  balanced total_key compliant_key (record_violation v (count total_key report)).
Proof.
  intros (c & E & N & B).
  exists {| total := total c + 1; compliant := compliant c |}. split.
  - cbn [record_violation counts]. now apply count_total.
  - cbn [total compliant record_violation count violations].
    rewrite length_app. cbn [length]. lia.
Qed.

End Balance.

Section BalanceOfChecks.
Import ComplianceChecker Spec Terms.

(** X13. In the report of each of the five custom checks, whatever the
    inventory calls answer, the total count is the compliant count plus the
    number of violations listed: every resource a check counts is either
    counted compliant or listed as a violation, never both and never
    neither. *)
Theorem X13_checks_balance (PROJECT_NAME : string) (c : cloud) :
  balanced "total_resources" "compliant_resources"
    (check_resource_tagging PROJECT_NAME c) /\
  balanced "total_security_groups" "compliant_security_groups"
    (check_security_groups c) /\
  balanced "total_buckets" "compliant_buckets"
    (check_s3_bucket_policies PROJECT_NAME c) /\
  balanced "total_resources" "encrypted_resources" (check_encryption_compliance c) /\
  balanced "total_resources" "private_resources" (check_public_access_compliance c).
Proof.
  repeat split.
  - apply check_resource_tagging_inv;
      [apply zeros_balanced | apply compliant_balanced; discriminate
      | intros v r; apply violation_balanced].
  - apply check_security_groups_inv;
      [apply zeros_balanced | apply compliant_balanced; discriminate
      | intros v r; apply violation_balanced].
  - apply check_s3_bucket_policies_inv;
      [apply zeros_balanced | apply compliant_balanced; discriminate
      | intros v r; apply violation_balanced].
  - apply check_encryption_compliance_inv;
      [apply zeros_balanced | apply compliant_balanced; discriminate
      | intros v r; apply violation_balanced].
  - apply check_public_access_compliance_inv;
      [apply zeros_balanced | apply compliant_balanced; discriminate
      | intros v r; apply violation_balanced].
Qed.

End BalanceOfChecks.

(** ** The compliance handler: rules, notices and recommendations *)

Section RuleCounts.
Import ComplianceChecker Spec Terms.

Lemma count_rule_exact (st : config_status) (rc : rule_compliance) (t k : Z) :
  rule_counts st = rule_counts_of {| total := t; compliant := k |} ->
  rule_counts (count_rule st rc)
  = rule_counts_of
      {| total := t + 1;
         compliant := k + (if String.eqb (ComplianceType rc) "COMPLIANT" then 1 else 0) |}.
Proof.
  intros E. unfold count_rule. cbn [rule_counts]. rewrite E.
  unfold incr, rule_counts_of. cbn [total compliant].
  destruct (String.eqb (ComplianceType rc) "COMPLIANT").
  - rewrite alter_insert_eq, alter_insert_ne, alter_insert_eq by discriminate.
    do 3 f_equal. lia.
  - rewrite alter_insert_eq, !alter_insert_ne, alter_singleton_eq by discriminate.
    do 3 f_equal; lia.
Qed.

Lemma fold_count_rule_exact (rules : list rule_compliance) (st : config_status) (t k : Z) :
  rule_counts st = rule_counts_of {| total := t; compliant := k |} ->
  rule_counts (fold_left count_rule rules st)
  = rule_counts_of
      {| total := t + Z.of_nat (length rules);
         compliant := k + Z.of_nat (compliant_rules_in rules) |}.
Proof.
  revert st t k. induction rules as [|rc rules IH]; intros st t k E.
  - cbn. rewrite E. do 2 f_equal; lia.
  - cbn [fold_left]. rewrite (IH _ _ _ (count_rule_exact st rc t k E)).
    unfold compliant_rules_in. cbn [List.filter length].
    destruct (String.eqb (ComplianceType rc) "COMPLIANT"); cbn [length];
      f_equal; f_equal; lia.
Qed.

Lemma fold_count_rule_detail (rules : list rule_compliance) (st : config_status)
    (name : string) :
  is_Some (rules_detail st !! name) \/
  (exists rc, In rc rules /\ ConfigRuleName rc = name) ->
  is_Some (rules_detail (fold_left count_rule rules st) !! name).
Proof.
  revert st. induction rules as [|rc rules IH]; intros st.
  - intros [S | (rc & [] & _)]. exact S.
  - intros D. cbn [fold_left]. apply IH.
    destruct (decide (ConfigRuleName rc = name)) as [E | N].
    + left. unfold count_rule. cbn [rules_detail]. rewrite E, lookup_insert_eq. eauto.
    + destruct D as [S | (rc' & [<- | I] & E)].
      * left. unfold count_rule. cbn [rules_detail].
        now rewrite lookup_insert_ne by exact N.
      * now destruct N.
      * right. eauto.
Qed.

(** X14. When the configuration service answers, get_config_rules_compliance
    counts every rule of the answer in total_rules, the rules whose
    ComplianceType is exactly COMPLIANT in compliant_rules, and all the
    others (NON_COMPLIANT, INSUFFICIENT_DATA, NOT_APPLICABLE alike) in
    non_compliant_rules; and rules_detail has an entry under the name of
    every rule. *)
Theorem X14_rule_counts (rules : list rule_compliance) :
  rule_counts (get_config_rules_compliance (Ok rules))
  = {[ "total_rules" := Z.of_nat (length rules);
       "compliant_rules" := Z.of_nat (compliant_rules_in rules);
       "non_compliant_rules" := Z.of_nat (length rules - compliant_rules_in rules) ]} /\
  Forall (fun rc =>
            is_Some (rules_detail (get_config_rules_compliance (Ok rules))
                       !! ConfigRuleName rc))
    rules.
Proof.
  unfold get_config_rules_compliance.
  cbn [try_except mbind result_bind Py.bind mret result_ret]. split.
  - rewrite (fold_count_rule_exact rules _ 0 0) by reflexivity.
    unfold rule_counts_of. cbn [total compliant].
    assert (L : (compliant_rules_in rules <= length rules)%nat)
      by apply List.filter_length_le.
    do 3 f_equal; lia.
  - apply List.Forall_forall. intros rc I. apply fold_count_rule_detail. right. eauto.
Qed.

End RuleCounts.

Section Notices.
Import ComplianceChecker Spec Terms.
Context {F : Type} `{Num F}.

(** X15. Every notice the compliance handler publishes goes to the
    configured topic.  A compliance notice carries the report of the run
    and is headed Critical when the score is below 70 and Warning
    otherwise: the handler only notifies below 90, so the heading Good is
    never sent.  An error notice carries the error of the 500 response.
    A run publishes at most one notice of each kind. *)
Theorem X15_notices_fit (e : env) :
  Forall (fitting e) (snd (handler (F:=F) e)) /\
  (length (List.filter is_compliance_notice (snd (handler (F:=F) e))) <= 1)%nat /\
  (length (List.filter (fun p => negb (is_compliance_notice p))
             (snd (handler (F:=F) e)))
   <= if (statusCode (fst (handler (F:=F) e)) =? 500)%Z then 1 else 0)%nat.
Proof.
  unfold fitting, handler. cbv zeta.
  set (report := build_report e).
  assert (S : forall sent : list publish,
             sent = (if ltb (compliance_score report) (of_Z 90)
                     then send_compliance_notification e report else []) ->
             Forall (fun p =>
                       TopicArn p = default "" (SNS_TOPIC_ARN e) /\
                       match Notice p with
                       | ComplianceNotice band r =>
                           r = report /\
                           band = (if ltb (compliance_score r) (of_Z 70)
                                   then Critical else Warning)
                       | ErrorNotice _ => False
                       end) sent /\
             (length sent <= 1)%nat /\
             List.filter (fun p => negb (is_compliance_notice p)) sent = []).
  { intros sent ->. destruct (ltb (compliance_score report) (of_Z 90)) eqn:L90;
      [| repeat split; [constructor | cbn; lia]].
    unfold send_compliance_notification.
    destruct (negb (truthy_opt_str (SNS_TOPIC_ARN e)));
      [repeat split; [constructor | cbn; lia] |].
    rewrite L90. repeat split; [| cbn; lia].
    constructor; [| constructor]. cbn [TopicArn Notice]. repeat split. }
  specialize (S _ eq_refl). destruct S as (S1 & S2 & S3).
  set (sent := if ltb (compliance_score report) (of_Z 90)
               then send_compliance_notification e report else []) in *.
  assert (S4 : (length (List.filter is_compliance_notice sent) <= 1)%nat).
  { pose proof (List.filter_length_le is_compliance_notice sent). lia. }
  destruct (json_dumps_raises e) as [exn |]; cbn [fst snd statusCode response_body].
  - assert (S1' : Forall (fun p =>
                            TopicArn p = default "" (SNS_TOPIC_ARN e) /\
                            match Notice p with
                            | ComplianceNotice band r =>
                                r = build_report e /\
                                band = (if ltb (compliance_score r) (of_Z 70)
                                        then Critical else Warning)
                            | ErrorNotice msg =>
                                ErrorBody (F:=F) ("Compliance check failed: " ++ exn)
                                = ErrorBody msg
                            end) sent).
    { eapply List.Forall_impl; [| exact S1]. cbv beta. intros p [T N]. split; [exact T |].
      destruct (Notice p); [exact N | destruct N]. }
    unfold send_error_notification.
    destruct (truthy_opt_str (SNS_TOPIC_ARN e)); cbn [negb].
    + rewrite Forall_app, !List.filter_app, !length_app, S3. cbn.
      split; [split; [exact S1' |] | lia].
      constructor; [| constructor]. split; reflexivity.
    + rewrite S3. cbn. split; [exact S1' | lia].
  - rewrite S3. cbn. split; [| lia].
    eapply List.Forall_impl; [| exact S1]. cbv beta. intros p [T N]. split; [exact T |].
    destruct (Notice p); [exact N | destruct N].
Qed.

End Notices.

Section Recommendations.
Import ComplianceChecker Spec Terms.
Context {F : Type} `{Num F}.

Lemma generate_recommendations_nil (report : compliance_report (F:=F)) :
  let checks := custom_checks report in
  (generate_recommendations report = [] <->
   (0 <? get0 (rule_counts (config_rules_status report)) "non_compliant_rules") = false /\
   violations_of checks "tagging_compliance" = [] /\
   violations_of checks "security_groups" = [] /\
   violations_of checks "s3_bucket_policies" = [] /\
   violations_of checks "encryption_status" = [] /\
   violations_of checks "public_access" = []) /\
  (length (generate_recommendations report) <= 6)%nat.
Proof.
  intros checks. unfold generate_recommendations. fold checks. cbv zeta.
  destruct (0 <? get0 (rule_counts (config_rules_status report)) "non_compliant_rules");
    destruct (violations_of checks "tagging_compliance");
    destruct (violations_of checks "security_groups");
    destruct (violations_of checks "s3_bucket_policies");
    destruct (violations_of checks "encryption_status");
    destruct (violations_of checks "public_access");
    cbn [truthy_list append List.app length];
    (split; [split; [intros E; try discriminate E; repeat split
                    | intros (E1 & E2 & E3 & E4 & E5 & E6); try discriminate;
                      reflexivity]
            | lia]).
Qed.

Lemma custom_checks_lookup (PN : string) (c : cloud) (name : string)
    (check : check_report) :
  perform_custom_checks PN c !! name = Some check <->
  (name = "tagging_compliance" /\ check = check_resource_tagging PN c) \/
  (name = "security_groups" /\ check = check_security_groups c) \/
  (name = "s3_bucket_policies" /\ check = check_s3_bucket_policies PN c) \/
  (name = "encryption_status" /\ check = check_encryption_compliance c) \/
  (name = "public_access" /\ check = check_public_access_compliance c).
Proof.
  unfold perform_custom_checks.
  rewrite !lookup_insert_Some, lookup_singleton_Some.
  split.
  - intros [[<- <-] | [N1 [[<- <-] | [N2 [[<- <-] | [N3 [[<- <-] | [N4 [<- <-]]]]]]]]];
      tauto.
  - intros [[-> ->] | [[-> ->] | [[-> ->] | [[-> ->] | [-> ->]]]]].
    + left. split; reflexivity.
    + right. split; [discriminate |]. left. split; reflexivity.
    + right. split; [discriminate |]. right. split; [discriminate |].
      left. split; reflexivity.
    + right. split; [discriminate |]. right. split; [discriminate |].
      right. split; [discriminate |]. left. split; reflexivity.
    + right. split; [discriminate |]. right. split; [discriminate |].
      right. split; [discriminate |]. right. split; [discriminate |].
      split; reflexivity.
Qed.

Lemma violations_of_check (PN : string) (c : cloud) (name : string)
    (check : check_report) :
  perform_custom_checks PN c !! name = Some check ->
  violations_of (perform_custom_checks PN c) name = violations check.
Proof. intros E. unfold violations_of. now rewrite E. Qed.

(** X16. The report of a run recommends nothing exactly when it shows
    nothing to remedy: no rule counted non-compliant, and an empty list of
    violations in every custom check.  It never holds more than six
    recommendations. *)
Theorem X16_no_recommendation_iff_no_finding (e : env) :
  let report := build_report (F:=F) e in
  (recommendations report = [] <->
   get0 (rule_counts (config_rules_status report)) "non_compliant_rules" = 0 /\
   forall name check,
     custom_checks report !! name = Some check -> violations check = []) /\
  (length (recommendations report) <= 6)%nat.
Proof.
  intros report.
  assert (G : recommendations report
              = generate_recommendations
                  {| timestamp := now_isoformat e; project := PROJECT_NAME e;
                     environment := ENVIRONMENT e;
                     config_rules_status := config_rules_status report;
                     custom_checks := custom_checks report;
                     compliance_score := compliance_score report;
                     report_violations := [];
                     recommendations := [] |}) by reflexivity.
  rewrite G. clear G.
  match goal with
  | |- context [generate_recommendations ?r] =>
      destruct (generate_recommendations_nil r) as [N L]
  end.
  cbn [custom_checks config_rules_status] in N.
  split; [| exact L]. rewrite N. clear N L.
  assert (Z0 : (0 <? get0 (rule_counts (config_rules_status report))
                       "non_compliant_rules") = false <->
               get0 (rule_counts (config_rules_status report)) "non_compliant_rules" = 0).
  { destruct (get_config_rules_compliance_counts (describe_compliance_by_config_rule e))
      as (c & W & E).
    change (config_rules_status report)
      with (get_config_rules_compliance (describe_compliance_by_config_rule e)).
    rewrite E. unfold well_counted in W.
    assert (V : get0 (rule_counts_of c) "non_compliant_rules" = total c - compliant c)
      by reflexivity.
    rewrite V, Z.ltb_ge. lia. }
  rewrite Z0. clear Z0.
  change (custom_checks report)
    with (perform_custom_checks (PROJECT_NAME e) (inventory e)).
  set (PN := PROJECT_NAME e). set (c := inventory e).
  assert (V : forall name check,
             perform_custom_checks PN c !! name = Some check ->
             violations_of (perform_custom_checks PN c) name = violations check)
    by apply violations_of_check.
  split.
  - intros (R & V1 & V2 & V3 & V4 & V5). split; [exact R |].
    intros name check L. rewrite <- (V _ _ L).
    apply custom_checks_lookup in L
      as [[-> _] | [[-> _] | [[-> _] | [[-> _] | [-> _]]]]]; assumption.
  - intros [R A]. split; [exact R |].
    repeat split;
      match goal with
      | |- violations_of _ ?name = [] =>
          destruct (perform_custom_checks PN c !! name) as [check |] eqn:L;
            [rewrite (V _ _ L); exact (A _ _ L)
            | unfold violations_of; rewrite L; reflexivity]
      end.
Qed.

End Recommendations.

(** ** The cost optimizer: the price tables *)

Section PriceTables.
Import CostOptimizer CostReport Terms.

(** X17. For every entry of the two downsizing tables: moving a database
    class to the class suggested for it always has a positive estimated
    saving; moving an instance type to the type suggested for it has a
    positive estimated saving except for t3.xlarge and m5.2xlarge, which
    the price table does not list, so that their recommendation carries a
    saving of 0. *)
Theorem X17_savings_of_suggested_types :
  (forall current_type suggested_type,
      suggest_smaller_instance_type current_type = Some suggested_type ->
      (estimate_instance_cost_savings current_type suggested_type = 0 <->
       current_type = "t3.xlarge" \/ current_type = "m5.2xlarge") /\
      0 <= estimate_instance_cost_savings current_type suggested_type) /\
  (forall current_class suggested_class,
      suggest_smaller_rds_class current_class = Some suggested_class ->
      0 < estimate_rds_cost_savings current_class suggested_class).
Proof.
  split.
  - assert (A : map_Forall
                  (fun k v =>
                     (estimate_instance_cost_savings k v =? 0)
                     = (String.eqb k "t3.xlarge" || String.eqb k "m5.2xlarge") /\
                     (0 <=? estimate_instance_cost_savings k v) = true)
                  downsize_map).
    { apply (bool_decide_unpack _). vm_compute. exact I. }
    intros k v L. destruct (A k v L) as [E N]. split; [| now apply Z.leb_le].
    rewrite <- Z.eqb_eq, E, orb_true_iff, !String.eqb_eq. reflexivity.
  - assert (A : map_Forall
                  (fun k v => (0 <? estimate_rds_cost_savings k v) = true)
                  rds_downsize_map).
    { apply (bool_decide_unpack _). vm_compute. exact I. }
    intros k v L. apply Z.ltb_lt. exact (A k v L).
Qed.

Lemma rds_downsize_map_named (k s : string) :
  rds_downsize_map !! k = Some s -> truthy_str s = true.
Proof.
  intros L.
  assert (A : map_Forall (fun _ v => truthy_str v = true) rds_downsize_map).
  { apply (bool_decide_unpack _). vm_compute. exact I. }
  exact (A k s L).
Qed.

Lemma rds_savings_positive (k s : string) :
  rds_downsize_map !! k = Some s -> 0 < estimate_rds_cost_savings k s.
Proof.
  assert (A : map_Forall
                (fun k v => (0 <? estimate_rds_cost_savings k v) = true)
                rds_downsize_map).
  { apply (bool_decide_unpack _). vm_compute. exact I. }
  intros L. apply Z.ltb_lt. exact (A k s L).
Qed.

End PriceTables.

(** ** The cost optimizer: databases, storage, reserved instances *)

Section CostAnalyses.
Import CostReport Terms.
Context {F : Type} `{Num F} `{NumSub F}.

(** Membership in what a loop that appends collects. *)
Lemma fold_left_collect {A B} (f : A -> list B) (l : list A) (acc : list B) :
  fold_left (fun acc x => (acc ++ f x)%list) l acc = (acc ++ flat_map f l)%list.
Proof.
  revert acc. induction l as [|x l IH]; intros acc; cbn [fold_left flat_map].
  - now rewrite app_nil_r.
  - now rewrite IH, <- app_assoc.
Qed.

Lemma fold_left_ext {A B} (f g : B -> A -> B) (l : list A) (b : B) :
  (forall b x, f b x = g b x) -> fold_left f l b = fold_left g l b.
Proof.
  intros E. revert b. induction l as [|x l IH]; intros b; [reflexivity |].
  cbn [fold_left]. now rewrite E, IH.
Qed.

Lemma analyze_db_instance_spec (thr : F) (cpu connections : string -> result (list F))
    (recs : list rds_recommendation) (i : db_instance) :
  analyze_db_instance thr cpu connections recs i
  = (recs ++ rds_found thr cpu connections i)%list.
Proof.
  unfold analyze_db_instance, rds_found.
  fold (rds_cpu_of cpu i). fold (rds_connections_of connections i).
  destruct (String.eqb (DBInstanceStatus i) "available"); cbn [negb andb].
  - destruct (ltb (rds_cpu_of cpu i) thr && ltb (rds_connections_of connections i) (of_Z 50)).
    + unfold suggest_smaller_rds_class.
      destruct (rds_downsize_map !! DBInstanceClass i) as [s |] eqn:S.
      * cbn [truthy_opt_str]. rewrite (rds_downsize_map_named _ _ S). reflexivity.
      * cbn [truthy_opt_str]. now rewrite app_nil_r.
    + destruct (suggest_smaller_rds_class (DBInstanceClass i)); now rewrite app_nil_r.
  - destruct (suggest_smaller_rds_class (DBInstanceClass i)); now rewrite app_nil_r.
Qed.

Lemma analyze_rds_instances_unfold (thr : F)
    (describe : result (list db_instance))
    (cpu connections : string -> result (list F)) :
  analyze_rds_instances thr describe cpu connections
  = flat_map (rds_found thr cpu connections) (answer describe).
Proof.
  unfold analyze_rds_instances. destruct describe as [l | x]; [| reflexivity].
  cbn [try_except mbind result_bind Py.bind mret result_ret answer].
  rewrite (fold_left_ext _ (fun acc x =>
             (acc ++ rds_found thr cpu connections x)%list))
    by apply analyze_db_instance_spec.
  now rewrite fold_left_collect.
Qed.

(** X18. A database recommendation is emitted exactly for the listed
    instances that are available, whose average CPU is strictly below the
    utilisation threshold, whose connection utilisation is strictly below
    50, and whose class has an entry in the table; it names that entry,
    and its saving is positive.  When the listing call fails there is no
    recommendation. *)
Theorem X18_rds_downsizing (UTILIZATION_THRESHOLD : F)
    (describe_db_instances : result (list db_instance))
    (cpu_statistics connection_statistics : string -> result (list F)) :
  let found :=
    analyze_rds_instances UTILIZATION_THRESHOLD describe_db_instances
      cpu_statistics connection_statistics in
  (forall r,
      In r found <->
      exists i s,
        In i (answer describe_db_instances) /\
        DBInstanceStatus i = "available" /\
        ltb (rds_cpu_of cpu_statistics i) UTILIZATION_THRESHOLD = true /\
        ltb (rds_connections_of connection_statistics i) (of_Z 50) = true /\
        suggest_smaller_rds_class (DBInstanceClass i) = Some s /\
        r = rds_downsizing (rds_cpu_of cpu_statistics i)
              (rds_connections_of connection_statistics i) i s) /\
  Forall (fun r => 0 < rds_monthly_savings r) found.
Proof.
  intros found.
  assert (E : found
              = flat_map (rds_found UTILIZATION_THRESHOLD cpu_statistics
                            connection_statistics) (answer describe_db_instances))
    by apply analyze_rds_instances_unfold.
  assert (M : forall r,
             In r found <->
             exists i s,
               In i (answer describe_db_instances) /\
               DBInstanceStatus i = "available" /\
               ltb (rds_cpu_of cpu_statistics i) UTILIZATION_THRESHOLD = true /\
               ltb (rds_connections_of connection_statistics i) (of_Z 50) = true /\
               suggest_smaller_rds_class (DBInstanceClass i) = Some s /\
               r = rds_downsizing (rds_cpu_of cpu_statistics i)
                     (rds_connections_of connection_statistics i) i s).
  { intros r. rewrite E, in_flat_map. split.
    - intros (i & I & R). unfold rds_found in R.
      destruct (suggest_smaller_rds_class (DBInstanceClass i)) as [s |] eqn:S;
        [| destruct R].
      destruct (String.eqb_spec (DBInstanceStatus i) "available") as [A | _];
        [| destruct R]. cbn [andb] in R.
      destruct (ltb (rds_cpu_of cpu_statistics i) UTILIZATION_THRESHOLD) eqn:C;
        [| destruct R].
      destruct (ltb (rds_connections_of connection_statistics i) (of_Z 50)) eqn:N;
        [| destruct R].
      destruct R as [<- | []]. exists i, s. repeat split; auto.
    - intros (i & s & I & A & C & N & S & ->). exists i. split; [exact I |].
      unfold rds_found. rewrite S, A, C, N. now left. }
  split; [exact M |].
  apply List.Forall_forall. intros r I. apply M in I as (i & s & _ & _ & _ & _ & S & ->).
  cbn [rds_downsizing rds_monthly_savings]. now apply rds_savings_positive.
Qed.

Lemma analyze_bucket_spec (PN : string) (c : s3) (recs : list s3_recommendation)
    (name : string) :
  analyze_bucket PN c recs name = (recs ++ s3_found PN c name)%list.
Proof.
  unfold analyze_bucket, s3_found. fold (storage_of (F:=F) c name).
  destruct (contains PN name); cbn [negb andb]; [| now rewrite app_nil_r].
  destruct (negb _ && ltb _ _); [reflexivity | now rewrite app_nil_r].
Qed.

Lemma no_lifecycle_rule_spec (c : s3) (name : string) :
  truthy_policy (get_bucket_lifecycle_policy (get_bucket_lifecycle_configuration c name))
  = false <-> no_lifecycle_rule c name.
Proof.
  unfold no_lifecycle_rule.
  destruct (get_bucket_lifecycle_configuration c name) as [[[|r rules] |] | | x];
    cbn; split; intros; try discriminate; try tauto; reflexivity.
Qed.

Lemma analyze_s3_storage_unfold (PN : string) (c : s3) :
  analyze_s3_storage PN c = flat_map (s3_found PN c) (answer (list_buckets c)).
Proof.
  unfold analyze_s3_storage. destruct (list_buckets c) as [l | x]; [| reflexivity].
  cbn [try_except mbind result_bind Py.bind mret result_ret answer].
  rewrite (fold_left_ext _ (fun acc x => (acc ++ s3_found PN c x)%list))
    by apply analyze_bucket_spec.
  now rewrite fold_left_collect.
Qed.

(** X19. A lifecycle recommendation is emitted exactly for the listed
    buckets whose name contains the project name, that show no lifecycle
    rule (no configuration, a configuration without rules, or a failed
    lookup), and whose listed objects weigh strictly more than 1 GiB; it
    carries the size, the number of old objects and the estimate computed
    for that bucket.  When the listing of the buckets fails there is no
    recommendation. *)
Theorem X19_s3_lifecycle_advice (PROJECT_NAME : string) (c : s3)
    (r : s3_recommendation) :
  In r (analyze_s3_storage PROJECT_NAME c) <->
  exists name,
    In name (answer (list_buckets c)) /\
    Spec.has_substring PROJECT_NAME name /\
    no_lifecycle_rule c name /\
    ltb (of_Z 1) (total_size_gb (storage_of (F:=F) c name)) = true /\
    r = lifecycle_advice c name.
Proof.
  rewrite analyze_s3_storage_unfold, in_flat_map. split.
  - intros (name & I & R). unfold s3_found in R.
    destruct (contains PROJECT_NAME name) eqn:C; [| destruct R]. cbn [andb] in R.
    destruct (truthy_policy _) eqn:P; [destruct R |]. cbn [negb andb] in R.
    destruct (ltb (of_Z 1) (total_size_gb (storage_of c name))) eqn:L; [| destruct R].
    destruct R as [<- | []]. exists name. repeat split; auto.
    + now apply contains_spec.
    + now apply no_lifecycle_rule_spec.
  - intros (name & I & C & P & L & ->). exists name. split; [exact I |].
    apply contains_spec in C. apply no_lifecycle_rule_spec in P.
    unfold s3_found. rewrite C, P, L. now left.
Qed.

(** A bucket whose objects could not be listed weighs nothing. *)
Lemma storage_of_unlisted (c : s3) (name : string) (x : string) :
  list_objects_v2 c name = Raise x ->
  total_size_gb (storage_of (F:=F) c name) = of_Z 0.
Proof. intros E. unfold storage_of, analyze_bucket_storage. now rewrite E. Qed.

Lemma read_ri_item_spec (recs recs' : list ri_recommendation) (item : ri_item F) :
  read_ri_item recs item = Ok recs' ->
  exists r, recs' = (recs ++ [r])%list /\ ri_read item r.
Proof.
  unfold read_ri_item, ri_read.
  destruct (RecommendationDetails item) as [details |].
  - change (default ?d (Some ?x)) with x.
    destruct (float_or_0 (EstimatedMonthlySavingsAmount details)) as [m | x];
      [| discriminate].
    destruct (float_or_0 (UpfrontCost details)) as [u | x]; [| discriminate].
    cbn [mbind result_bind Py.bind mret result_ret].
    intros E. injection E as <-. eexists. split; [reflexivity |].
    cbn. repeat split.
  - cbn. intros E. injection E as <-. eexists. split; [reflexivity |].
    cbn. repeat split.
Qed.

Lemma for_each_read_ri_item (items : list (ri_item F))
    (recs recs' : list ri_recommendation) :
  for_each read_ri_item items recs = Ok recs' ->
  exists new, recs' = (recs ++ new)%list /\ Forall2 ri_read items new.
Proof.
  revert recs. induction items as [|item items IH]; intros recs E.
  - injection E as <-. exists []. split; [now rewrite app_nil_r | constructor].
  - cbn [for_each] in E.
    destruct (read_ri_item recs item) as [recs1 | x] eqn:R; [| discriminate].
    apply read_ri_item_spec in R as (r & -> & Rr).
    apply IH in E as (new & -> & Fn). exists (r :: new).
    split; [now rewrite <- app_assoc | now constructor].
Qed.

(** X20. The reserved-instance recommendations are all or nothing: either
    the list returned is empty, or the call was answered and the list has
    one recommendation for each item of the answer, in order, carrying the
    instance type, the number of instances and the two amounts of the
    item.  As soon as one amount of one item is not a number, every
    recommendation is dropped. *)
Theorem X20_reserved_instances_all_or_nothing
    (response : result (option (list (ri_item F)))) :
  get_reserved_instance_recommendations response = [] \/
  exists items,
    response = Ok (Some items) /\
    Forall2 ri_read items (get_reserved_instance_recommendations response).
Proof.
  unfold get_reserved_instance_recommendations.
  destruct response as [[items |] | x]; [| now left | now left].
  cbn [try_except mbind result_bind Py.bind]. change (default ?d (Some ?x)) with x.
  destruct (for_each read_ri_item items []) as [recs | x] eqn:E; [| now left].
  right. exists items. split; [reflexivity |].
  apply for_each_read_ri_item in E as (new & -> & Fn). exact Fn.
Qed.

Lemma for_each_add_group (groups : list (cost_group F)) (summary : cost_summary) :
  match amounts_of groups with
  | Some amounts =>
      exists summary',
        for_each add_group groups summary = Ok summary' /\
        current_month_total summary'
        = fold_left add amounts (current_month_total summary) /\
        (forall s, is_Some (by_service summary' !! s) <->
                   is_Some (by_service summary !! s) \/
                   In s (List.map service groups))
  | None => exists x, for_each add_group groups summary = Raise x
  end.
Proof.
  revert summary. induction groups as [|g groups IH]; intros summary.
  - cbn. exists summary. repeat split; auto. intros [S | []]. exact S.
  - cbn [amounts_of for_each]. destruct (Amount g) as [a | x] eqn:A.
    + set (s1 := {| current_month_total := add (current_month_total summary) a;
                    by_service := <[ service g := a ]> (by_service summary) |}).
      assert (St : add_group summary g = Ok s1)
        by (unfold add_group; rewrite A; reflexivity).
      rewrite St. specialize (IH s1).
      destruct (amounts_of groups) as [amounts |]; [| exact IH].
      destruct IH as (summary' & E & T & D). exists summary'.
      split; [exact E |]. split; [exact T |].
      intros s. rewrite D. unfold s1. cbn [by_service List.map In].
      destruct (decide (service g = s)) as [<- | N].
      * rewrite lookup_insert_eq. split; [intros _; right; now left | eauto].
      * rewrite lookup_insert_ne by exact N. tauto.
    + assert (St : add_group summary g = Raise x)
        by (unfold add_group; rewrite A; reflexivity).
      rewrite St. eauto.
Qed.

(** X21. The cost summary is all or nothing.  When the call is answered
    and every amount of the groups of the first period is a number, the
    total is the sum of these amounts, added in order from 0.0, and the
    services listed are exactly those of these groups; later periods are
    not read.  When the call fails, or one amount is not a number, the
    summary is the empty one: total 0.0 and no service, whatever was read
    before. *)
Theorem X21_cost_summary_all_or_nothing (response : result (list (period F))) :
  match response, amounts_of (summarised response) with
  | Ok _, Some amounts =>
      current_month_total (get_cost_summary response) = sum_F amounts /\
      (forall s, is_Some (by_service (get_cost_summary response) !! s) <->
                 In s (List.map service (summarised response)))
  | _, _ => get_cost_summary response = no_costs
  end.
Proof.
  unfold get_cost_summary, summarised.
  destruct response as [[|first rest] | x]; [| | reflexivity].
  - cbn. split; [reflexivity |]. intros s. rewrite lookup_empty. split.
    + intros [v V]. discriminate.
    + intros [].
  - cbn [try_except mbind result_bind Py.bind].
    pose proof (for_each_add_group (Groups first) no_costs) as P.
    destruct (amounts_of (Groups first)) as [amounts |].
    + destruct P as (summary' & -> & T & D). cbn [try_except]. split; [exact T |].
      intros s. rewrite D. cbn [no_costs by_service]. rewrite lookup_empty. split.
      * intros [[v V] | I]; [discriminate | exact I].
      * auto.
    + destruct P as (x & ->). reflexivity.
Qed.

End CostAnalyses.

Section UnreadableBuckets.
Import CostReport Terms.
Context {F : Type} `{Num F} `{NumSub F}.

(** X22. Where 1 is not below 0, a bucket whose objects could not be
    listed is never recommended: every lifecycle recommendation is for a
    bucket whose object listing was answered. *)
Theorem X22_unreadable_bucket_not_advised (PROJECT_NAME : string) (c : s3)
    (r : s3_recommendation) :
  ltb (of_Z 1) (of_Z (F:=F) 0) = false ->
  In r (analyze_s3_storage PROJECT_NAME c) ->
  exists contents, list_objects_v2 c (bucket_name r) = Ok contents.
Proof.
  intros L10. rewrite analyze_s3_storage_unfold, in_flat_map.
  intros (name & _ & R). unfold s3_found in R.
  destruct (contains PROJECT_NAME name); [| destruct R]. cbn [andb] in R.
  destruct (negb _); [| destruct R]. cbn [andb] in R.
  destruct (ltb (of_Z 1) (total_size_gb (storage_of c name))) eqn:L; [| destruct R].
  destruct R as [<- | []]. cbn [lifecycle_advice bucket_name].
  destruct (list_objects_v2 c name) as [contents | x] eqn:E; [eauto |].
  rewrite (storage_of_unlisted c name x E) in L. congruence.
Qed.

End UnreadableBuckets.

Lemma X22_unreadable_bucket_not_advised_witness :
  exists contents,
    CostReport.list_objects_v2 Scenario.project_buckets "epic-logs" = Ok contents.
Proof.
  apply (X22_unreadable_bucket_not_advised (F:=float) "epic"
           Scenario.project_buckets
           (Terms.lifecycle_advice Scenario.project_buckets "epic-logs")).
  - reflexivity.
  - vm_compute. left. reflexivity.
Defined.

Section StorageEstimate.
Import CostReport Terms.
Local Open Scope Q_scope.

Lemma estimate_s3_lifecycle_savings_exact (a : storage_analysis (F:=Q)) :
  estimate_s3_lifecycle_savings a == total_size_gb a * (693 # 100000).
Proof.
  unfold estimate_s3_lifecycle_savings, lit.
  cbn [of_Z add mul div sub Q_Num Q_NumSub]. field.
Qed.

(** X23. In exact arithmetic the estimate of a lifecycle recommendation is
    0.00693 per GiB of the bucket (70% of the data taken as old, 40% of it
    moved from 0.023 to 0.0125 and 30% of it from 0.023 to 0.004 per GiB
    and month), and every recommendation is for more than 1 GiB, so that
    its estimate is above 0.00693. *)
Theorem X23_lifecycle_estimate_exact (PROJECT_NAME : string) (c : s3) :
  Forall (fun r =>
            s3_monthly_savings r == current_storage_gb r * (693 # 100000) /\
            1 < current_storage_gb r /\
            693 # 100000 < s3_monthly_savings r)
    (analyze_s3_storage (F:=Q) PROJECT_NAME c).
Proof.
  apply List.Forall_forall. intros r.
  rewrite analyze_s3_storage_unfold, in_flat_map.
  intros (name & _ & R). unfold s3_found in R.
  destruct (contains PROJECT_NAME name); [| destruct R]. cbn [andb] in R.
  destruct (negb _); [| destruct R]. cbn [andb] in R.
  destruct (ltb (of_Z 1) (total_size_gb (storage_of c name))) eqn:L; [| destruct R].
  destruct R as [<- | []].
  cbn [lifecycle_advice s3_monthly_savings current_storage_gb].
  apply Qltb_lt in L.
  pose proof (estimate_s3_lifecycle_savings_exact (storage_of c name)) as E.
  set (x := total_size_gb (storage_of c name)) in *.
  change (1 < x) in L.
  split; [exact E |]. split; [exact L |]. rewrite E. lra.
Qed.

(** In binary64 the estimate for the three objects of [project_buckets]
    (3 GiB) lies between 0.02078 and 0.02080, around the exact 0.02079. *)
Example lifecycle_estimate_binary64 :
  List.map (fun r => PrimFloat.ltb (PrimFloat.div 2078 100000) (s3_monthly_savings r) &&
                     PrimFloat.ltb (s3_monthly_savings r) (PrimFloat.div 2080 100000))
    (analyze_s3_storage (F:=float) "epic" Scenario.project_buckets)
  = [true].
Proof. vm_compute. reflexivity. Qed.

End StorageEstimate.

Section SavingsNotice.
Import CostReport Terms.
Context {F : Type} `{Num F} `{NumSub F}.

(** X24. The cost handler publishes the savings notice exactly when the
    total potential savings are strictly above COST_THRESHOLD and a topic
    is configured.  Every notice goes to the configured topic; the savings
    notice carries the report of the run, and an error notice the error of
    the 500 response. *)
Theorem X24_savings_notice (e : env) :
  (published_savings (snd (handler e)) <->
   ltb (COST_THRESHOLD e) (total_potential_savings (build_report e)) = true /\
   truthy_opt_str (SNS_TOPIC_ARN e) = true) /\
  Forall (fun p =>
            TopicArn p = default "" (SNS_TOPIC_ARN e) /\
            match Notice p with
            | SavingsNotice r => r = build_report e
            | ErrorNotice msg => response_body (fst (handler e)) = ErrorBody msg
            end)
    (snd (handler e)).
Proof.
  unfold handler, published_savings. cbv zeta.
  set (report := build_report e).
  set (sent := if ltb (COST_THRESHOLD e) (total_potential_savings report)
               then send_recommendations_notification e report else []).
  assert (S : sent = [] /\
              (ltb (COST_THRESHOLD e) (total_potential_savings report) = false \/
               truthy_opt_str (SNS_TOPIC_ARN e) = false) \/
              sent = [ {| TopicArn := default "" (SNS_TOPIC_ARN e);
                          Notice := SavingsNotice report |} ] /\
              ltb (COST_THRESHOLD e) (total_potential_savings report) = true /\
              truthy_opt_str (SNS_TOPIC_ARN e) = true).
  { unfold sent, send_recommendations_notification.
    destruct (ltb (COST_THRESHOLD e) (total_potential_savings report)); [| auto].
    destruct (truthy_opt_str (SNS_TOPIC_ARN e)); cbn [negb]; auto. }
  clearbody sent.
  destruct (json_dumps_raises e) as [exn |]; cbn [fst snd response_body].
  - unfold send_error_notification.
    destruct S as [(-> & [L | T]) | (-> & L & T)]; rewrite ?L, ?T; cbn [negb List.app].
    + destruct (truthy_opt_str (SNS_TOPIC_ARN e)); split.
      * split; [intros (p & [<- | []] & []) | intros [D _]; discriminate].
      * constructor; [split; reflexivity | constructor].
      * split; [intros (p & [] & _) | intros [D _]; discriminate].
      * constructor.
    + split; [| constructor].
      split; [intros (p & [] & _) | intros [_ D]; discriminate].
    + split.
      * split; [auto |]. intros _. eexists. split; [left; reflexivity | exact I].
      * constructor; [split; reflexivity |].
        constructor; [split; reflexivity | constructor].
  - destruct S as [(-> & [L | T]) | (-> & L & T)]; rewrite ?L, ?T.
    + split; [| constructor].
      split; [intros (p & [] & _) | intros [D _]; discriminate].
    + split; [| constructor].
      split; [intros (p & [] & _) | intros [_ D]; discriminate].
    + split.
      * split; [auto |]. intros _. eexists. split; [left; reflexivity | exact I].
      * constructor; [split; reflexivity | constructor].
Qed.

End SavingsNotice.

(** ** The compliance checks: security groups *)

Section SecurityGroups.
Import ComplianceChecker Terms.

Lemma is_nil_spec {A} (l : list A) : is_nil l = true <-> l = [].
Proof. destruct l; cbn; split; intros; congruence. Qed.

Lemma opt_string_eqb_spec (o : option string) (s : string) :
  opt_string_eqb o s = true <-> o = Some s.
Proof.
  destruct o as [x |]; cbn; [| split; discriminate].
  rewrite String.eqb_eq. split; congruence.
Qed.

Lemma port_not_web_spec (port : option Z) :
  port_not_web port = true <-> port <> Some 80 /\ port <> Some 443.
Proof.
  destruct port as [p |]; cbn; [| split; [split; discriminate | reflexivity]].
  rewrite negb_true_iff, orb_false_iff, !Z.eqb_neq. split.
  - intros [A B]. split; congruence.
  - intros [A B]. split; congruence.
Qed.

Lemma rule_findings_spec (rule : ip_permission) :
  rule_findings rule <> [] <-> world_open rule.
Proof.
  unfold rule_findings, world_open.
  induction (default [] (IpRanges rule)) as [|r ranges IH]; cbn [flat_map].
  - split; [congruence | intros [(r & [] & _) _]].
  - destruct (opt_string_eqb (CidrIp r) "0.0.0.0/0") eqn:C.
    + destruct (port_not_web (FromPort rule)) eqn:P.
      * split; [intros _ | discriminate].
        apply opt_string_eqb_spec in C. apply port_not_web_spec in P.
        split; [exists r; split; [now left | exact C] | exact P].
      * cbn [List.app]. rewrite IH. split.
        -- intros [(r' & I & C') P']. split; [exists r'; split; [now right | exact C'] | exact P'].
        -- intros [_ P']. apply port_not_web_spec in P'. congruence.
    + cbn [List.app]. rewrite IH. split.
      * intros [(r' & I & C') P']. split; [exists r'; split; [now right | exact C'] | exact P'].
      * intros [(r' & [<- | I] & C') P'].
        -- apply opt_string_eqb_spec in C'. congruence.
        -- split; [exists r'; split; assumption | exact P'].
Qed.

Lemma flat_map_nil {A B} (f : A -> list B) (l : list A) :
  flat_map f l = [] <-> forall x, In x l -> f x = [].
Proof.
  induction l as [|a l IH]; cbn [flat_map].
  - split; [intros _ x [] | reflexivity].
  - split.
    + intros E. apply app_eq_nil in E as [E1 E2]. intros x [<- | I]; [exact E1 |].
      now apply IH.
    + intros A0. rewrite (A0 a (or_introl eq_refl)). apply IH.
      intros x I. apply A0. now right.
Qed.

Lemma found_or_none (l : list ip_permission) :
  (exists rule, In rule l /\ world_open rule) \/
  (forall rule, In rule l -> rule_findings rule = []).
Proof.
  induction l as [|a l [(rule & I & W) | All]].
  - right. intros rule [].
  - left. exists rule. split; [now right | exact W].
  - destruct (rule_findings a) as [|f fs] eqn:E.
    + right. intros rule [<- | I]; [exact E | now apply All].
    + left. exists a. split; [now left |]. apply rule_findings_spec. now rewrite E.
Qed.

Lemma group_found_spec (sg : security_group) :
  group_found sg <> [] <-> flagged sg.
Proof.
  unfold group_found, flagged, unused.
  destruct (is_nil (IpPermissions sg)) eqn:N1.
  - apply is_nil_spec in N1. rewrite N1. cbn [flat_map andb List.app].
    destruct (is_nil (default [] (IpPermissionsEgress sg))) eqn:N2.
    + apply is_nil_spec in N2. split; [intros _; right; auto | discriminate].
    + split; [congruence |]. intros [(rule & [] & _) | [_ E]].
      apply is_nil_spec in E. congruence.
  - cbn [andb]. split.
    + intros NE. left.
      destruct (found_or_none (IpPermissions sg)) as [Ex | All].
      * exact Ex.
      * destruct NE. apply flat_map_nil. exact All.
    + intros [(rule & I & W) | [E _]].
      * intros E. apply rule_findings_spec in W. apply W.
        exact (proj1 (flat_map_nil _ _) E rule I).
      * rewrite E in N1. discriminate.
Qed.

Lemma inspect_group_violations (report : check_report) (sg : security_group) :
  violations (inspect_group report sg)
  = (violations report ++ group_violation sg)%list.
Proof.
  unfold inspect_group, group_violation. fold (group_found sg).
  destruct (String.eqb (GroupName sg) "default"); [now rewrite app_nil_r |].
  destruct (is_nil (group_found sg)); [now rewrite app_nil_r | reflexivity].
Qed.

Lemma fold_inspect_group_violations (groups : list security_group)
    (report : check_report) :
  violations (fold_left inspect_group groups report)
  = (violations report ++ flat_map group_violation groups)%list.
Proof.
  revert report. induction groups as [|sg groups IH]; intros report.
  - cbn. now rewrite app_nil_r.
  - cbn [fold_left flat_map]. now rewrite IH, inspect_group_violations, <- app_assoc.
Qed.

Lemma check_security_groups_violations (c : cloud) :
  violations (check_security_groups c)
  = flat_map group_violation (answer (describe_security_groups c)).
Proof.
  unfold check_security_groups, security_groups_scan.
  destruct (describe_security_groups c) as [groups | x]; [| reflexivity].
  cbn [try_except mbind result_bind Py.bind mret result_ret answer].
  now rewrite fold_inspect_group_violations.
Qed.

(** X25. The security-group check lists a violation for exactly the listed
    groups, other than those named "default", that have an inbound rule
    open to 0.0.0.0/0 on a port other than 80 and 443, or that have no
    inbound and no outbound rule at all.  A group named "default", a group
    whose open rules are on ports 80 and 443 only, and a rule open through
    an IPv6 range alone are never listed.  When the listing fails nothing
    is listed. *)
Theorem X25_security_group_violations (c : cloud) :
  let groups := answer (describe_security_groups c) in
  (forall v,
      In v (violations (check_security_groups c)) ->
      exists sg found,
        In sg groups /\ GroupName sg <> "default" /\ flagged sg /\
        v = group_findings (GroupId sg) (GroupName sg) found) /\
  (forall sg,
      In sg groups -> GroupName sg <> "default" -> flagged sg ->
      exists found,
        found <> [] /\
        In (group_findings (GroupId sg) (GroupName sg) found)
          (violations (check_security_groups c))).
Proof.
  intros groups. rewrite check_security_groups_violations. fold groups. split.
  - intros v I. apply in_flat_map in I as (sg & I & V).
    unfold group_violation in V.
    destruct (String.eqb_spec (GroupName sg) "default") as [_ | N]; [destruct V |].
    destruct (is_nil (group_found sg)) eqn:E; [destruct V |].
    destruct V as [<- | []]. exists sg, (group_found sg).
    repeat split; auto. apply group_found_spec. intros E'.
    apply is_nil_spec in E'. congruence.
  - intros sg I N Fl. exists (group_found sg).
    apply group_found_spec in Fl. split; [exact Fl |].
    apply in_flat_map. exists sg. split; [exact I |]. unfold group_violation.
    destruct (String.eqb_spec (GroupName sg) "default") as [E | _]; [now destruct N |].
    destruct (is_nil (group_found sg)) eqn:E; [| now left].
    apply is_nil_spec in E. now destruct Fl.
Qed.

End SecurityGroups.
